(** * Market-data: period-label normalisation and table reconciliation

    A shallow embedding of [complete.py]: the period-label normaliser
    ([normalize_period_label], [normalize_period]), the suffix-row folder
    ([fold_month_suffix_rows]), the duplicate-row merger
    ([merge_duplicate_rows]), the table-set reconciler
    ([process_extracted_dfs]) and the template merge
    ([apply_amd_template_if_needed]).

    Conventions of the embedding.
    - A Python [str] is a [string], one character per code point; the
      embedding is that of the source on ASCII text.  Case mapping, [\d],
      [\s] and [str.strip] are the ASCII restrictions of Python's.  The
      few non-ASCII literals of the exclusion lists stand as their UTF-8
      bytes and are only ever searched for as they are.
    - Python floats are binary64 primitive floats ([PrimFloat]); a sum
      over a row ([Series.sum]) adds the cells in the pairwise order of
      numpy, which is left to right for fewer than eight cells.
    - A cell is missing, a number, or text that is not a number; rows
      are addressed by column label, and column labels are distinct.
    - Where the source addresses a row by its label
      ([handle_actual_columns], [fold_month_suffix_rows],
      [apply_amd_template_if_needed]) it raises [ValueError] on a
      repeated row label; these functions are embedded for tables with
      distinct row labels.  The statements about them assume such
      tables; the statements about [process_extracted_dfs] are about
      the table that the source returns when it returns one.
    - Each regular expression of the source is embedded as a recogniser
      returning its capture groups; the doc comment of each recogniser
      quotes the pattern and says why the choice it makes is the only
      one the backtracking matcher can make.  [$] is the end of the
      string or the place before a final newline, as in [re.match]. *)

From Stdlib Require Import String Ascii List Bool Arith NArith Lia Sorted.
From Stdlib Require Import DecimalString DecimalFacts DecimalN PrimFloat.
Import ListNotations.

Set Warnings "-inexact-float".

Local Open Scope string_scope.
Local Open Scope bool_scope.
Local Open Scope nat_scope.

(* ================================================================== *)
(** ** Python string primitives *)
(* ================================================================== *)

Module Py.

Definition code (c : ascii) : nat := nat_of_ascii c.

Definition in_range (lo hi : nat) (c : ascii) : bool :=
  (lo <=? code c) && (code c <=? hi).

(** [\d] on ASCII. *)
Definition is_digit (c : ascii) : bool := in_range 48 57 c.
(** [[A-Z]] and [[a-z]]. *)
Definition is_upper (c : ascii) : bool := in_range 65 90 c.
Definition is_lower (c : ascii) : bool := in_range 97 122 c.
Definition is_alpha (c : ascii) : bool := is_upper c || is_lower c.

(** [str.isspace] / [\s] on ASCII: TAB, LF, VT, FF, CR, the four separators
    0x1c..0x1f and the space. *)
Definition is_space (c : ascii) : bool := in_range 9 13 c || in_range 28 32 c.

Definition to_upper (c : ascii) : ascii :=
  if is_lower c then ascii_of_nat (code c - 32) else c.
Definition to_lower (c : ascii) : ascii :=
  if is_upper c then ascii_of_nat (code c + 32) else c.

Fixpoint smap (f : ascii -> ascii) (s : string) : string :=
  match s with
  | EmptyString => EmptyString
  | String c r => String (f c) (smap f r)
  end.

(** [s.upper()], [s.lower()]. *)
Definition upper (s : string) : string := smap to_upper s.
Definition lower (s : string) : string := smap to_lower s.

Definition is_empty (s : string) : bool :=
  match s with EmptyString => true | _ => false end.

Fixpoint lstrip (s : string) : string :=
  match s with
  | String c r => if is_space c then lstrip r else s
  | EmptyString => EmptyString
  end.

Fixpoint rstrip (s : string) : string :=
  match s with
  | String c r =>
      let r' := rstrip r in
      if is_empty r' && is_space c then EmptyString else String c r'
  | EmptyString => EmptyString
  end.

(** [s.strip()]. *)
Definition strip (s : string) : string := rstrip (lstrip s).

Fixpoint sfilter (p : ascii -> bool) (s : string) : string :=
  match s with
  | EmptyString => EmptyString
  | String c r => if p c then String c (sfilter p r) else sfilter p r
  end.

(** [s.replace(" ", "")]. *)
Definition remove_spaces (s : string) : string :=
  sfilter (fun c => negb (Ascii.eqb c " ")) s.

Fixpoint forall_chars (p : ascii -> bool) (s : string) : bool :=
  match s with
  | EmptyString => true
  | String c r => p c && forall_chars p r
  end.

(** [pre] is a prefix of [s] ([s.startswith(pre)]). *)
Fixpoint startswith (s pre : string) : bool :=
  match pre, s with
  | EmptyString, _ => true
  | String a p', String b s' => Ascii.eqb a b && startswith s' p'
  | String _ _, EmptyString => false
  end.

Fixpoint drop (n : nat) (s : string) : string :=
  match n, s with
  | O, _ => s
  | S k, String _ r => drop k r
  | S _, EmptyString => EmptyString
  end.

(** [s.endswith(suf)]. *)
Definition endswith (s suf : string) : bool :=
  (String.length suf <=? String.length s) &&
  String.eqb (drop (String.length s - String.length suf) s) suf.

(** [old in s] for a non-empty [old]. *)
Fixpoint contains (s old : string) : bool :=
  startswith s old ||
  match s with
  | EmptyString => false
  | String _ r => contains r old
  end.

(** [s.replace(old, "")] for a non-empty [old]: the non-overlapping
    occurrences are removed from left to right.  [skip] counts the
    characters of the occurrence being removed that are still ahead. *)
Fixpoint remove_from (old s : string) (skip : nat) : string :=
  match s with
  | EmptyString => EmptyString
  | String c r =>
      match skip with
      | S k => remove_from old r k
      | O =>
          if startswith s old
          then remove_from old r (String.length old - 1)
          else String c (remove_from old r 0)
      end
  end.

Definition remove_all (s old : string) : string := remove_from old s 0.

(** Longest prefix of characters satisfying [p], and the rest. *)
Fixpoint span (p : ascii -> bool) (s : string) : string * string :=
  match s with
  | String c r =>
      if p c then let (a, b) := span p r in (String c a, b)
      else (EmptyString, s)
  | EmptyString => (EmptyString, EmptyString)
  end.

(** Exactly [n] leading characters satisfying [p], and the rest. *)
Fixpoint exactly (n : nat) (p : ascii -> bool) (s : string)
  : option (string * string) :=
  match n with
  | O => Some (EmptyString, s)
  | S k =>
      match s with
      | String c r =>
          if p c then
            match exactly k p r with
            | Some (a, b) => Some (String c a, b)
            | None => None
            end
          else None
      | EmptyString => None
      end
  end.

(** The anchor [$] of [re.match]: the end of the string, or just before a
    newline that ends the string. *)
Definition at_end (s : string) : bool :=
  match s with
  | EmptyString => true
  | String c EmptyString => Ascii.eqb c "010"
  | _ => false
  end.

(** [int(s)] for a string of decimal digits, read by the library's
    decimal reader (0 stands for the [ValueError] on any other string;
    the source calls [int] on digits only). *)
Definition int (s : string) : N :=
  match NilZero.uint_of_string s with
  | Some d => N.of_uint d
  | None => 0%N
  end.

(** [str(n)] for a non-negative integer. *)
Definition str_of_N (n : N) : string := NilZero.string_of_uint (N.to_uint n).

(** Predicates used in the statements about strings. *)

(** A character that [strip], [upper] and the removal of spaces leave
    alone. *)
Definition plain (c : ascii) : bool := negb (is_space c) && negb (is_lower c).

(** A character of a canonical period label. *)
Definition is_canon_char (c : ascii) : bool :=
  is_digit c || Ascii.eqb c "Q" || Ascii.eqb c "F".

(** What follows a run of digits does not start with a digit. *)
Definition no_digit_ahead (r : string) : bool :=
  match r with
  | EmptyString => true
  | String c _ => negb (is_digit c)
  end.

End Py.

(** A small error monad for the recognisers: [None] is "no match". *)
Notation "x <- e ;; k" :=
  (match e with Some x => k | None => None end)
  (at level 61, e at next level, right associativity).
Notation "' p <- e ;; k" :=
  (match e with Some p => k | None => None end)
  (at level 61, p pattern, e at next level, right associativity).
Notation "'guard' b ;; k" :=
  (if b then k else None)
  (at level 61, b at next level, right associativity).

(* ================================================================== *)
(** ** Period-label normaliser *)
(* ================================================================== *)

Module Period.
Import Py.

(** Policy constants of the source. *)
Definition CURRENT_YEAR : N := 2025.
Definition LAST_ACTUAL_QUARTER : N := 2.

Definition _MONTH_TO_Q (mon : string) : option N :=
  if String.eqb mon "JAN" then Some 1%N else
  if String.eqb mon "FEB" then Some 1%N else
  if String.eqb mon "MAR" then Some 1%N else
  if String.eqb mon "APR" then Some 2%N else
  if String.eqb mon "MAY" then Some 2%N else
  if String.eqb mon "JUN" then Some 2%N else
  if String.eqb mon "JUL" then Some 3%N else
  if String.eqb mon "AUG" then Some 3%N else
  if String.eqb mon "SEP" then Some 3%N else
  if String.eqb mon "OCT" then Some 4%N else
  if String.eqb mon "NOV" then Some 4%N else
  if String.eqb mon "DEC" then Some 4%N else None.

Definition _to_yyyy (y : string) : string :=
  let y := strip y in
  if String.length y =? 2 then "20" ++ y else y.

Definition _is_future_quarter (yyyy q : N) : bool :=
  if (CURRENT_YEAR <? yyyy)%N then true
  else if (yyyy <? CURRENT_YEAR)%N then false
  else (LAST_ACTUAL_QUARTER <? q)%N.

(** [[1-4]] *)
Definition is_q (c : ascii) : bool := in_range 49 52 c.
(** [[AEF]] *)
Definition is_AEF (c : ascii) : bool :=
  Ascii.eqb c "A" || Ascii.eqb c "E" || Ascii.eqb c "F".
(** [[-/]] *)
Definition is_dash_slash (c : ascii) : bool :=
  Ascii.eqb c "-" || Ascii.eqb c "/".
(** [suf in ("E", "F")] *)
Definition is_EF (suf : string) : bool :=
  String.eqb suf "E" || String.eqb suf "F".

(** [(c?)$] for a character class [c] none of whose members is a newline:
    the optional character is taken when it is there (without it [$] would
    have to hold in front of it, which it cannot). *)
Definition opt_char_end (p : ascii -> bool) (s : string) : option string :=
  match s with
  | String c r =>
      if p c && at_end r then Some (String c EmptyString)
      else if at_end s then Some EmptyString
      else None
  | EmptyString => Some EmptyString
  end.

(** [\d{lo,hi}] followed by something that cannot start with a digit: the
    whole run of digits is taken, and it must have [lo..hi] characters. *)
Definition digits_between (lo hi : nat) (s : string) : option (string * string) :=
  let (d, r) := span is_digit s in
  guard ((lo <=? String.length d) && (String.length d <=? hi)) ;;
  Some (d, r).

(** [(?:FY)?] in front of something that cannot start with [F]. *)
Definition skip_FY (s : string) : string :=
  if startswith s "FY" then drop 2 s else s.

(** Rule 1: [^(\d{1,2})/(\d{4})([AEF]?)$], groups (mm, yyyy, suf). *)
Definition match_month_year (s : string) : option (string * string * string) :=
  '(mm, r) <- digits_between 1 2 s ;;
  match r with
  | String "/" r1 =>
      '(yyyy, r2) <- exactly 4 is_digit r1 ;;
      suf <- opt_char_end is_AEF r2 ;;
      Some (mm, yyyy, suf)
  | _ => None
  end.

(** Rule 2: [^([1-4])Q(\d{2,4})([AEF]?)$], groups (q, y, suf). *)
Definition match_quarter (s : string) : option (ascii * string * string) :=
  match s with
  | String q (String "Q" r) =>
      guard (is_q q) ;;
      '(y, r1) <- digits_between 2 4 r ;;
      suf <- opt_char_end is_AEF r1 ;;
      Some (q, y, suf)
  | _ => None
  end.

(** Rule 3: [^([A-Z]{3})-(\d{2})([1-4])Q([AEF]?)$], groups (mon, y2, q, suf). *)
Definition match_mon_yy_q (s : string)
  : option (string * string * ascii * string) :=
  '(mon, r) <- exactly 3 is_upper s ;;
  match r with
  | String "-" r1 =>
      '(y2, r2) <- exactly 2 is_digit r1 ;;
      match r2 with
      | String q (String "Q" r3) =>
          guard (is_q q) ;;
          suf <- opt_char_end is_AEF r3 ;;
          Some (mon, y2, q, suf)
      | _ => None
      end
  | _ => None
  end.

(** Rule 3.5: [^([A-Z]{3})[-/](\d{2,4})$], groups (mon, y). *)
Definition match_mon_year (s : string) : option (string * string) :=
  '(mon, r) <- exactly 3 is_upper s ;;
  match r with
  | String c r1 =>
      guard (is_dash_slash c) ;;
      '(y, r2) <- digits_between 2 4 r1 ;;
      guard (at_end r2) ;;
      Some (mon, y)
  | EmptyString => None
  end.

(** Rule 4: [^(\d{4})(?:E|F)(?:[A-Z]+)?$], group yyyy. *)
Definition match_year_forecast (s : string) : option string :=
  '(yyyy, r) <- exactly 4 is_digit s ;;
  match r with
  | String c r1 =>
      guard (Ascii.eqb c "E" || Ascii.eqb c "F") ;;
      guard (at_end (snd (span is_upper r1))) ;;
      Some yyyy
  | EmptyString => None
  end.

(** Rule 5: [^(?:FY)?(\d{4})(?:FY)?([AEF]?)$], groups (yyyy, suf). *)
Definition match_fiscal_year (s : string) : option (string * string) :=
  '(yyyy, r) <- exactly 4 is_digit (skip_FY s) ;;
  suf <- opt_char_end is_AEF (skip_FY r) ;;
  Some (yyyy, suf).

(** Rule 6: [^([1-4])Q(\d{2})$], groups (q, y2). *)
Definition match_quarter_yy (s : string) : option (ascii * string) :=
  match s with
  | String q (String "Q" r) =>
      guard (is_q q) ;;
      '(y2, r1) <- exactly 2 is_digit r ;;
      guard (at_end r1) ;;
      Some (q, y2)
  | _ => None
  end.

(** [F?$] *)
Definition opt_F_end (s : string) : bool :=
  match opt_char_end (fun c => Ascii.eqb c "F") s with
  | Some _ => true
  | None => false
  end.

(** [^\d{4}F?$] *)
Definition match_canon_year (s : string) : bool :=
  match exactly 4 is_digit s with
  | Some (_, r) => opt_F_end r
  | None => false
  end.

(** [^[1-4]Q\d{4}F?$] *)
Definition match_canon_quarter (s : string) : bool :=
  match s with
  | String q (String "Q" r) =>
      is_q q &&
      match exactly 4 is_digit r with
      | Some (_, r1) => opt_F_end r1
      | None => false
      end
  | _ => false
  end.

(** The first three statements of [normalize_period_label]:
    [s = str(label).strip().upper().replace(" ", "")], then every
    occurrence of [ACTUAL] is removed when [s] ends with it. *)
Definition prepare (label : string) : string :=
  let s := remove_spaces (upper (strip label)) in
  if endswith s "ACTUAL" then remove_all s "ACTUAL" else s.

Definition quarter_label (q : ascii) (yyyy : string) (suf : string) : string :=
  if is_EF suf then String q ("Q" ++ yyyy ++ "F") else String q ("Q" ++ yyyy).

(** [normalize_period_label] on a string. *)
Definition normalize_period_label_str (label : string) : string :=
  let s := prepare label in
  match match_month_year s with
  | Some (_, yyyy, suf) =>
      let yyyy := _to_yyyy yyyy in
      if is_EF suf then yyyy ++ "F" else yyyy
  | None =>
  match match_quarter s with
  | Some (q, y, suf) => quarter_label q (_to_yyyy y) suf
  | None =>
  match match_mon_yy_q s with
  | Some (_, y2, q, suf) => quarter_label q (_to_yyyy y2) suf
  | None =>
  match
    match match_mon_year s with
    | Some (mon, y) =>
        match _MONTH_TO_Q mon with
        | Some q => Some (q, y)
        | None => None
        end
    | None => None
    end
  with
  | Some (q, y) =>
      let yyyy := int (_to_yyyy y) in
      let fflag := if _is_future_quarter yyyy q then "F" else "" in
      str_of_N q ++ "Q" ++ str_of_N yyyy ++ fflag
  | None =>
  match match_year_forecast s with
  | Some yyyy => yyyy ++ "F"
  | None =>
  match match_fiscal_year s with
  | Some (yyyy, suf) => if is_EF suf then yyyy ++ "F" else yyyy
  | None =>
  match match_quarter_yy s with
  | Some (q, y2) => String q ("Q" ++ _to_yyyy y2)
  | None =>
      if match_canon_year s || match_canon_quarter s then s
      else s
  end end end end end end end.

(** [normalize_period_label]: [None] goes to [None]. *)
Definition normalize_period_label (label : option string) : option string :=
  match label with
  | None => None
  | Some l => Some (normalize_period_label_str l)
  end.

(** Some rule of [normalize_period_label] (rules 1 to 6 or the test for an
    already canonical label) matches the prepared label: the function
    returns before its last line. *)
Definition rule_matches (s : string) : bool :=
  match match_month_year s with Some _ => true | None =>
  match match_quarter s with Some _ => true | None =>
  match match_mon_yy_q s with Some _ => true | None =>
  match
    match match_mon_year s with
    | Some (mon, _) => _MONTH_TO_Q mon
    | None => None
    end
  with Some _ => true | None =>
  match match_year_forecast s with Some _ => true | None =>
  match match_fiscal_year s with Some _ => true | None =>
  match match_quarter_yy s with Some _ => true | None =>
    match_canon_year s || match_canon_quarter s
  end end end end end end end.

Definition recognized (label : string) : bool := rule_matches (prepare label).

(** The month rule applies to a year of three or four digits that
    starts with a zero. *)
Definition zero_padded_month_year (s : string) : bool :=
  match match_mon_year s with
  | Some (mon, y) =>
      match _MONTH_TO_Q mon with
      | Some _ => negb (String.length y =? 2) && startswith y "0"
      | None => false
      end
  | None => false
  end.

(** The canonical forms: [YYYY], [YYYYF], [qQYYYY], [qQYYYYF] (the year
    of a quarter may have three digits, which the quarter rule lets
    through). *)
Definition canonical_year (o : string) : Prop :=
  exists y m,
    o = y ++ m /\ forall_chars is_digit y = true /\ String.length y = 4
    /\ (m = "" \/ m = "F").

Definition canonical_quarter (o : string) : Prop :=
  exists q y m,
    o = String q (String "Q" (y ++ m)) /\ is_q q = true
    /\ forall_chars is_digit y = true
    /\ 3 <= String.length y <= 4 /\ (m = "" \/ m = "F").

(** [normalize_period] of the long-form reshape.
    Patterns [^([1-4])Q(\d{2,4})F?$] and [^(\d{2,4})F?$]. *)
Definition normalize_period (x : string) : string :=
  let x := remove_spaces (upper (strip x)) in
  match
    match x with
    | String q (String "Q" r) =>
        guard (is_q q) ;;
        '(y, r1) <- digits_between 2 4 r ;;
        guard (opt_F_end r1) ;;
        Some (q, y)
    | _ => None
    end
  with
  | Some (q, y) =>
      let y := if String.length y =? 2 then "20" ++ y else y in
      String q ("Q" ++ y ++ "F")
  | None =>
  match
    '(y, r1) <- digits_between 2 4 x ;;
    guard (opt_F_end r1) ;;
    Some y
  with
  | Some y =>
      let y := if String.length y =? 2 then "20" ++ y else y in
      if contains x "F" then y ++ "F" else y
  | None => x
  end end.

End Period.

(* ================================================================== *)
(** ** Tables *)
(* ================================================================== *)

Module Frame.
Import Py.

(** A cell of a table: missing ([None], [pd.NA]), a number (a float, or
    text that [float()] reads as a number, identified with that number),
    or other text.  A float NaN is a missing value too.  Text that
    [float()] reads as NaN is [Str] like the text that it rejects: it is
    no missing value for [pd.isna], and the merger treats the two
    alike. *)
Inductive cell : Type :=
| NA
| Num (x : float)
| Str (s : string).

(** [pd.isna] / [pd.notna]. *)
Definition isna (c : cell) : bool :=
  match c with
  | NA => true
  | Num x => PrimFloat.is_nan x
  | Str _ => false
  end.
Definition notna (c : cell) : bool := negb (isna c).

(** [float(v)]: [None] is the [ValueError] raised on text. *)
Definition to_float (c : cell) : option float :=
  match c with
  | Num x => Some x
  | NA => Some PrimFloat.nan
  | Str _ => None
  end.

(** [pd.to_numeric(v, errors='coerce')]. *)
Definition to_numeric (c : cell) : float :=
  match c with
  | Num x => x
  | NA | Str _ => PrimFloat.nan
  end.

(** A row of a table (a pandas [Series] indexed by the column labels):
    the cell under each column label. *)
Definition Series : Type := string -> cell.

Definition empty_row : Series := fun _ => NA.

Definition set_cell (row : Series) (col : string) (v : cell) : Series :=
  fun c => if String.eqb c col then v else row c.

(** A table: the column labels, and the rows in order, each with its
    label.  Row labels may repeat; column labels are taken to be distinct
    (the pipeline collapses equal column labels before any row operation). *)
Record DataFrame : Type := mkDF {
  columns : list string;
  rows : list (string * Series)
}.

Definition index (df : DataFrame) : list string := map fst (rows df).

(** [df.empty]: no rows or no columns. *)
Definition empty (df : DataFrame) : bool :=
  match columns df, rows df with
  | [], _ | _, [] => true
  | _, _ => false
  end.

Definition mem (x : string) (l : list string) : bool :=
  existsb (String.eqb x) l.

(** The first row labelled [name] ([df.loc[name]] when the label occurs
    once). *)
Fixpoint find_row (name : string) (rs : list (string * Series)) : option Series :=
  match rs with
  | [] => None
  | (l, r) :: rest => if String.eqb l name then Some r else find_row name rest
  end.

Definition loc (df : DataFrame) (name : string) : Series :=
  match find_row name (rows df) with
  | Some r => r
  | None => empty_row
  end.

(** [df.at[name, col]]. *)
Definition at_ (df : DataFrame) (name col : string) : cell := loc df name col.

(** The rows labelled [name], in order ([df.loc[[name]]]). *)
Definition rows_named (name : string) (rs : list (string * Series))
  : list (string * Series) :=
  filter (fun lr => String.eqb (fst lr) name) rs.

Definition relabel (name : string) (rs : list (string * Series))
  : list (string * Series) :=
  map (fun lr => (name, snd lr)) rs.

(** Labels in order of first occurrence ([Index.unique()]). *)
Fixpoint unique (l : list string) : list string :=
  match l with
  | [] => []
  | x :: r => x :: filter (fun y => negb (String.eqb y x)) (unique r)
  end.

(** [make_index_unique]: the [defaultdict(int)] is a function with
    default 0. *)
Fixpoint make_index_unique_from (count : string -> nat) (l : list string)
  : list string :=
  match l with
  | [] => []
  | name :: r =>
      let n := count name in
      (if n =? 0 then name
       else name ++ " (" ++ str_of_N (N.of_nat n) ++ ")")
      :: make_index_unique_from
           (fun k => if String.eqb k name then S n else count k) r
  end.

Definition make_index_unique (index_list : list string) : list string :=
  make_index_unique_from (fun _ => 0) index_list.

(** [df.index = labels] for a list of as many labels as rows. *)
Definition set_index (labels : list string) (rs : list (string * Series))
  : list (string * Series) :=
  map (fun p => (fst p, snd (snd p))) (combine labels rs).

End Frame.

(* ================================================================== *)
(** ** Duplicate-row merger *)
(* ================================================================== *)

Module Merge.
Import Py Frame.

(** A match of [\s*\([^\)]*\)] at the start of [s]: its length.  The run of
    blanks is taken whole (a shorter one would be followed by a blank, not
    by the bracket), and the body stops at the first closing bracket. *)
Definition paren_at (s : string) : option nat :=
  let (ws, r) := span is_space s in
  match r with
  | String "(" r1 =>
      let (body, r2) := span (fun c => negb (Ascii.eqb c ")")) r1 in
      match r2 with
      | String ")" _ => Some (String.length ws + String.length body + 2)
      | _ => None
      end
  | _ => None
  end.

(** [re.sub(pattern, "", s)] for a pattern that matches no empty string,
    given its matcher at a position: scan from the left, drop each match. *)
Fixpoint sub_from (m : string -> option nat) (s : string) (skip : nat) : string :=
  match s with
  | EmptyString => EmptyString
  | String c r =>
      match skip with
      | S k => sub_from m r k
      | O =>
          match m s with
          | Some n => sub_from m r (n - 1)
          | None => String c (sub_from m r 0)
          end
      end
  end.

(** [get_base_name]. *)
Definition get_base_name (idx : string) : string :=
  strip (sub_from paren_at (strip idx) 0).

Local Open Scope float_scope.

(** Python's [max(a, b)] and [min(a, b)] on two floats. *)
Definition py_max (a b : float) : float := if PrimFloat.ltb a b then b else a.
Definition py_min (a b : float) : float := if PrimFloat.ltb b a then b else a.

(** The parameters of [merge_duplicate_rows]. *)
Record params : Type := mkParams {
  tolerance : float;
  large_diff_target : float;
  tolerance_ratio : float
}.

Definition default_params : params := mkParams 0.05 1000 0.05.

Definition rel_diff (val1 val2 : float) : float :=
  let max_val := py_max (abs val1) (abs val2) in
  let diff := abs (val1 - val2) in
  diff / (if PrimFloat.eqb max_val 0 then 1 else max_val).

Definition ratio (val1 val2 : float) : float :=
  let max_val := py_max (abs val1) (abs val2) in
  let min_val := py_min (abs val1) (abs val2) + 1e-12 in
  max_val / min_val.

(** [rel_diff <= tolerance] *)
Definition within_tolerance (p : params) (val1 val2 : float) : bool :=
  PrimFloat.leb (rel_diff val1 val2) (tolerance p).

(** [lower <= ratio <= upper] *)
Definition unit_scale (p : params) (val1 val2 : float) : bool :=
  let lower := large_diff_target p * (1 - tolerance_ratio p) in
  let upper := large_diff_target p * (1 + tolerance_ratio p) in
  PrimFloat.leb lower (ratio val1 val2) && PrimFloat.leb (ratio val1 val2) upper.

(** The outcome of the loop over the columns: [this_merge_possible] and
    [scale_entire_row]. *)
Record verdict : Type := mkVerdict {
  this_merge_possible : bool;
  scale_entire_row : bool
}.

(** The loop [for col in merged.index] that compares the accumulated row
    with the candidate; [scale] is [scale_entire_row] so far. *)
Fixpoint compare_rows (p : params) (cols : list string)
    (merged current : Series) (scale : bool) : verdict :=
  match cols with
  | [] => mkVerdict true scale
  | col :: rest =>
      let val1 := merged col in
      let val2 := current col in
      if isna val1 || isna val2 then compare_rows p rest merged current scale
      else
        match to_float val1, to_float val2 with
        | Some v1, Some v2 =>
            if within_tolerance p v1 v2
            then compare_rows p rest merged current scale
            else if unit_scale p v1 v2
            then compare_rows p rest merged current true
            else mkVerdict false scale
        | _, _ => mkVerdict false scale
        end
  end.

(** The accumulated row and the candidate are a unit scale apart under
    [col]: both hold a number, the two are further apart than the
    tolerance, and their ratio is about [large_diff_target]. *)
Definition scale_apart (p : params) (merged current : Series) (col : string)
  : Prop :=
  exists v1 v2,
    merged col = Num v1 /\ current col = Num v2
    /\ within_tolerance p v1 v2 = false /\ unit_scale p v1 v2 = true.

(** [row.apply(pd.to_numeric, errors='coerce')]. *)
Definition numeric (row : Series) : Series := fun c => Num (to_numeric (row c)).

(** The sum of an array of floats as numpy's [add.reduce] forms it
    (pairwise summation, block size 128).  Fewer than eight numbers are
    added from left to right.  Up to 128 numbers go to eight running sums
    [r0 .. r7], the number at position [i] to the sum [i mod 8], as long
    as whole groups of eight are ahead; the running sums are then added
    as [((r0 + r1) + (r2 + r3)) + ((r4 + r5) + (r6 + r7))], and the
    numbers that are left, fewer than eight, are added to that one by
    one.  A longer array is cut in two, the first part being the largest
    multiple of eight that is at most half the length, and the sums of
    the two parts are added. *)

(** [r[j] += a[i + j]] for the running sums [r]. *)
Fixpoint add_lanes (r a : list float) : list float :=
  match r, a with
  | x :: r', y :: a' => (x + y) :: add_lanes r' a'
  | _, _ => r
  end.

(** The loop [for (i = 8; i < n - (n % 8); i += 8)], with [k] groups of
    eight still to add: the running sums, and the numbers left over. *)
Fixpoint add_groups (k : nat) (r a : list float) : list float * list float :=
  match k with
  | O => (r, a)
  | S k' => add_groups k' (add_lanes r (firstn 8 a)) (skipn 8 a)
  end.

Definition sum_lanes (r : list float) : float :=
  match r with
  | [r0; r1; r2; r3; r4; r5; r6; r7] =>
      ((r0 + r1) + (r2 + r3)) + ((r4 + r5) + (r6 + r7))
  | _ => fold_left PrimFloat.add r (-0)
  end.

(** The sum of a block of 8 to 128 numbers. *)
Definition block_sum (a : list float) : float :=
  let (r, rest) :=
    add_groups (Nat.sub (Nat.div (length a) 8) 1) (firstn 8 a) (skipn 8 a) in
  fold_left PrimFloat.add rest (sum_lanes r).

(** [depth] bounds the number of cuts; the length of the array is enough
    (lemma [pairwise_sum_depth]). *)
Fixpoint pairwise_sum (depth : nat) (a : list float) : float :=
  let n := length a in
  if Nat.ltb n 8 then fold_left PrimFloat.add a (-0)
  else if Nat.leb n 128 then block_sum a
  else
    match depth with
    | O => block_sum a
    | S d =>
        let n2 := Nat.sub (Nat.div n 2) (Nat.modulo (Nat.div n 2) 8) in
        pairwise_sum d (firstn n2 a) + pairwise_sum d (skipn n2 a)
    end.

(** [row.sum(skipna=True)] of a numeric row: pandas puts 0 in the place
    of the missing cells and has numpy add the cells to the initial value
    0.  (Whether a sum that is zero is [0] or [-0] is of no consequence
    for the comparison of two sums.) *)
Definition row_sum (cols : list string) (row : Series) : float :=
  let values :=
    map (fun c =>
           let v := to_numeric (row c) in
           if PrimFloat.is_nan v then 0 else v)
        cols in
  0 + pairwise_sum (length values) values.

(** [row * large_diff_target] of a numeric row. *)
Definition scale_row (p : params) (row : Series) : Series :=
  fun c => Num (to_numeric (row c) * large_diff_target p).

(** The loop that fills the missing cells of [base_row] from [scaled]. *)
Definition fill_from_scaled (base_row scaled : Series) : Series :=
  fun c =>
    if isna (base_row c) && negb (isna (scaled c)) then scaled c
    else base_row c.

(** The branch [if scale_entire_row].  [pd.to_numeric] with
    [errors='coerce'] and the float operations raise nothing, so the
    [except] branch of the source is never entered. *)
Definition merge_scaled (p : params) (cols : list string)
    (merged current : Series) : Series :=
  let merged_numeric := numeric merged in
  let current_numeric := numeric current in
  let total1 := row_sum cols merged_numeric in
  let total2 := row_sum cols current_numeric in
  if PrimFloat.ltb total1 total2
  then fill_from_scaled current_numeric (scale_row p merged_numeric)
  else fill_from_scaled merged_numeric (scale_row p current_numeric).

(** The branch without scaling: a missing cell of [merged] takes
    [float(current[col])]; text is left out ([except: pass]). *)
Definition merge_plain (merged current : Series) : Series :=
  fun c =>
    if isna (merged c) && notna (current c) then
      match current c with
      | Num x => Num x
      | _ => merged c
      end
    else merged c.

(** One turn of [for i in range(1, len(group))]: the new accumulated row,
    and the candidate when it is quarantined. *)
Definition merge_candidate (p : params) (cols : list string)
    (merged : Series) (current : string * Series)
  : Series * option (string * Series) :=
  let v := compare_rows p cols merged (snd current) false in
  if negb (this_merge_possible v) then (merged, Some current)
  else if scale_entire_row v
  then (merge_scaled p cols merged (snd current), None)
  else (merge_plain merged (snd current), None).

Fixpoint merge_group (p : params) (cols : list string) (merged : Series)
    (cands : list (string * Series))
  : Series * list (string * Series) :=
  match cands with
  | [] => (merged, [])
  | current :: rest =>
      let (merged', q) := merge_candidate p cols merged current in
      let (final, unmerged) := merge_group p cols merged' rest in
      (final, match q with Some r => r :: unmerged | None => unmerged end)
  end.

(** The keys of [groupby], sorted as Python sorts strings. *)
Fixpoint insert_sorted (k : string) (l : list string) : list string :=
  match l with
  | [] => [k]
  | x :: r => if String.leb k x then k :: l else x :: insert_sorted k r
  end.

Definition sorted_keys (l : list string) : list string :=
  fold_right insert_sorted [] (unique l).

(** The loop [for base_idx, group in grouped]: the merged row of each
    group, and the quarantined rows of all groups in order. *)
Fixpoint merge_groups (p : params) (cols : list string)
    (rs : list (string * Series)) (keys : list string)
  : list (string * Series) * list (string * Series) :=
  match keys with
  | [] => ([], [])
  | base_idx :: rest =>
      let group :=
        filter (fun lr => String.eqb (get_base_name (fst lr)) base_idx) rs in
      let (merged_rows, unmerged_rows) := merge_groups p cols rs rest in
      match group with
      | [] => (merged_rows, unmerged_rows)
      | first :: cands =>
          let (merged, unmerged) := merge_group p cols (snd first) cands in
          ((base_idx, merged) :: merged_rows, (unmerged ++ unmerged_rows)%list)
      end
  end.

(** [merge_duplicate_rows].  A table without rows yields
    [pd.DataFrame([])], which has no columns. *)
Definition merge_duplicate_rows (p : params) (df : DataFrame) : DataFrame :=
  let keys := sorted_keys (map get_base_name (index df)) in
  let (merged_rows, unmerged_rows) := merge_groups p (columns df) (rows df) keys in
  let unmerged :=
    set_index (make_index_unique (map fst unmerged_rows)) unmerged_rows in
  mkDF (match rows df with [] => [] | _ => columns df end)
       (merged_rows ++ unmerged)%list.

End Merge.

(* ================================================================== *)
(** ** Column and row filters, ACTUAL columns *)
(* ================================================================== *)

Module Clean.
Import Py Period Frame.

(** The non-ASCII tokens are the UTF-8 bytes of the source's literals. *)
Definition EXCLUDE_COL_TOKENS : list string :=
  ["DELTA"; "Δ"; "CONSENSUS"; "CONS."; "VS CONSENSUS"; "%";
   "REVISED"; "PREVIOUS"; "CHG."; "CHG"; "CHANGE"; "2025E.1"; "YR"; "YR.1"; "YR.2";
   "_CHG"].

Definition excluded_col (c : string) : bool :=
  let s := upper (strip c) in
  endswith s "_CHG" || existsb (fun tok => contains s tok) EXCLUDE_COL_TOKENS.

(** [bfill(axis=1).iloc[:, 0]] over the cells of one row under equally
    named columns: the first valid cell, else the first cell. *)
Fixpoint first_valid (cells : list cell) : option cell :=
  match cells with
  | [] => None
  | c :: r => if notna c then Some c else first_valid r
  end.

Definition bfill_first (cells : list cell) : cell :=
  match first_valid cells with
  | Some c => c
  | None => hd NA cells
  end.

(** The row after [df.columns = cols] and [collapse_duplicate_columns]:
    [old] are the kept columns, [norm] the new label of each. *)
Definition rename_row (norm : string -> string) (old : list string)
    (row : Series) : Series :=
  fun c =>
    match filter (fun k => String.eqb (norm k) c) old with
    | [] => NA
    | [k] => row k
    | same => bfill_first (map row same)
    end.

(** [normalize_df_columns]. *)
Definition normalize_df_columns (df : DataFrame) : DataFrame :=
  if empty df then df else
  let kept := filter (fun c => negb (excluded_col c)) (columns df) in
  let df1 := mkDF kept (rows df) in
  if empty df1 then df1 else
  mkDF (unique (map normalize_period_label_str kept))
       (map (fun lr => (fst lr, rename_row normalize_period_label_str kept (snd lr)))
            (rows df)).

(** [df[col] = pd.NA] for a new column. *)
Definition add_column (col : string) (df : DataFrame) : DataFrame :=
  mkDF (columns df ++ [col])%list
       (map (fun lr => (fst lr, set_cell (snd lr) col NA)) (rows df)).

(** [df.drop(columns=[col])]. *)
Definition drop_column (col : string) (df : DataFrame) : DataFrame :=
  mkDF (filter (fun c => negb (String.eqb c col)) (columns df))
       (map (fun lr => (fst lr, set_cell (snd lr) col NA)) (rows df)).

(** One turn of the second loop of [handle_actual_columns]. *)
Definition move_actual (df : DataFrame) (ot : string * string) : DataFrame :=
  let (original_col, target_col) := ot in
  let df := if mem target_col (columns df) then df else add_column target_col df in
  let df :=
    mkDF (columns df)
         (map (fun lr =>
                 let row := snd lr in
                 (fst lr,
                  if isna (row target_col) && notna (row original_col)
                  then set_cell row target_col (row original_col)
                  else row))
              (rows df)) in
  drop_column original_col df.

(** [handle_actual_columns].  The source addresses the cells by row label
    ([df.at[idx, col]]); the embedding goes row by row, which is the same
    when the row labels are distinct.  On a repeated row label [df.at]
    gives a Series and the test at line 532 raises [ValueError]: the
    embedding is that of the source for tables with distinct row labels,
    and the statements about it assume them. *)
Definition handle_actual_columns (df : DataFrame) : DataFrame :=
  if empty df then df else
  let cols_to_process :=
    flat_map
      (fun col =>
         let col_str := upper col in
         if contains col_str "ACTUAL" then
           let normalized_col :=
             normalize_period_label_str (remove_all col_str "ACTUAL") in
           if is_empty normalized_col then [] else [(col, normalized_col)]
         else [])
      (columns df) in
  fold_left move_actual cols_to_process df.

(** [[\s_\-\/]] *)
Definition is_sep (c : ascii) : bool :=
  is_space c || Ascii.eqb c "_" || Ascii.eqb c "-" || Ascii.eqb c "/".

(** [^revenue[\s_\-\/]+(net|fy(?:rm)?|dec)$] *)
Definition unwanted_revenue (idx : string) : bool :=
  startswith idx "revenue" &&
  let (sep, r) := span is_sep (drop 7 idx) in
  negb (is_empty sep) &&
  ((startswith r "net" && at_end (drop 3 r))
   || (startswith r "fyrm" && at_end (drop 4 r))
   || (startswith r "fy" && at_end (drop 2 r))
   || (startswith r "dec" && at_end (drop 3 r))).

(** [drop_unwanted_revenue_rows]. *)
Definition drop_unwanted_revenue_rows (df : DataFrame) : DataFrame :=
  if empty df then df else
  mkDF (columns df)
       (filter (fun lr => negb (unwanted_revenue (lower (strip (fst lr)))))
               (rows df)).

(** [(old|âˆ†|delta|Δ)] at the start of [s]. *)
Definition old_or_delta (s : string) : bool :=
  existsb (fun a => startswith s a) ["old"; "âˆ†"; "delta"; "Δ"].

(** [words] separated by [\s*], then [\s*(old|âˆ†|delta|Δ)], at the start
    of [s] (the patterns of [EXCLUDE_ROW_PATTERNS], matched by
    [str.match]). *)
Fixpoint words_then_delta (words : list string) (s : string) : bool :=
  match words with
  | [] => old_or_delta (lstrip s)
  | w :: rest =>
      let s := lstrip s in
      startswith s w && words_then_delta rest (drop (String.length w) s)
  end.

Definition EXCLUDE_ROW_PATTERNS : list (list string) :=
  [["fcf"]; ["gp"]; ["gross"; "profit"]; ["free"; "cash"; "flow"]].

(** The first word of a pattern is matched where the label starts. *)
Definition excluded_row (idx_lower : string) : bool :=
  existsb
    (fun words =>
       match words with
       | [] => false
       | w :: rest =>
           startswith idx_lower w
           && words_then_delta rest (drop (String.length w) idx_lower)
       end)
    EXCLUDE_ROW_PATTERNS.

(** [remove_unwanted_rows]. *)
Definition remove_unwanted_rows (df : DataFrame) : DataFrame :=
  if empty df then df else
  mkDF (columns df)
       (filter (fun lr => negb (excluded_row (lower (strip (fst lr)))))
               (rows df)).

End Clean.

(* ================================================================== *)
(** ** Suffix-row folder *)
(* ================================================================== *)

Module Fold.
Import Py Period Frame Clean.

Definition index_rename_map : list (string * string) :=
  [("revenue", "Revenue"); ("net revenue", "Revenue"); ("total revenue", "Revenue");
   ("cost of revenue", "COGS"); ("cogs", "COGS"); ("cost of sales", "COGS");
   ("gross profit", "GP"); ("gp", "GP"); ("gross margin", "GM"); ("gm", "GM");
   ("op", "OP"); ("operating income", "OP"); ("operating profit", "OP");
   ("op margin", "OP margin"); ("operating margin", "OP margin");
   ("ebitda", "EBITDA"); ("ebitda margin", "EBITDA margin");
   ("net profit", "NP"); ("np", "NP"); ("net income", "NP");
   ("net profit margin", "NP Margin"); ("net margin", "NP Margin");
   ("revenue growth", "revenue growth");
   ("eps", "EPS"); ("earnings per share", "EPS"); ("non-gaap eps", "EPS");
   ("roe", "ROE"); ("return on equity", "ROE");
   ("operating leverage", "operating leverage");
   ("free cash flow", "FCF"); ("fcf", "FCF");
   ("research and development", "R&D"); ("r&d", "R&D");
   ("capex", "CapEx"); ("capital expenditure", "CapEx"); ("capital expenditures", "CapEx");
   ("property and equipment", "PP&E"); ("pp&e", "PP&E")].

(** [d.get(k)] *)
Fixpoint dict_get (d : list (string * string)) (k : string) : option string :=
  match d with
  | [] => None
  | (k', v) :: r => if String.eqb k' k then Some v else dict_get r k
  end.

(** [_canon_metric_name] *)
Definition _canon_metric_name (raw_base : string) : string :=
  let k := lower (strip raw_base) in
  match dict_get index_rename_map k with
  | Some v => v
  | None => strip raw_base
  end.

(** [_is_year_col]: [^(\d{4})(F?)$] *)
Definition _is_year_col (col : string) : option (string * bool) :=
  '(yyyy, r) <- exactly 4 is_digit col ;;
  f <- opt_char_end (fun c => Ascii.eqb c "F") r ;;
  Some (yyyy, String.eqb f "F").

(** The suffix of a row label after [suf.upper().replace(" ", "")] and the
    reduction of [FY...] to [FY]. *)
Inductive suffix : Type := MAR | JUN | SEP | DEC | FY.

(** [_SUFFIX_TO_Q] *)
Definition _SUFFIX_TO_Q (suf : suffix) : string :=
  match suf with
  | MAR => "1Q" | JUN => "2Q" | SEP => "3Q" | DEC => "4Q" | FY => ""
  end.

(** [(MAR|JUN|SEP|DEC|FY(?:\s*RM)?)$], letters in either case. *)
Definition suffix_end (u : string) : option suffix :=
  let U := upper u in
  if startswith U "MAR" && at_end (drop 3 U) then Some MAR
  else if startswith U "JUN" && at_end (drop 3 U) then Some JUN
  else if startswith U "SEP" && at_end (drop 3 U) then Some SEP
  else if startswith U "DEC" && at_end (drop 3 U) then Some DEC
  else if startswith U "FY" then
    let r := drop 2 U in
    let r2 := snd (span is_space r) in
    if (startswith r2 "RM" && at_end (drop 2 r2)) || at_end r then Some FY
    else None
  else None.

(** [[\s_\-\/]+(MAR|...)$]: the suffix starts with a letter, so the run of
    separators is taken whole. *)
Definition sep_suffix (u : string) : option suffix :=
  let (sep, r) := span is_sep u in
  guard (negb (is_empty sep)) ;;
  suffix_end r.

(** The body and the closing bracket of [\(.*?\)], then the separators and
    the suffix: the lazy body stops at the first closing bracket after
    which the rest matches, and holds no newline. *)
Fixpoint close_then_suffix (s : string) : option suffix :=
  match s with
  | EmptyString => None
  | String c r =>
      if Ascii.eqb c ")" then
        match sep_suffix r with
        | Some k => Some k
        | None => close_then_suffix r
        end
      else if Ascii.eqb c "010" then None
      else close_then_suffix r
  end.

(** [(?:\s*\(.*?\))?[\s_\-\/]+(MAR|...)$]: with the bracket first. *)
Definition tail_suffix (t : string) : option suffix :=
  match
    match snd (span is_space t) with
    | String "(" r1 => close_then_suffix r1
    | _ => None
    end
  with
  | Some k => Some k
  | None => sep_suffix t
  end.

(** [^(.*?)(?:\s*\(.*?\))?[\s_\-\/]+(MAR|JUN|SEP|DEC|FY(?:\s*RM)?)$] with
    [re.IGNORECASE]: the lazy first group is the shortest prefix, free of
    newlines, after which the rest matches.  Groups (base_raw, suf). *)
Fixpoint match_suffix_label (s : string) : option (string * suffix) :=
  match tail_suffix s with
  | Some k => Some (EmptyString, k)
  | None =>
      match s with
      | EmptyString => None
      | String c r =>
          if Ascii.eqb c "010" then None
          else
            match match_suffix_label r with
            | Some (b, k) => Some (String c b, k)
            | None => None
            end
      end
  end.

(** The first loop of [fold_month_suffix_rows]: (original name, base, suffix). *)
Definition work_rows (df : DataFrame) : list (string * string * suffix) :=
  flat_map
    (fun i =>
       match match_suffix_label (strip i) with
       | Some (base_raw, suf) => [(i, base_raw, suf)]
       | None => []
       end)
    (index df).

Definition target_col (suf : suffix) (yyyy : string) (isF : bool) : string :=
  match suf with
  | FY => if isF then yyyy ++ "F" else yyyy
  | _ =>
      let q := _SUFFIX_TO_Q suf in
      if isF then q ++ yyyy ++ "F" else q ++ yyyy
  end.

(** [df.loc[name, :] = pd.NA] for a new row label. *)
Definition add_row (name : string) (df : DataFrame) : DataFrame :=
  mkDF (columns df) (rows df ++ [(name, empty_row)])%list.

(** [df.at[name, col] = v] on the first row labelled [name]. *)
Fixpoint set_first (name col : string) (v : cell) (rs : list (string * Series))
  : list (string * Series) :=
  match rs with
  | [] => []
  | (l, r) :: rest =>
      if String.eqb l name then (l, set_cell r col v) :: rest
      else (l, r) :: set_first name col v rest
  end.

Definition set_at (df : DataFrame) (name col : string) (v : cell) : DataFrame :=
  mkDF (columns df) (set_first name col v (rows df)).

(** [df.drop(index=name, errors="ignore")] *)
Definition drop_rows (name : string) (df : DataFrame) : DataFrame :=
  mkDF (columns df)
       (filter (fun lr => negb (String.eqb (fst lr) name)) (rows df)).

(** One turn of [for col in df.columns] for the suffixed row [row]. *)
Definition fold_cell (base_std : string) (suf : suffix) (row : Series)
    (df : DataFrame) (col : string) : DataFrame :=
  match _is_year_col col with
  | None => df
  | Some (yyyy, isF) =>
      let target := target_col suf yyyy isF in
      let val := row col in
      if isna val then df else
      let df := if mem base_std (index df) then df else add_row base_std df in
      let df := if mem target (columns df) then df else add_column target df in
      if isna (at_ df base_std target) then set_at df base_std target val
      else df
  end.

(** One turn of [for original_name, base_raw, suf in work_rows]; the
    columns visited are those the table has when the turn starts. *)
Definition fold_row (df : DataFrame) (w : string * string * suffix) : DataFrame :=
  let '(original_name, base_raw, suf) := w in
  let base_std := _canon_metric_name base_raw in
  let row := loc df original_name in
  let df := fold_left (fold_cell base_std suf row) (columns df) df in
  drop_rows original_name df.

(** [fold_month_suffix_rows].  Rows are addressed by label, so the
    embedding is that of the source for tables with distinct row labels;
    on a repeated label of a suffixed row the source raises [ValueError]
    (lines 464-479), and the statements about the folder assume distinct
    row labels. *)
Definition fold_month_suffix_rows (df : DataFrame) : DataFrame :=
  if empty df then df else
  fold_left fold_row (work_rows df) df.

(** The parts of an entry of [work_rows]. *)
Definition name_of (w : string * string * suffix) : string := fst (fst w).
Definition suffix_of (w : string * string * suffix) : suffix := snd w.
(** [base_std] of the entry. *)
Definition base_of (w : string * string * suffix) : string :=
  _canon_metric_name (snd (fst w)).

(** Under column [col] the row [row] holds a value that a fold with
    suffix [suf] moves to column [c]. *)
Definition moves_to (suf : suffix) (row : Series) (col c : string) : Prop :=
  exists yyyy isF,
    _is_year_col col = Some (yyyy, isF)
    /\ c = target_col suf yyyy isF
    /\ isna (row col) = false.

(** How the table [d'] may differ from [d] while the values of the row
    [row] under the columns [cols] are folded into the row labelled [b]:
    rows other than [b] and cells that hold a value are as they were, at
    most the row [b] and target columns are new, and a value that is new
    was moved from [row]. *)
Record folds_into (b : string) (suf : suffix) (row : Series) (cols : list string)
    (d d' : DataFrame) : Prop := mkFolds {
  fi_index : incl (index d) (index d');
  fi_index_new : forall r, In r (index d') -> In r (index d) \/ r = b;
  fi_nodup : NoDup (index d) -> NoDup (index d');
  fi_columns : incl (columns d) (columns d');
  fi_keep : forall r c,
      In c (columns d) -> isna (at_ d r c) = false -> at_ d' r c = at_ d r c;
  fi_other : forall r c,
      r <> b -> In c (columns d) -> at_ d' r c = at_ d r c;
  fi_origin : forall r c,
      In c (columns d') -> isna (at_ d' r c) = false ->
      (In c (columns d) /\ at_ d' r c = at_ d r c)
      \/ (r = b /\ exists col, In col cols /\ moves_to suf row col c
                               /\ at_ d' r c = row col)
}.

(** The state of [fold_month_suffix_rows] on [df] between two turns of
    its second loop: [done] are the entries already folded, [todo] those
    still to fold, [d] the table. *)
Record fold_inv (df : DataFrame) (done todo : list (string * string * suffix))
    (d : DataFrame) : Prop := mkInv {
  inv_nodup : NoDup (index d);
  inv_columns : incl (columns df) (columns d);
  inv_todo : forall w, In w todo ->
      In (name_of w) (index d)
      /\ forall c, In c (columns df) -> at_ d (name_of w) c = at_ df (name_of w) c;
  inv_done : forall w, In w done -> ~ In (name_of w) (index d);
  inv_rows : forall r, In r (index df) ->
      (forall w, In w (done ++ todo)%list -> name_of w <> r) -> In r (index d);
  inv_keep : forall r c,
      (forall w, In w (done ++ todo)%list -> name_of w <> r) ->
      In c (columns df) -> isna (at_ df r c) = false ->
      at_ d r c = at_ df r c;
  inv_moved : forall w col yyyy isF, In w done ->
      In col (columns df) -> _is_year_col col = Some (yyyy, isF) ->
      isna (at_ df (name_of w) col) = false ->
      In (base_of w) (index d)
      /\ In (target_col (suffix_of w) yyyy isF) (columns d)
      /\ isna (at_ d (base_of w) (target_col (suffix_of w) yyyy isF)) = false;
  inv_origin : forall r c,
      In c (columns d) -> isna (at_ d r c) = false ->
      (In c (columns df) /\ at_ d r c = at_ df r c)
      \/ (exists w col, In w done /\ In col (columns df) /\ base_of w = r
                        /\ moves_to (suffix_of w) (loc df (name_of w)) col c
                        /\ at_ d r c = at_ df (name_of w) col)
}.

End Fold.

(* ================================================================== *)
(** ** Metric-name classifiers *)
(* ================================================================== *)

Module Classify.
Import Py Frame Clean Fold.

(** [.*?\)$] without newline in the body, to the very end of the label. *)
Fixpoint body_close_end (s : string) : bool :=
  match s with
  | EmptyString => false
  | String c r =>
      if is_empty r then Ascii.eqb c ")"
      else negb (Ascii.eqb c "010") && body_close_end r
  end.

(** [(\s*\(.*?\))?$] on a label that does not end with a newline (it was
    stripped), so that [$] is the end and [m.group(0)] is the label. *)
Definition tail_rename (t : string) : bool :=
  match snd (span is_space t) with
  | String "(" r1 => body_close_end r1
  | _ => false
  end
  || is_empty t.

(** [^([a-z\s]+?)(\s*\(.*?\))?$], groups (base, suffix): the lazy base is
    the shortest non-empty prefix after which the rest matches. *)
Fixpoint match_rename (s : string) : option (string * string) :=
  match s with
  | EmptyString => None
  | String c r =>
      guard (is_lower c || is_space c) ;;
      if tail_rename r then Some (String c EmptyString, r)
      else
        '(b, suf) <- match_rename r ;;
        Some (String c b, suf)
  end.

(** [match_and_rename_index] *)
Definition match_and_rename_index (idx : string) : option string :=
  let idx := lower (strip idx) in
  '(base, suffix) <- match_rename idx ;;
  renamed <- dict_get index_rename_map (strip base) ;;
  Some (renamed ++ suffix).

Definition group_keywords : list (string * list string) :=
  [("CapEx",
    ["capital expenditures"; "capital expenditure"; "capex"; "purchase of property";
     "purchases of property"; "purchase of pp&e"; "additions to property";
     "acquisition of property"; "investment in property"]);
   ("Acquisition & Equity Investment",
    ["acquisition"; "business combinations"; "purchase of subsidiaries";
     "investment in associates"; "investment in affiliates"; "equity investment";
     "purchase of business"]);
   ("Intangible asset",
    ["intangible assets"; "purchase of intangible"; "software development";
     "internal-use software"; "capitalized development costs";
     "goodwill and intangibles"]);
   ("others",
    ["investing activities"; "purchase of securities"; "marketable securities";
     "financial investment"; "long-term investment"])].

(** [group_name_match] *)
Definition group_name_match (name : string) : option string :=
  let name := lower name in
  match find (fun gk => existsb (fun k => String.eqb k name) (snd gk)) group_keywords with
  | Some gk => Some (fst gk)
  | None => None
  end.

Definition SKIP_SEGMENT_WORDS : list string :=
  ["growth"; "margin"; "qoq"; "yoy"; "mix"; "asp"; "price"; "chg"; "change"].

(** [(.+)$]: the group. *)
Fixpoint dot_plus_end (u : string) : option string :=
  match u with
  | EmptyString => None
  | String c r =>
      guard (negb (Ascii.eqb c "010")) ;;
      if at_end r then Some (String c EmptyString)
      else
        g <- dot_plus_end r ;;
        Some (String c g)
  end.

(** [[\s\-_\/]+(.+)$]: the greedy run of separators gives characters back
    only when nothing is left for the group. *)
Fixpoint seps_then_rest (u : string) : option string :=
  match u with
  | EmptyString => None
  | String c r =>
      guard (is_sep c) ;;
      match seps_then_rest r with
      | Some g => Some g
      | None => dot_plus_end r
      end
  end.

(** [^revenue[\s\-_\/]+(.+)$] *)
Definition match_revenue_first (low : string) : option string :=
  guard (startswith low "revenue") ;;
  seps_then_rest (drop 7 low).

(** [[\s\-_\/]+revenue$] *)
Definition seps_revenue_end (u : string) : bool :=
  let (sep, r) := span is_sep u in
  negb (is_empty sep) && startswith r "revenue" && at_end (drop 7 r).

(** [^(.+)[\s\-_\/]+revenue$]: the greedy group is the longest prefix,
    free of newlines, after which the rest matches. *)
Fixpoint match_revenue_last (low : string) : option string :=
  match low with
  | EmptyString => None
  | String c r =>
      guard (negb (Ascii.eqb c "010")) ;;
      match match_revenue_last r with
      | Some g => Some (String c g)
      | None => if seps_revenue_end r then Some (String c EmptyString) else None
      end
  end.

(** A match of [\(.*?\)] at the start of [s]: its length. *)
Definition paren_lazy_at (s : string) : option nat :=
  match s with
  | String "(" r1 =>
      let (body, r2) :=
        span (fun c => negb (Ascii.eqb c ")") && negb (Ascii.eqb c "010")) r1 in
      match r2 with
      | String ")" _ => Some (String.length body + 2)
      | _ => None
      end
  | _ => None
  end.

(** [^(net|fy(?:\s*rm)?|dec)$] *)
Definition unwanted_segment (seg : string) : bool :=
  (startswith seg "net" && at_end (drop 3 seg))
  || (startswith seg "dec" && at_end (drop 3 seg))
  || (startswith seg "fy" &&
      (let r := drop 2 seg in
       let r2 := snd (span is_space r) in
       (startswith r2 "rm" && at_end (drop 2 r2)) || at_end r)).

(** [re.sub(r"[_\-\/]+", " ", seg)] *)
Fixpoint runs_to_space (s : string) (in_run : bool) : string :=
  match s with
  | EmptyString => EmptyString
  | String c r =>
      if Ascii.eqb c "_" || Ascii.eqb c "-" || Ascii.eqb c "/" then
        if in_run then runs_to_space r true
        else String " " (runs_to_space r true)
      else String c (runs_to_space r false)
  end.

(** [str.title()]: a letter is upper-cased after a character without case
    and lower-cased after a letter. *)
Fixpoint title_from (prev_cased : bool) (s : string) : string :=
  match s with
  | EmptyString => EmptyString
  | String c r =>
      String (if is_alpha c then (if prev_cased then to_lower c else to_upper c) else c)
             (title_from (is_alpha c) r)
  end.

Definition title (s : string) : string := title_from false s.

(** The segment of a row label for the generic detection: the text after
    which the source tests the skip words ([None]: the label is passed
    over before that test). *)
Definition segment_token (idx : string) : option string :=
  let low := lower (strip idx) in
  guard (contains low "revenue") ;;
  seg <- match match_revenue_first low with
         | Some g => Some g
         | None => match_revenue_last low
         end ;;
  Some (strip (Merge.sub_from paren_lazy_at seg 0)).

Definition has_skip_word (seg : string) : bool :=
  existsb (fun w => contains seg w) SKIP_SEGMENT_WORDS.

(** The new label that [extract_revenue_segments_generic] gives to the
    rows labelled [idx], if any. *)
Definition generic_segment_name (idx : string) : option string :=
  seg <- segment_token idx ;;
  guard (negb (is_empty seg || has_skip_word seg)) ;;
  guard (negb (unwanted_segment seg)) ;;
  Some ("revenue-" ++ title (runs_to_space seg false)).

(** [extract_revenue_segments_generic] *)
Definition extract_revenue_segments_generic (df : DataFrame) : DataFrame :=
  let outs :=
    flat_map
      (fun idx =>
         match generic_segment_name idx with
         | Some name => relabel name (rows_named idx (rows df))
         | None => []
         end)
      (unique (index df)) in
  match outs with
  | [] => mkDF [] []
  | _ => mkDF (columns df) outs
  end.

Definition company_segments : list (string * list string) :=
  [("Nvidia", ["Data Center"; "Gaming"; "Pro Visualization"; "Automotive"; "OEM & Other"]);
   ("NVIDIA", ["Data Center"; "Gaming"; "Pro Visualization"; "Automotive"; "OEM & Other"]);
   ("google", ["Google Services"; "Google Cloud"; "Other Bets"]);
   ("Amazon", ["North America"; "International"; "AWS"; "Advertising"]);
   ("Meta", ["Family of Apps"; "Reality Labs"]);
   ("Microsoft", ["Productivity"; "Intelligent Cloud"; "Personal Computing"]);
   ("SK Hynix", ["DRAM"; "NAND"]);
   ("Samsung Electronics", ["DX"; "DS"; "Display"; "Harman"]);
   ("AMD", ["Data Center"; "Client"; "Gaming"; "Embedded"]);
   ("Advanced Micro Devices", ["Data Center"; "Client"; "Gaming"; "Embedded"])].

Fixpoint segments_of (company_name : string) (d : list (string * list string))
  : option (list string) :=
  match d with
  | [] => None
  | (k, v) :: r => if String.eqb k company_name then Some v else segments_of company_name r
  end.

End Classify.


(* ================================================================== *)
(** ** Template merge *)
(* ================================================================== *)

Module Template.
Import Py Frame Fold.
Local Open Scope float_scope.

(** A row given by its cells; the other cells are missing. *)
Definition row_of (cells : list (string * cell)) : Series :=
  fun c =>
    match find (fun kv => String.eqb (fst kv) c) cells with
    | Some kv => snd kv
    | None => NA
    end.

(** [amd_template_data]; the keys 2023 and 2024 are the integers of the
    source, written as the column labels they are stored under. *)
Definition amd_template_data : list (string * list (string * float)) :=
  [("Revenue",
    [("2023", 22680); ("2024", 25785); ("2025F", 32659); ("2026F", 38178);
     ("1Q24", 5473); ("2Q24", 5835); ("3Q24", 6819); ("4Q24", 7658);
     ("1Q25", 7438); ("2Q25", 7685); ("3Q25F", 8738); ("4Q25F", 8798)]);
   ("COGS",
    [("2023", 11244); ("2024", 12026); ("2025F", 15784); ("2026F", 16879);
     ("1Q24", 2612); ("2Q24", 2734); ("3Q24", 3162); ("4Q24", 3518);
     ("1Q25", 3446); ("2Q25", 4359); ("3Q25F", 4019); ("4Q25F", 3959)]);
   ("GP",
    [("2023", 11436); ("2024", 13759); ("2025F", 16876); ("2026F", 21299);
     ("1Q24", 2861); ("2Q24", 3101); ("3Q24", 3657); ("4Q24", 4140);
     ("1Q25", 3992); ("2Q25", 3326); ("3Q25F", 4719); ("4Q25F", 4839)]);
   ("OP",
    [("2023", 4834); ("2024", 6138); ("2025F", 7019); ("2026F", 9994);
     ("1Q24", 1133); ("2Q24", 1264); ("3Q24", 1715); ("4Q24", 2026);
     ("1Q25", 1779); ("2Q25", 897); ("3Q25F", 2169); ("4Q25F", 2174)]);
   ("NP",
    [("2023", 4292); ("2024", 5420); ("2025F", 6142); ("2026F", 8747);
     ("1Q24", 1013); ("2Q24", 1126); ("3Q24", 1504); ("4Q24", 1777);
     ("1Q25", 1566); ("2Q25", 781); ("3Q25F", 1895); ("4Q25F", 1900)]);
   ("EPS",
    [("2023", 2.64); ("2024", 3.31); ("2025F", 3.77); ("2026F", 5.34);
     ("1Q24", 0.62); ("2Q24", 0.69); ("3Q24", 0.92); ("4Q24", 1.09);
     ("1Q25", 0.96); ("2Q25", 0.48); ("3Q25F", 1.16); ("4Q25F", 1.16)])].

Definition template_columns : list string :=
  ["Company"; "2023"; "2024"; "2025F"; "2026F"; "2027F";
   "1Q24"; "2Q24"; "3Q24"; "4Q24"; "1Q25"; "2Q25"; "3Q25F"; "4Q25F"].

Definition annual_columns : list string := ["2023"; "2024"; "2025F"; "2026F"].
Definition quarter_columns : list string :=
  ["1Q24"; "2Q24"; "3Q24"; "4Q24"; "1Q25"; "2Q25"; "3Q25F"; "4Q25F"].

(** [data.get(k, '')] *)
Definition data_get (data : list (string * float)) (k : string) : cell :=
  match find (fun kv => String.eqb (fst kv) k) data with
  | Some kv => Num (snd kv)
  | None => Str ""
  end.

(** The row of one metric: the company, the annual cells, an empty
    [2027F], the quarterly cells. *)
Definition metric_row (data : list (string * float)) : Series :=
  row_of
    (("Company", Str "AMD")
     :: map (fun k => (k, data_get data k)) annual_columns
     ++ ("2027F", Str "")
     :: map (fun k => (k, data_get data k)) quarter_columns)%list.

(** [round(v, 1)] for [0 <= v < 2^50]: the nearest integer to [10 v]
    (ties to even, by adding and subtracting [2^52]) over ten.  This is
    Python's result whenever [10 v] is not within rounding error of a half
    integer, as for every margin of the template. *)
Definition round1 (v : float) : float :=
  ((v * 10 + 4503599627370496) - 4503599627370496) / 10.

(** One cell of the [OP margin] row. *)
Definition op_margin_cell (op rev : cell) : cell :=
  match op, rev with
  | Num op_val, Num rev_val =>
      if PrimFloat.eqb rev_val 0 then Str ""
      else Num (round1 (op_val / rev_val * 100))
  | _, _ => Str ""
  end.

(** [create_amd_template_df] *)
Definition create_amd_template_df : DataFrame :=
  let base := map (fun md => (fst md, metric_row (snd md))) amd_template_data in
  let op := match find_row "OP" base with Some r => r | None => empty_row end in
  let rev := match find_row "Revenue" base with Some r => r | None => empty_row end in
  let op_margin_row :=
    row_of
      (("Company", Str "AMD")
       :: map (fun k => (k, op_margin_cell (op k) (rev k))) annual_columns
       ++ ("2027F", Str "")
       :: map (fun k => (k, op_margin_cell (op k) (rev k))) quarter_columns)%list in
  mkDF template_columns (base ++ [("OP margin", op_margin_row)])%list.

(** [is_amd_company] *)
Definition is_amd_company (company_name : string) : bool :=
  if is_empty company_name then false
  else
    let name_lower := lower company_name in
    contains name_lower "amd" || contains name_lower "advanced micro devices".

(** [v == ''] *)
Definition is_empty_text (v : cell) : bool :=
  match v with
  | Str s => is_empty s
  | _ => false
  end.

(** The inner loop [for col in template_df.columns] for a metric that the
    table has. *)
Definition fill_cell (template_df : DataFrame) (metric : string)
    (combined_df : DataFrame) (col : string) : DataFrame :=
  if mem col (columns combined_df) then
    let existing_val := at_ combined_df metric col in
    let template_val := at_ template_df metric col in
    if (isna existing_val || is_empty_text existing_val)
       && negb (is_empty_text template_val)
    then set_at combined_df metric col template_val
    else combined_df
  else combined_df.

(** [combined_df.loc[metric] = template_df.loc[metric]] for a new label:
    the new row takes the template's cells under the columns both have. *)
Definition insert_row (template_df : DataFrame) (metric : string)
    (combined_df : DataFrame) : DataFrame :=
  mkDF (columns combined_df)
       (rows combined_df
        ++ [(metric,
             fun c => if mem c (columns template_df) then at_ template_df metric c else NA)])%list.

(** One turn of [for metric in template_df.index]. *)
Definition merge_metric (template_df : DataFrame) (combined_df : DataFrame)
    (metric : string) : DataFrame :=
  if negb (mem metric (index combined_df)) then insert_row template_df metric combined_df
  else fold_left (fill_cell template_df metric) (columns template_df) combined_df.

(** The merge of [apply_amd_template_if_needed], for any template.  Rows
    are addressed by label ([combined_df.loc[metric, col]]): on a row
    label of the table that is repeated and is a metric of the template,
    [loc] gives a Series and the test at lines 638-640 raises
    [ValueError].  The embedding is that of the source for tables with
    distinct row labels, and the statements about it assume them. *)
Definition apply_template (template_df df : DataFrame) : DataFrame :=
  if empty df then template_df
  else fold_left (merge_metric template_df) (index template_df) df.

(** What the merge may do to the cells of [df] on its way to [d]: a cell
    of a row of [df] is either as it was, or it was missing or empty and
    holds the template's cell of that metric and column, which is not the
    empty text. *)
Definition filled_from (template_df df d : DataFrame) : Prop :=
  forall r c,
    In r (index df) ->
    at_ d r c = at_ df r c
    \/ ((isna (at_ df r c) = true \/ is_empty_text (at_ df r c) = true)
        /\ In r (index template_df) /\ In c (columns template_df)
        /\ at_ d r c = at_ template_df r c
        /\ is_empty_text (at_ template_df r c) = false).

(** [apply_amd_template_if_needed] *)
Definition apply_amd_template_if_needed (df : DataFrame) (company_name : string)
  : DataFrame :=
  if negb (is_amd_company company_name) then df
  else apply_template create_amd_template_df df.

End Template.

(* ================================================================== *)
(** ** Table-set reconciler *)
(* ================================================================== *)

Module Reconcile.
Import Py Frame Merge Clean Fold Classify Template.

(** A row seen from a table with columns [cols]: missing elsewhere. *)
Definition restrict (cols : list string) (row : Series) : Series :=
  fun c => if mem c cols then row c else NA.

(** [pd.concat(dfs, axis=0)]: the columns in order of first appearance,
    the rows of all tables in order. *)
Definition concat (dfs : list DataFrame) : DataFrame :=
  mkDF (unique (flat_map columns dfs))
       (flat_map
          (fun df => map (fun lr => (fst lr, restrict (columns df) (snd lr))) (rows df))
          dfs).

(** [pd.concat(parts) if parts else pd.DataFrame()] for parts cut from one
    table with columns [cols]; [rs] are the rows of all parts. *)
Definition concat_parts (cols : list string) (rs : list (string * Series))
  : DataFrame :=
  match rs with
  | [] => mkDF [] []
  | _ => mkDF cols rs
  end.

(** [if not df.empty: df.index = make_index_unique(df.index.tolist())] *)
Definition uniquify (df : DataFrame) : DataFrame :=
  if empty df then df
  else mkDF (columns df) (set_index (make_index_unique (index df)) (rows df)).

(** [df_merged[index.str.contains(a) & index.str.contains(b)]] with the
    index set to [name]. *)
Definition select_containing (a b name : string) (df : DataFrame) : DataFrame :=
  mkDF (columns df)
       (relabel name
          (filter (fun lr => contains (fst lr) a && contains (fst lr) b) (rows df))).

(** [if not matched.empty: df_segment = pd.concat([df_segment, matched])] *)
Definition append_nonempty (df_segment matched : DataFrame) : DataFrame :=
  if empty matched then df_segment else concat [df_segment; matched].

(** The dictionary part of step 3: the segments of a company of
    [company_segments], then the rows with "other". *)
Definition dictionary_segments (company_name : option string) (df_merged : DataFrame)
  : DataFrame :=
  match company_name with
  | Some name =>
      match (if is_empty name then None else segments_of name company_segments) with
      | Some segs =>
          let df_segment :=
            fold_left
              (fun acc seg =>
                 append_nonempty acc
                   (select_containing "revenue" (lower seg) ("revenue-" ++ seg) df_merged))
              segs (mkDF [] []) in
          append_nonempty df_segment
            (select_containing "revenue" "other" "revenue-other" df_merged)
      | None => mkDF [] []
      end
  | None => mkDF [] []
  end.

(** A match of [\s*\(\d+\)$] at the start of [s]: its length. *)
Definition counter_at (s : string) : option nat :=
  let (ws, r) := span is_space s in
  match r with
  | String "(" r1 =>
      let (d, r2) := span is_digit r1 in
      match r2 with
      | String ")" r3 =>
          if negb (is_empty d) && at_end r3
          then Some (String.length ws + String.length d + 2)
          else None
      | _ => None
      end
  | _ => None
  end.

(** Step 4.5: of the rows labelled [revenue-...], the first of each label
    without its counter.  The source takes [revenue_rows.loc[idx]], the row
    labelled [idx]; the labels of [revenue_rows] are distinct. *)
Fixpoint dedupe_revenue (seen : list string) (rs : list (string * Series))
  : list (string * Series) :=
  match rs with
  | [] => []
  | (idx, row) :: rest =>
      let base := sub_from counter_at idx 0 in
      if mem base seen then dedupe_revenue seen rest
      else (idx, row) :: dedupe_revenue (base :: seen) rest
  end.

(** [index.str.contains(r"\(.*?\)")] *)
Fixpoint has_parenthetical (s : string) : bool :=
  match paren_lazy_at s with
  | Some _ => true
  | None =>
      match s with
      | EmptyString => false
      | String _ r => has_parenthetical r
      end
  end.

Definition clean (df : DataFrame) : DataFrame :=
  remove_unwanted_rows
    (drop_unwanted_revenue_rows
       (fold_month_suffix_rows
          (handle_actual_columns
             (normalize_df_columns df)))).

(** Steps 1 to 3 on the concatenated table: the three sub-tables. *)
Definition rename_table (df_merged : DataFrame) : DataFrame :=
  uniquify
    (concat_parts (columns df_merged)
       (flat_map
          (fun idx =>
             match match_and_rename_index idx with
             | Some new_idx => relabel new_idx (rows_named idx (rows df_merged))
             | None => []
             end)
          (unique (index df_merged)))).

Definition group_table (df_merged : DataFrame) : DataFrame :=
  uniquify
    (concat_parts (columns df_merged)
       (flat_map
          (fun idx =>
             match group_name_match idx with
             | Some group => relabel group (rows_named idx (rows df_merged))
             | None => []
             end)
          (index df_merged))).

Definition segment_table (company_name : option string) (df_merged : DataFrame)
  : DataFrame :=
  uniquify
    (append_nonempty (dictionary_segments company_name df_merged)
       (extract_revenue_segments_generic df_merged)).

(** Steps 4 to 6 of [process_extracted_dfs] on the three sub-tables. *)
Definition merge_tables (company_name : option string)
    (df_index_map df_group_kw df_segment : DataFrame) : DataFrame :=
  let final_result := concat [df_index_map; df_group_kw; df_segment] in
  let is_rev := fun lr : string * Series => startswith (fst lr) "revenue-" in
  let revenue_rows := filter is_rev (rows final_result) in
  let non_revenue_rows :=
    mkDF (columns final_result) (filter (fun lr => negb (is_rev lr)) (rows final_result)) in
  let df_revenue_unique :=
    concat_parts (columns final_result) (dedupe_revenue [] revenue_rows) in
  let final_result := concat [non_revenue_rows; df_revenue_unique] in
  let final_result_unique := merge_duplicate_rows default_params final_result in
  let final_result_unique :=
    mkDF (columns final_result_unique)
         (filter (fun lr => negb (has_parenthetical (fst lr)))
                 (rows final_result_unique)) in
  match company_name with
  | Some name =>
      if is_empty name then final_result_unique
      else apply_amd_template_if_needed final_result_unique name
  | None => final_result_unique
  end.

(** [process_extracted_dfs]: the table it returns ([None] for an empty
    list); the diagnostics and the list of missing segments are left out. *)
Definition process_extracted_dfs (list_of_dfs : list DataFrame)
    (company_name : option string) : option DataFrame :=
  match list_of_dfs with
  | [] => None
  | _ =>
      let cleaned := map clean list_of_dfs in
      let df_merged := concat cleaned in
      let df_merged :=
        mkDF (columns df_merged)
             (map (fun lr => (lower (strip (fst lr)), snd lr)) (rows df_merged)) in
      Some (merge_tables company_name
              (rename_table df_merged)
              (group_table df_merged)
              (segment_table company_name df_merged))
  end.

End Reconcile.

(* ================================================================== *)
(** ** Concrete tables used in the statements below *)
(* ================================================================== *)

Module Examples.
Import Frame Template.
Local Open Scope float_scope.

(** Two rows labelled [X] whose values 1 and 5 cannot be reconciled. *)
Definition two_conflicting_rows : DataFrame :=
  mkDF ["2024"] [("X", row_of [("2024", Num 1)]); ("X", row_of [("2024", Num 5)])].

(** A table with one row and no column. *)
Definition backlog_without_columns : DataFrame :=
  mkDF [] [("Backlog", empty_row)].

(** One extracted table with two capital-expenditure rows. *)
Definition capex_table : DataFrame :=
  mkDF ["2024"]
       [("purchase of property", row_of [("2024", Num 5)]);
        ("capex", row_of [("2024", Num 1)])].

(** An accumulated row with 1000 and a remark, and a candidate with 1. *)
Definition row_thousand_remark : Series :=
  row_of [("2023", Num 1000); ("2024", Str "n/a")].
Definition row_one : Series := row_of [("2023", Num 1)].

(** A suffixed row in a table without columns. *)
Definition suffixed_row_no_column : DataFrame :=
  mkDF [] [("Revenue_Mar", empty_row)].

(** A suffixed row whose label is the base of another suffixed row. *)
Definition nested_suffix_rows : DataFrame :=
  mkDF ["2024"]
       [("X_FY", row_of [("2024", Num 1)]);
        ("X_FY_MAR", row_of [("2024", Num 2)])].

(** [Revenue] with 50 under [1Q2025F], and [Revenue_Mar] with 100 under
    [2025F] and 70 under [2024]. *)
Definition revenue_mar_table : DataFrame :=
  mkDF ["2024"; "2025F"; "1Q2025F"]
       [("Revenue", row_of [("1Q2025F", Num 50)]);
        ("Revenue_Mar", row_of [("2024", Num 70); ("2025F", Num 100)])].

(** An extracted [Revenue] row with 99 under [2023]. *)
Definition revenue_99 : DataFrame :=
  mkDF ["2023"] [("Revenue", row_of [("2023", Num 99)])].

(** One extracted table with the year-on-year growth of a segment. *)
Definition gaming_yoy_table : DataFrame :=
  mkDF ["2024"] [("revenue_gaming_yoy", row_of [("2024", Num 12)])].

End Examples.

(* ================================================================== *)
(** ** Display labels and sort keys *)
(* ================================================================== *)

Module Display.
Import Py Period Frame Clean.

Definition is_F (c : ascii) : bool := Ascii.eqb c "F".

(** [(\d{2})(F?)$], groups (yy, f). *)
Definition two_digits_F (r : string) : option (string * string) :=
  '(yy, r1) <- exactly 2 is_digit r ;;
  f <- opt_char_end is_F r1 ;;
  Some (yy, f).

(** [^([1-4])Q(20)?(\d{2})(F?)$], groups (q, yy, f): the optional [20] is
    tried first and given up when the rest does not match behind it. *)
Definition match_compact_quarter (s : string) : option (ascii * string * string) :=
  match s with
  | String q (String "Q" r) =>
      guard (is_q q) ;;
      match (if startswith r "20" then two_digits_F (drop 2 r) else None) with
      | Some (yy, f) => Some (q, yy, f)
      | None => '(yy, f) <- two_digits_F r ;; Some (q, yy, f)
      end
  | _ => None
  end.

(** [^(\d{4})(F?)$], groups (yyyy, f). *)
Definition match_compact_year (s : string) : option (string * string) :=
  '(yyyy, r) <- exactly 4 is_digit s ;;
  f <- opt_char_end is_F r ;;
  Some (yyyy, f).

(** [_compact_period_label]. *)
Definition _compact_period_label (s : string) (keep_F : bool) : string :=
  match match_compact_quarter s with
  | Some (q, yy, f) =>
      let out := String q ("Q" ++ yy) in
      if keep_F && String.eqb f "F" then out ++ "F" else out
  | None =>
  match match_compact_year s with
  | Some (yyyy, f) =>
      if keep_F && String.eqb f "F" then yyyy ++ "F" else yyyy
  | None => s
  end end.

(** [to_compact_columns]: equal labels are collapsed as in
    [normalize_df_columns]. *)
Definition to_compact_columns (df : DataFrame) (keep_F : bool) : DataFrame :=
  if empty df then df else
  let compact := fun c => _compact_period_label c keep_F in
  mkDF (unique (map compact (columns df)))
       (map (fun lr => (fst lr, rename_row compact (columns df) (snd lr)))
            (rows df)).

(** [^([1-4])Q(\d{2,4})F?$], groups (q, y). *)
Definition match_sort_quarter (s : string) : option (ascii * string) :=
  match s with
  | String q (String "Q" r) =>
      guard (is_q q) ;;
      '(y, r1) <- digits_between 2 4 r ;;
      guard (opt_F_end r1) ;;
      Some (q, y)
  | _ => None
  end.

(** [if len(y) == 2: y = "20" + y] *)
Definition expand_year (y : string) : string :=
  if String.length y =? 2 then "20" ++ y else y.

(** [quarter_sort_key]. *)
Definition quarter_sort_key (s : string) : N :=
  match match_sort_quarter (upper s) with
  | Some (q, y) => (int (expand_year y) * 10 + int (String q ""))%N
  | None => 0%N
  end.

(** [year_sort_key]: [re.sub(r"\D", "", ...)] keeps the digits. *)
Definition year_sort_key (s : string) : N :=
  let s := sfilter is_digit (remove_all s "F") in
  let s := expand_year s in
  if is_empty s then 0%N else int s.

(** [\d{2,4}F?] and [[1-4]Q\d{2,4}F?] under [re.fullmatch]: the label
    ends where the pattern ends. *)
Definition opt_F_full (r : string) : bool :=
  match r with
  | EmptyString => true
  | String c EmptyString => is_F c
  | _ => false
  end.

Definition fullmatch_year (s : string) : bool :=
  match digits_between 2 4 s with
  | Some (_, r) => opt_F_full r
  | None => false
  end.

Definition fullmatch_quarter (s : string) : bool :=
  match s with
  | String q (String "Q" r) => is_q q && fullmatch_year r
  | _ => false
  end.

(** [is_period_col]: [re.sub(r"\s+", "", name)] removes every blank. *)
Definition is_period_col (name : string) : bool :=
  let s := upper (sfilter (fun c => negb (is_space c)) name) in
  fullmatch_year s || fullmatch_quarter s.

End Display.

(* ================================================================== *)
(** ** Text utilities *)
(* ================================================================== *)

Module Text.
Import Py.

(** The text is empty or starts with a character that is no blank
    ([s.lstrip() == s]). *)
Definition starts_clean (t : string) : bool :=
  match t with
  | String c _ => negb (is_space c)
  | EmptyString => true
  end.

(** [re.sub(cls+, "_", s)] for a character class [cls]: every maximal run
    of characters of the class becomes one underscore.  [in_run] tells
    that the previous character was of the class. *)
Fixpoint sub_runs (cls : ascii -> bool) (s : string) (in_run : bool) : string :=
  match s with
  | EmptyString => EmptyString
  | String c r =>
      if cls c then
        if in_run then sub_runs cls r true
        else String "_" (sub_runs cls r true)
      else String c (sub_runs cls r false)
  end.

(** [[A-Za-z0-9_.-]]: the class [[A-Za-z0-9가-힣_.-]] of the source on
    ASCII text (the Hangul syllables lie outside ASCII). *)
Definition is_name_char (c : ascii) : bool :=
  is_alpha c || is_digit c
  || Ascii.eqb c "_" || Ascii.eqb c "." || Ascii.eqb c "-".

(** A character of ASCII. *)
Definition is_ascii (c : ascii) : bool := code c <? 128.

(** [safe_filename], for an ASCII [name]. *)
Definition safe_filename (name : string) : string :=
  let base := sub_runs is_space (strip name) false in
  sub_runs (fun c => negb (is_name_char c)) base false.

Definition is_alnum (c : ascii) : bool := is_alpha c || is_digit c.

Definition fence : string := "```".
Definition closing_fence : string := String "010" fence.

(** [re.sub(r"^```[a-zA-Z0-9]*\n", "", s)]: the pattern matches where the
    text starts only; the run of letters and digits is taken whole (a
    shorter one would be followed by a letter or digit, not by the
    newline). *)
Definition drop_opening_fence (s : string) : string :=
  if startswith s fence then
    match snd (span is_alnum (drop 3 s)) with
    | String "010" r => r
    | _ => s
    end
  else s.

(** [re.sub(r"\n```$", "", s)]: the match is dropped and the scan goes on
    behind it. *)
Fixpoint drop_closing_fence (s : string) : string :=
  match s with
  | EmptyString => EmptyString
  | String c r =>
      if startswith s closing_fence && at_end (drop 4 s) then drop 4 s
      else String c (drop_closing_fence r)
  end.

(** [strip_code_fences]. *)
Definition strip_code_fences (s : string) : string :=
  strip (drop_closing_fence (drop_opening_fence (strip s))).

(** [s.split(sep)] for a non-empty [sep]: the pieces between the
    occurrences of [sep], found from left to right without overlap.
    [cur] is the piece being read, reversed; [skip] counts the characters
    of the separator that are still ahead. *)
Fixpoint rev_string (acc s : string) : string :=
  match s with
  | EmptyString => acc
  | String c r => rev_string (String c acc) r
  end.

Fixpoint split_from (sep s cur : string) (skip : nat) : list string :=
  match s with
  | EmptyString => [rev_string "" cur]
  | String c r =>
      match skip with
      | S k => split_from sep r cur k
      | O =>
          if startswith s sep
          then rev_string "" cur :: split_from sep r "" (String.length sep - 1)
          else split_from sep r (String c cur) 0
      end
  end.

Definition split (s sep : string) : list string := split_from sep s "" 0.

Definition blank_line : string := String "010" (String "010" "").

(** [[t.strip() for t in pieces if t.strip()]] *)
Definition stripped_nonempty (pieces : list string) : list string :=
  filter (fun t => negb (is_empty t)) (map strip pieces).

(** [split_multiple_tables]. *)
Definition split_multiple_tables (text : string) : list string :=
  if contains text blank_line then stripped_nonempty (split text blank_line)
  else if contains text "---" then stripped_nonempty (split text "---")
  else [strip text].

End Text.

(* ================================================================== *)
(** ** Criteria of the duplicate-row merger *)
(* ================================================================== *)

Module Criteria.
Import Py Frame Merge.

(** The outcome of one turn of the loop over the columns, for the cells
    [val1] of the accumulated row and [val2] of the candidate. *)
Inductive outcome : Type :=
| Skip      (* a cell is missing, or the numbers are within tolerance *)
| Scale     (* the numbers are a unit scale apart *)
| Conflict. (* text, or numbers that are neither *)

Definition compare_cells (p : params) (val1 val2 : cell) : outcome :=
  if isna val1 || isna val2 then Skip
  else
    match to_float val1, to_float val2 with
    | Some v1, Some v2 =>
        if within_tolerance p v1 v2 then Skip
        else if unit_scale p v1 v2 then Scale
        else Conflict
    | _, _ => Conflict
    end.

(** The rows disagree under [col]: the candidate cannot be merged. *)
Definition conflicting (p : params) (merged current : Series) (col : string) : bool :=
  match compare_cells p (merged col) (current col) with
  | Conflict => true
  | _ => false
  end.

(** The rows are a unit scale apart under [col]. *)
Definition scaled (p : params) (merged current : Series) (col : string) : bool :=
  match compare_cells p (merged col) (current col) with
  | Scale => true
  | _ => false
  end.

(** What a step on a table may do to its rows, seen from a column [c]:
    the rows keep their labels and order, and a cell that is filled under
    [c] keeps its content. *)
Definition keeps_column (c : string) (rs rs' : list (string * Series)) : Prop :=
  Forall2 (fun lr lr' =>
             fst lr' = fst lr
             /\ (isna (snd lr c) = false -> snd lr' c = snd lr c))
          rs rs'.

(** [[a-z\s]] *)
Definition lower_or_space (c : ascii) : bool := is_lower c || is_space c.

(** No closing bracket / no opening bracket. *)
Definition not_close (c : ascii) : bool := negb (Ascii.eqb c ")").
Definition not_open (c : ascii) : bool := negb (Ascii.eqb c "(").

End Criteria.

(* ================================================================== *)
(** * Properties *)
(* ================================================================== *)

Import Py Period Frame Merge Clean Fold Classify Template Reconcile Examples.

(** ** Period-label normaliser *)

(** C5: the period normaliser returns [3Q2024] for [3Q24], [2025F] for
    [12/2025E], [3Q2025F] for [SEP-25] and [1Q2025] for [MAR-25] with
    current year 2025 and last actual quarter 2, and [2Q2025] for
    [2Q2025ACTUAL]. *)
Theorem normalize_period_label_examples :
  CURRENT_YEAR = 2025%N /\ LAST_ACTUAL_QUARTER = 2%N /\
  normalize_period_label (Some "3Q24") = Some "3Q2024" /\
  normalize_period_label (Some "12/2025E") = Some "2025F" /\
  normalize_period_label (Some "SEP-25") = Some "3Q2025F" /\
  normalize_period_label (Some "MAR-25") = Some "1Q2025" /\
  normalize_period_label (Some "2Q2025ACTUAL") = Some "2Q2025".
Proof. repeat split; vm_compute; reflexivity. Qed.

(** C6: [MAR-0025] is recognised by the month rule, whose result [1Q25]
    is not a fixed point: normalising it again gives [1Q2025].  The rule
    prints the year through [int], which drops the leading zeros, where
    the quarter rule keeps the digits it read. *)
Theorem normalize_not_idempotent_on_zero_padded_year :
  recognized "MAR-0025" = true /\
  normalize_period_label_str "MAR-0025" = "1Q25" /\
  normalize_period_label_str (normalize_period_label_str "MAR-0025") = "1Q2025" /\
  normalize_period_label_str "1Q0025" = "1Q0025".
Proof. repeat split; vm_compute; reflexivity. Qed.

(** The label [a b] matches no rule, and the result [AB] is not the
    upper-cased, stripped input [A B]. *)
Lemma fallback_removes_inner_spaces :
  recognized "a b" = false /\
  upper (strip "a b") = "A B" /\
  normalize_period_label_str "a b" <> upper (strip "a b").
Proof. repeat split; vm_compute; congruence. Qed.

(** Removing every blank instead does not give the result either: a
    tabulation inside the label is kept. *)
Lemma fallback_keeps_inner_tab :
  let x := String "a" (String "009" "b") in
  recognized x = false /\
  normalize_period_label_str x = String "A" (String "009" "B").
Proof. split; vm_compute; reflexivity. Qed.

(** On a label that matches no rule the result is the prepared label. *)
Lemma fallback_is_prepare (label : string) :
  recognized label = false ->
  normalize_period_label_str label = prepare label.
Proof.
  unfold recognized, rule_matches, normalize_period_label_str.
  intros H.
  destruct (match_month_year (prepare label)) as [[[? ?] ?]|]; [discriminate|].
  destruct (match_quarter (prepare label)) as [[[? ?] ?]|]; [discriminate|].
  destruct (match_mon_yy_q (prepare label)) as [[[[? ?] ?] ?]|]; [discriminate|].
  destruct (match_mon_year (prepare label)) as [[mon y]|].
  - destruct (_MONTH_TO_Q mon); [discriminate|].
    destruct (match_year_forecast (prepare label)); [discriminate|].
    destruct (match_fiscal_year (prepare label)) as [[? ?]|]; [discriminate|].
    destruct (match_quarter_yy (prepare label)) as [[? ?]|]; [discriminate|].
    rewrite H. reflexivity.
  - destruct (match_year_forecast (prepare label)); [discriminate|].
    destruct (match_fiscal_year (prepare label)) as [[? ?]|]; [discriminate|].
    destruct (match_quarter_yy (prepare label)) as [[? ?]|]; [discriminate|].
    rewrite H. reflexivity.
Qed.

(** C7, as it holds: on a label that matches no rule the normaliser
    returns the stripped, upper-cased input without its space characters
    and, when that ends with [ACTUAL], without any occurrence of
    [ACTUAL].  The function is total: it raises on no input. *)
Theorem fallback_returns_prepared_label (label : string) :
  recognized label = false ->
  normalize_period_label (Some label)
  = Some (let s := remove_spaces (upper (strip label)) in
          if endswith s "ACTUAL" then remove_all s "ACTUAL" else s).
Proof.
  intros H. unfold normalize_period_label.
  rewrite (fallback_is_prepare label H). reflexivity.
Qed.

Lemma fallback_returns_prepared_label_witness :
  recognized "net revenue" = false /\
  normalize_period_label (Some "net revenue") = Some "NETREVENUE".
Proof.
  split; [reflexivity |].
  exact (fallback_returns_prepared_label "net revenue" eq_refl).
Defined.

(** ** Duplicate-row merger and reconciler *)

Lemma make_index_unique_from_length count l :
  List.length (make_index_unique_from count l) = List.length l.
Proof.
  revert count. induction l as [|x l IH]; simpl; intros count; [reflexivity|].
  rewrite IH. reflexivity.
Qed.

Lemma set_index_rows labels (rs : list (string * Series)) :
  List.length labels = List.length rs ->
  map snd (set_index labels rs) = map snd rs
  /\ map fst (set_index labels rs) = labels.
Proof.
  unfold set_index. revert rs.
  induction labels as [|l labels IH]; intros [|r rs] Hlen; simpl in *;
    try discriminate; [split; reflexivity|].
  injection Hlen as Hlen. destruct (IH rs Hlen) as [H1 H2].
  rewrite H1, H2. split; reflexivity.
Qed.

(** The merger returns the merged row of each group, then every
    quarantined row with its cells; the quarantined rows are labelled by
    [make_index_unique] among themselves, so that the first one of a
    label keeps the bare label. *)
Lemma quarantined_rows_kept (p : params) (df : DataFrame) :
  let out := merge_duplicate_rows p df in
  let split := merge_groups p (columns df) (rows df)
                 (sorted_keys (map get_base_name (index df))) in
  map snd (rows out) = (map snd (fst split) ++ map snd (snd split))%list
  /\ index out
     = (map fst (fst split) ++ make_index_unique (map fst (snd split)))%list.
Proof.
  unfold merge_duplicate_rows.
  destruct (merge_groups p (columns df) (rows df)
              (sorted_keys (map get_base_name (index df))))
    as [merged_rows unmerged_rows].
  simpl. unfold index. simpl. rewrite !map_app.
  destruct (set_index_rows (make_index_unique (map fst unmerged_rows)) unmerged_rows)
    as [H1 H2].
  - unfold make_index_unique. rewrite make_index_unique_from_length.
    apply length_map.
  - rewrite H1, H2. split; reflexivity.
Qed.

Lemma make_index_unique_first (name : string) (l : list string) :
  exists l', make_index_unique (name :: l) = name :: l'.
Proof. eexists. reflexivity. Qed.

(** C3: of two rows [X] holding 1 and 5 the second is quarantined; it is
    kept, but under the bare label [X], the label of the merged row, and
    without any suffix. *)
Theorem merge_quarantine_keeps_bare_label :
  let out := merge_duplicate_rows default_params two_conflicting_rows in
  index out = ["X"; "X"] /\
  map (fun lr => snd lr "2024") (rows out) = [Num 1; Num 5]%float.
Proof. split; vm_compute; reflexivity. Qed.

(** C4: reconciling the table with rows [purchase of property] = 5 and
    [capex] = 1 returns two rows that are both labelled [CapEx]. *)
Theorem reconcile_returns_duplicate_label :
  option_map index (process_extracted_dfs [capex_table] None)
  = Some ["CapEx"; "CapEx"] /\
  option_map (fun d => map (fun lr => snd lr "2024") (rows d))
             (process_extracted_dfs [capex_table] None)
  = Some [Num 1; Num 5]%float.
Proof. split; vm_compute; reflexivity. Qed.

(** Every row of the generic detection comes from a label whose segment
    text holds no qualifier word. *)
Lemma generic_segment_name_spec (idx name : string) :
  generic_segment_name idx = Some name ->
  exists seg,
    segment_token idx = Some seg /\ has_skip_word seg = false
    /\ name = "revenue-" ++ title (runs_to_space seg false).
Proof.
  unfold generic_segment_name.
  destruct (segment_token idx) as [seg|]; [| discriminate].
  destruct (is_empty seg || has_skip_word seg) eqn:E; simpl; [discriminate|].
  destruct (unwanted_segment seg); simpl; [discriminate|].
  intros [= <-]. exists seg. repeat split.
  apply orb_false_elim in E. exact (proj2 E).
Qed.

Lemma generic_rows_from_segments (df : DataFrame) (lr : string * Series) :
  In lr (rows (extract_revenue_segments_generic df)) ->
  exists idx, In idx (index df) /\ generic_segment_name idx = Some (fst lr).
Proof.
  unfold extract_revenue_segments_generic.
  set (outs := flat_map _ _).
  assert (H : In lr outs ->
              exists idx, In idx (index df) /\ generic_segment_name idx = Some (fst lr)).
  { subst outs. intros Hin. apply in_flat_map in Hin as [idx [Hidx Hin]].
    destruct (generic_segment_name idx) as [name|] eqn:E; [| contradiction].
    unfold relabel in Hin. apply in_map_iff in Hin as [lr' [<- Hin']].
    exists idx. split; [| exact E].
    unfold rows_named in Hin'. apply filter_In in Hin' as [Hin' Heq].
    apply String.eqb_eq in Heq. rewrite <- Heq. unfold index.
    apply in_map, Hin'. }
  destruct outs; [intros [] | exact H].
Qed.

(** No segment name of the company dictionary holds a qualifier word. *)
Lemma dictionary_names_without_qualifier :
  forallb (fun cs => forallb (fun seg => negb (has_skip_word (lower seg))) (snd cs))
          company_segments = true
  /\ has_skip_word "other" = false.
Proof. split; vm_compute; reflexivity. Qed.

(** The generic detection passes over every label whose segment text
    holds a qualifier word. *)
Lemma generic_skips_qualifiers (idx seg : string) :
  segment_token idx = Some seg ->
  has_skip_word seg = true ->
  generic_segment_name idx = None.
Proof.
  unfold generic_segment_name. intros -> H. rewrite H.
  rewrite orb_true_r. reflexivity.
Qed.

(** C8: for the company [Nvidia] the label [revenue_gaming_yoy], whose
    segment text [gaming_yoy] holds the qualifier [yoy], is passed over by
    the generic detection but taken by the dictionary detection: the
    reconciled table has the row [revenue-Gaming] with its cells. *)
Theorem dictionary_path_takes_qualifier_row :
  segment_token "revenue_gaming_yoy" = Some "gaming_yoy" /\
  has_skip_word "gaming_yoy" = true /\
  generic_segment_name "revenue_gaming_yoy" = None /\
  option_map index (process_extracted_dfs [gaming_yoy_table] (Some "Nvidia"))
  = Some ["revenue-Gaming"] /\
  option_map (fun d => at_ d "revenue-Gaming" "2024")
             (process_extracted_dfs [gaming_yoy_table] (Some "Nvidia"))
  = Some (Num 12)%float.
Proof. repeat split; vm_compute; reflexivity. Qed.

(** ** Facts about characters and strings *)

Ltac ascii_cases c :=
  destruct c as [[] [] [] [] [] [] [] []]; vm_compute; congruence.

Section StringFacts.

Lemma digit_plain c : is_digit c = true -> plain c = true.
Proof. ascii_cases c. Qed.

Lemma q_digit c : is_q c = true -> is_digit c = true.
Proof. ascii_cases c. Qed.

Lemma plain_not_space c : plain c = true -> is_space c = false.
Proof. unfold plain. destruct (is_space c); simpl; congruence. Qed.

Lemma plain_not_lower c : plain c = true -> is_lower c = false.
Proof. unfold plain. destruct (is_space c), (is_lower c); simpl; congruence. Qed.

Lemma plain_not_blank c : plain c = true -> Ascii.eqb c " " = false.
Proof. ascii_cases c. Qed.

Lemma forall_chars_app p s t :
  forall_chars p (s ++ t) = forall_chars p s && forall_chars p t.
Proof.
  induction s as [|c s IH]; simpl; [reflexivity|].
  rewrite IH, andb_assoc. reflexivity.
Qed.

Lemma rstrip_plain s : forall_chars plain s = true -> rstrip s = s.
Proof.
  induction s as [|c s IH]; simpl; [reflexivity|].
  intros H. apply andb_prop in H as [Hc Hs].
  rewrite (IH Hs), (plain_not_space _ Hc), andb_false_r. reflexivity.
Qed.

Lemma strip_plain s : forall_chars plain s = true -> strip s = s.
Proof.
  intros H. unfold strip.
  destruct s as [|c s]; [reflexivity|].
  simpl in H. apply andb_prop in H as [Hc Hs].
  simpl lstrip. rewrite (plain_not_space _ Hc).
  apply rstrip_plain. simpl. rewrite Hc, Hs. reflexivity.
Qed.

Lemma upper_plain s : forall_chars plain s = true -> upper s = s.
Proof.
  unfold upper.
  induction s as [|c s IH]; simpl; [reflexivity|].
  intros H. apply andb_prop in H as [Hc Hs].
  rewrite (IH Hs). unfold to_upper. rewrite (plain_not_lower _ Hc). reflexivity.
Qed.

Lemma remove_spaces_plain s : forall_chars plain s = true -> remove_spaces s = s.
Proof.
  unfold remove_spaces.
  induction s as [|c s IH]; simpl; [reflexivity|].
  intros H. apply andb_prop in H as [Hc Hs].
  rewrite (IH Hs), (plain_not_blank _ Hc). reflexivity.
Qed.

(** The first statement of both normalisers leaves a plain label alone. *)
Lemma clean_plain s :
  forall_chars plain s = true -> remove_spaces (upper (strip s)) = s.
Proof.
  intros H. rewrite (strip_plain _ H), (upper_plain _ H).
  apply remove_spaces_plain, H.
Qed.

Lemma forall_chars_impl (p p' : ascii -> bool) s :
  (forall c, p c = true -> p' c = true) ->
  forall_chars p s = true -> forall_chars p' s = true.
Proof.
  intros Hpp. induction s as [|c s IH]; simpl; [reflexivity|].
  intros H. apply andb_prop in H as [Hc Hs].
  rewrite (Hpp _ Hc), (IH Hs). reflexivity.
Qed.

Lemma span_digits y r :
  forall_chars is_digit y = true -> no_digit_ahead r = true ->
  span is_digit (y ++ r) = (y, r).
Proof.
  intros Hy Hr. induction y as [|c y IH]; simpl.
  - destruct r as [|c r]; [reflexivity|].
    unfold no_digit_ahead in Hr. simpl.
    destruct (is_digit c); [discriminate | reflexivity].
  - simpl in Hy. apply andb_prop in Hy as [Hc Hy].
    rewrite Hc, (IH Hy). reflexivity.
Qed.

Lemma digits_between_app lo hi y r :
  forall_chars is_digit y = true -> no_digit_ahead r = true ->
  digits_between lo hi (y ++ r) =
    if (lo <=? String.length y) && (String.length y <=? hi)
    then Some (y, r) else None.
Proof.
  intros Hy Hr. unfold digits_between. rewrite (span_digits _ _ Hy Hr).
  reflexivity.
Qed.

End StringFacts.

(** ** Period labels: canonical results *)

Lemma digit_not_upper c : is_digit c = true -> is_upper c = false.
Proof. ascii_cases c. Qed.

Lemma digit_not_F c : is_digit c = true -> Ascii.eqb "F" c = false.
Proof. ascii_cases c. Qed.

Lemma q_cases c :
  is_q c = true -> c = "1"%char \/ c = "2"%char \/ c = "3"%char \/ c = "4"%char.
Proof.
  destruct c as [[] [] [] [] [] [] [] []]; vm_compute; intros H;
    try discriminate; auto.
Qed.

Lemma append_nil s : s ++ "" = s.
Proof. induction s as [|c s IH]; simpl; [reflexivity | rewrite IH; reflexivity]. Qed.

Lemma length_append s t : String.length (s ++ t) = String.length s + String.length t.
Proof. induction s as [|c s IH]; simpl; [reflexivity | rewrite IH; reflexivity]. Qed.

Lemma span_spec p s a b :
  span p s = (a, b) -> s = a ++ b /\ forall_chars p a = true.
Proof.
  revert a b. induction s as [|c s IH]; simpl; intros a b H.
  - inversion H. split; reflexivity.
  - destruct (p c) eqn:E.
    + destruct (span p s) as [a' b'] eqn:E'. inversion H; subst.
      destruct (IH a' b eq_refl) as [-> Ha]. simpl. rewrite E, Ha. split; reflexivity.
    + inversion H. split; reflexivity.
Qed.

Lemma exactly_spec n p : forall s a b,
  exactly n p s = Some (a, b) ->
  s = a ++ b /\ forall_chars p a = true /\ String.length a = n.
Proof.
  induction n as [|n IH]; simpl; intros s a b H.
  - inversion H. repeat split.
  - destruct s as [|c s]; [discriminate|].
    destruct (p c) eqn:E; [| discriminate].
    destruct (exactly n p s) as [[a' b']|] eqn:E'; [| discriminate].
    inversion H; subst. destruct (IH s a' b E') as [-> [Ha Hl]].
    simpl. rewrite E, Ha, Hl. repeat split.
Qed.

Lemma exactly_app p a b :
  forall_chars p a = true -> exactly (String.length a) p (a ++ b) = Some (a, b).
Proof.
  induction a as [|c a IH]; simpl; intros H; [reflexivity|].
  apply andb_prop in H as [Hc Ha]. rewrite Hc, (IH Ha). reflexivity.
Qed.

Lemma digits_between_spec lo hi s y r :
  digits_between lo hi s = Some (y, r) ->
  s = y ++ r /\ forall_chars is_digit y = true
  /\ lo <= String.length y <= hi.
Proof.
  unfold digits_between. destruct (span is_digit s) as [d r'] eqn:E.
  destruct ((lo <=? String.length d) && (String.length d <=? hi)) eqn:B; [| discriminate].
  intros H. inversion H; subst.
  destruct (span_spec _ _ _ _ E) as [-> Hd].
  apply andb_prop in B as [B1 B2].
  apply Nat.leb_le in B1. apply Nat.leb_le in B2. repeat split; assumption.
Qed.

Lemma canon_char_plain c : is_canon_char c = true -> plain c = true.
Proof. ascii_cases c. Qed.

Lemma canon_char_not_L c : is_canon_char c = true -> negb (Ascii.eqb c "L") = true.
Proof. ascii_cases c. Qed.

Lemma digit_canon c : is_digit c = true -> is_canon_char c = true.
Proof. unfold is_canon_char. intros ->. reflexivity. Qed.

Lemma forall_chars_drop p k : forall s,
  forall_chars p s = true -> forall_chars p (drop k s) = true.
Proof.
  induction k as [|k IH]; intros s H; [destruct s; exact H|].
  destruct s as [|c s]; [reflexivity|].
  simpl in H. apply andb_prop in H as [_ H]. simpl. apply IH, H.
Qed.

Lemma endswith_ACTUAL_false s :
  forall_chars (fun c => negb (Ascii.eqb c "L")) s = true ->
  endswith s "ACTUAL" = false.
Proof.
  intros H. unfold endswith.
  destruct (String.eqb (drop (String.length s - String.length "ACTUAL") s) "ACTUAL") eqn:E;
    [| apply andb_false_r].
  apply String.eqb_eq in E.
  pose proof (forall_chars_drop _ (String.length s - String.length "ACTUAL") s H) as H'.
  rewrite E in H'. vm_compute in H'. discriminate.
Qed.

(** A label made of digits, [Q] and [F] is its own prepared label. *)
Lemma prepare_canon s : forall_chars is_canon_char s = true -> prepare s = s.
Proof.
  intros H. unfold prepare.
  rewrite clean_plain
    by (apply (forall_chars_impl is_canon_char); [apply canon_char_plain | exact H]).
  rewrite endswith_ACTUAL_false; [reflexivity|].
  apply (forall_chars_impl is_canon_char); [apply canon_char_not_L | exact H].
Qed.

Lemma forall_canon_year y m :
  forall_chars is_digit y = true -> (m = "" \/ m = "F") ->
  forall_chars is_canon_char (y ++ m) = true.
Proof.
  intros Hy Hm. rewrite forall_chars_app.
  rewrite (forall_chars_impl is_digit is_canon_char y digit_canon Hy).
  destruct Hm as [-> | ->]; reflexivity.
Qed.

Lemma strip_digits y : forall_chars is_digit y = true -> strip y = y.
Proof.
  intros H. apply strip_plain.
  apply (forall_chars_impl is_digit); [apply digit_plain | exact H].
Qed.

Lemma to_yyyy_long y :
  forall_chars is_digit y = true -> String.length y <> 2 -> _to_yyyy y = y.
Proof.
  intros H Hl. unfold _to_yyyy. rewrite (strip_digits y H).
  destruct (String.length y =? 2) eqn:E; [| reflexivity].
  apply Nat.eqb_eq in E. contradiction.
Qed.

Lemma to_yyyy_short y :
  forall_chars is_digit y = true -> String.length y = 2 -> _to_yyyy y = "20" ++ y.
Proof.
  intros H Hl. unfold _to_yyyy. rewrite (strip_digits y H), Hl. reflexivity.
Qed.

(** The expanded year of a quarter: three or four digits. *)
Lemma to_yyyy_digits y :
  forall_chars is_digit y = true -> 2 <= String.length y <= 4 ->
  forall_chars is_digit (_to_yyyy y) = true
  /\ 3 <= String.length (_to_yyyy y) <= 4.
Proof.
  intros H Hl. destruct (Nat.eq_dec (String.length y) 2) as [E | E].
  - rewrite (to_yyyy_short y H E). simpl. rewrite H, E. split; [reflexivity | lia].
  - rewrite (to_yyyy_long y H E). split; [exact H | lia].
Qed.

Lemma no_digit_ahead_suffix m : (m = "" \/ m = "F") -> no_digit_ahead m = true.
Proof. intros [-> | ->]; reflexivity. Qed.

(** *** The rules on a canonical year *)

Section CanonYear.

Variables (y m : string).
Hypothesis Hy : forall_chars is_digit y = true.
Hypothesis Hl : String.length y = 4.
Hypothesis Hm : m = "" \/ m = "F".

Lemma year_no_month_year : match_month_year (y ++ m) = None.
Proof.
  unfold match_month_year.
  rewrite (digits_between_app 1 2 y m Hy (no_digit_ahead_suffix m Hm)), Hl.
  reflexivity.
Qed.

Lemma year_first_digit : exists d r, y = String d r /\ is_digit d = true.
Proof.
  destruct y as [|d r]; [discriminate|].
  simpl in Hy. apply andb_prop in Hy as [Hd _]. exists d, r. split; [reflexivity | exact Hd].
Qed.

Lemma year_no_quarter : match_quarter (y ++ m) = None.
Proof.
  destruct y as [|d1 [|d2 r]]; try discriminate.
  simpl in Hy. apply andb_prop in Hy as [_ H]. apply andb_prop in H as [H2 _].
  simpl. clear -H2.
  destruct d2 as [[] [] [] [] [] [] [] []]; try reflexivity;
    vm_compute in H2; discriminate.
Qed.

Lemma year_no_mon_yy_q : match_mon_yy_q (y ++ m) = None.
Proof.
  destruct year_first_digit as [d [r [-> Hd]]].
  unfold match_mon_yy_q. cbn [exactly append]. rewrite (digit_not_upper d Hd). reflexivity.
Qed.

Lemma year_no_mon_year : match_mon_year (y ++ m) = None.
Proof.
  destruct year_first_digit as [d [r [-> Hd]]].
  unfold match_mon_year. cbn [exactly append]. rewrite (digit_not_upper d Hd). reflexivity.
Qed.

Lemma year_exactly : exactly 4 is_digit (y ++ m) = Some (y, m).
Proof. rewrite <- Hl. apply exactly_app, Hy. Qed.

Lemma year_skip_FY : skip_FY (y ++ m) = y ++ m.
Proof.
  destruct year_first_digit as [d [r [-> Hd]]].
  unfold skip_FY. cbn [startswith append]. rewrite (digit_not_F d Hd). reflexivity.
Qed.

(** A canonical year is returned as it is. *)
Lemma canon_year_fixed : normalize_period_label_str (y ++ m) = y ++ m.
Proof.
  unfold normalize_period_label_str.
  rewrite (prepare_canon _ (forall_canon_year y m Hy Hm)).
  rewrite year_no_month_year, year_no_quarter, year_no_mon_yy_q, year_no_mon_year.
  unfold match_year_forecast, match_fiscal_year.
  rewrite year_skip_FY, year_exactly.
  destruct Hm as [-> | ->]; simpl.
  - symmetry. apply append_nil.
  - reflexivity.
Qed.

End CanonYear.

(** *** The rules on a canonical quarter *)

Lemma canon_quarter_fixed q y m :
  is_q q = true -> forall_chars is_digit y = true ->
  3 <= String.length y <= 4 -> (m = "" \/ m = "F") ->
  normalize_period_label_str (String q (String "Q" (y ++ m)))
  = String q (String "Q" (y ++ m)).
Proof.
  intros Hq Hy Hl Hm.
  assert (Hcanon : forall_chars is_canon_char (String q (String "Q" (y ++ m))) = true).
  { simpl. rewrite (digit_canon q (q_digit q Hq)). simpl.
    apply forall_canon_year; assumption. }
  assert (Hb : (2 <=? String.length y) && (String.length y <=? 4) = true).
  { apply andb_true_intro. split; apply Nat.leb_le; lia. }
  assert (Hto : _to_yyyy y = y) by (apply to_yyyy_long; [exact Hy | lia]).
  unfold normalize_period_label_str.
  rewrite (prepare_canon _ Hcanon).
  assert (H1 : match_month_year (String q (String "Q" (y ++ m))) = None).
  { destruct (q_cases q Hq) as [-> | [-> | [-> | ->]]]; reflexivity. }
  rewrite H1.
  unfold match_quarter. rewrite Hq.
  rewrite (digits_between_app 2 4 y m Hy (no_digit_ahead_suffix m Hm)), Hb.
  destruct Hm as [-> | ->]; simpl; unfold quarter_label; simpl; rewrite Hto.
  - rewrite append_nil. reflexivity.
  - reflexivity.
Qed.

(** *** Reading and printing a year *)

Lemma uint_of_digits s :
  forall_chars is_digit s = true ->
  exists d, NilEmpty.uint_of_string s = Some d.
Proof.
  induction s as [|c s IH]; simpl; intros H.
  - exists Decimal.Nil. reflexivity.
  - apply andb_prop in H as [Hc Hs]. destruct (IH Hs) as [d ->].
    clear -Hc.
    destruct c as [[] [] [] [] [] [] [] []]; vm_compute in Hc; try discriminate;
      eexists; reflexivity.
Qed.

(** [str(int(s)) == s] for digits that do not start with a zero. *)
Lemma str_int_digits c s :
  forall_chars is_digit (String c s) = true ->
  Ascii.eqb c "0" = false ->
  str_of_N (int (String c s)) = String c s.
Proof.
  intros H Hc. unfold str_of_N, int.
  assert (Hz : NilZero.uint_of_string (String c s) = NilEmpty.uint_of_string (String c s))
    by reflexivity.
  destruct (uint_of_digits _ H) as [d Hd].
  rewrite Hz, Hd. rewrite DecimalN.Unsigned.to_of.
  assert (Hn : Decimal.unorm d = d).
  { simpl in Hd. simpl in H. apply andb_prop in H as [Hdc _].
    destruct (NilEmpty.uint_of_string s) as [d'|]; [| destruct c as [[] [] [] [] [] [] [] []]; discriminate].
    clear -Hd Hc Hdc.
    destruct c as [[] [] [] [] [] [] [] []]; vm_compute in Hdc; try discriminate;
      vm_compute in Hc; try discriminate;
      simpl in Hd; inversion Hd; reflexivity. }
  rewrite Hn. apply NilZero.sus. rewrite Hz. exact Hd.
Qed.

(** *** What a successful rule has read *)

Lemma match_month_year_spec s mm yyyy suf :
  match_month_year s = Some (mm, yyyy, suf) ->
  forall_chars is_digit yyyy = true /\ String.length yyyy = 4.
Proof.
  unfold match_month_year.
  destruct (digits_between 1 2 s) as [[mm' r]|]; [| discriminate].
  destruct r as [|c r1]; [discriminate|].
  destruct (exactly 4 is_digit r1) as [[y' r2]|] eqn:E.
  - destruct (opt_char_end is_AEF r2) as [suf'|];
      destruct c as [[] [] [] [] [] [] [] []]; try discriminate.
    intros H. inversion H; subst.
    destruct (exactly_spec _ _ _ _ _ E) as [_ [Hd Hl]]. split; assumption.
  - destruct c as [[] [] [] [] [] [] [] []]; discriminate.
Qed.

Lemma match_quarter_spec s q y suf :
  match_quarter s = Some (q, y, suf) ->
  is_q q = true /\ forall_chars is_digit y = true /\ 2 <= String.length y <= 4.
Proof.
  unfold match_quarter.
  destruct s as [|q' [|c r]]; try discriminate.
  destruct (is_q q') eqn:Hq.
  - destruct (digits_between 2 4 r) as [[y' r1]|] eqn:E.
    + destruct (opt_char_end is_AEF r1) as [suf'|];
        destruct c as [[] [] [] [] [] [] [] []]; try discriminate.
      intros H. inversion H; subst.
      destruct (digits_between_spec _ _ _ _ _ E) as [_ [Hd Hl]].
      repeat split; try assumption; lia.
    + destruct c as [[] [] [] [] [] [] [] []]; discriminate.
  - destruct c as [[] [] [] [] [] [] [] []]; discriminate.
Qed.

Lemma match_mon_yy_q_spec s mon y2 q suf :
  match_mon_yy_q s = Some (mon, y2, q, suf) ->
  is_q q = true /\ forall_chars is_digit y2 = true /\ String.length y2 = 2.
Proof.
  unfold match_mon_yy_q.
  destruct (exactly 3 is_upper s) as [[mon' r]|]; [| discriminate].
  destruct r as [|c r1]; [discriminate|].
  destruct (exactly 2 is_digit r1) as [[y' r2]|] eqn:E.
  - destruct r2 as [|q' [|c' r3]].
    + destruct c as [[] [] [] [] [] [] [] []]; discriminate.
    + destruct c as [[] [] [] [] [] [] [] []]; discriminate.
    + destruct (is_q q') eqn:Hq.
      * destruct (opt_char_end is_AEF r3) as [suf'|].
        -- destruct c as [[] [] [] [] [] [] [] []]; try discriminate;
             destruct c' as [[] [] [] [] [] [] [] []]; try discriminate.
           intros H. inversion H; subst.
           destruct (exactly_spec _ _ _ _ _ E) as [_ [Hd Hl]].
           repeat split; assumption.
        -- destruct c as [[] [] [] [] [] [] [] []]; try discriminate;
             destruct c' as [[] [] [] [] [] [] [] []]; discriminate.
      * destruct c as [[] [] [] [] [] [] [] []]; try discriminate;
          destruct c' as [[] [] [] [] [] [] [] []]; discriminate.
  - destruct c as [[] [] [] [] [] [] [] []]; discriminate.
Qed.

Lemma match_mon_year_spec s mon y :
  match_mon_year s = Some (mon, y) ->
  forall_chars is_digit y = true /\ 2 <= String.length y <= 4.
Proof.
  unfold match_mon_year.
  destruct (exactly 3 is_upper s) as [[mon' r]|]; [| discriminate].
  destruct r as [|c r1]; [discriminate|].
  destruct (is_dash_slash c); [| discriminate].
  destruct (digits_between 2 4 r1) as [[y' r2]|] eqn:E; [| discriminate].
  destruct (at_end r2); [| discriminate].
  intros H. inversion H; subst.
  destruct (digits_between_spec _ _ _ _ _ E) as [_ [Hd Hl]]. split; assumption.
Qed.

Lemma match_year_forecast_spec s yyyy :
  match_year_forecast s = Some yyyy ->
  forall_chars is_digit yyyy = true /\ String.length yyyy = 4.
Proof.
  unfold match_year_forecast.
  destruct (exactly 4 is_digit s) as [[y' r]|] eqn:E; [| discriminate].
  destruct r as [|c r1]; [discriminate|].
  destruct (Ascii.eqb c "E" || Ascii.eqb c "F"); [| discriminate].
  destruct (at_end (snd (span is_upper r1))); [| discriminate].
  intros H. inversion H; subst.
  destruct (exactly_spec _ _ _ _ _ E) as [_ [Hd Hl]]. split; assumption.
Qed.

Lemma match_fiscal_year_spec s yyyy suf :
  match_fiscal_year s = Some (yyyy, suf) ->
  forall_chars is_digit yyyy = true /\ String.length yyyy = 4.
Proof.
  unfold match_fiscal_year.
  destruct (exactly 4 is_digit (skip_FY s)) as [[y' r]|] eqn:E; [| discriminate].
  destruct (opt_char_end is_AEF (skip_FY r)); [| discriminate].
  intros H. inversion H; subst.
  destruct (exactly_spec _ _ _ _ _ E) as [_ [Hd Hl]]. split; assumption.
Qed.

Lemma match_quarter_yy_spec s q y2 :
  match_quarter_yy s = Some (q, y2) ->
  is_q q = true /\ forall_chars is_digit y2 = true /\ String.length y2 = 2.
Proof.
  unfold match_quarter_yy.
  destruct s as [|q' [|c r]]; try discriminate.
  destruct (is_q q') eqn:Hq.
  - destruct (exactly 2 is_digit r) as [[y' r1]|] eqn:E.
    + destruct (at_end r1);
        destruct c as [[] [] [] [] [] [] [] []]; try discriminate.
      intros H. inversion H; subst.
      destruct (exactly_spec _ _ _ _ _ E) as [_ [Hd Hl]].
      repeat split; assumption.
    + destruct c as [[] [] [] [] [] [] [] []]; discriminate.
  - destruct c as [[] [] [] [] [] [] [] []]; discriminate.
Qed.

(** *** The test for an already canonical label never decides *)

Lemma at_end_cases r : at_end r = true -> r = "" \/ r = String "010" "".
Proof.
  destruct r as [|c [|c' r']]; simpl; intros H; try discriminate.
  - left. reflexivity.
  - right. apply Ascii.eqb_eq in H. subst. reflexivity.
Qed.

Lemma opt_F_end_cases r :
  opt_F_end r = true ->
  r = "" \/ r = String "010" "" \/ r = "F" \/ r = String "F" (String "010" "").
Proof.
  unfold opt_F_end, opt_char_end. destruct r as [|c r']; [intros _; left; reflexivity|].
  destruct (Ascii.eqb c "F" && at_end r') eqn:E.
  - intros _. apply andb_prop in E as [E1 E2]. apply Ascii.eqb_eq in E1. subst c.
    destruct (at_end_cases _ E2) as [-> | ->]; auto.
  - destruct (at_end (String c r')) eqn:E'; [| discriminate].
    intros _. destruct (at_end_cases _ E') as [H | H]; [discriminate|].
    right. left. exact H.
Qed.

Lemma canon_year_is_fiscal s :
  match_canon_year s = true -> match_fiscal_year s <> None.
Proof.
  unfold match_canon_year.
  destruct (exactly 4 is_digit s) as [[y r]|] eqn:E; [| discriminate].
  intros H. destruct (exactly_spec _ _ _ _ _ E) as [-> [Hd Hl]].
  unfold match_fiscal_year.
  rewrite (year_skip_FY y r Hd Hl), E.
  destruct (opt_F_end_cases _ H) as [-> | [-> | [-> | ->]]]; simpl; congruence.
Qed.

Lemma canon_quarter_is_quarter s :
  match_canon_quarter s = true -> match_quarter s <> None.
Proof.
  unfold match_canon_quarter, match_quarter.
  destruct s as [|q [|c r]]; try discriminate.
  destruct (is_q q) eqn:Hq.
  2:{ destruct c as [[] [] [] [] [] [] [] []]; discriminate. }
  destruct (exactly 4 is_digit r) as [[y r1]|] eqn:E.
  2:{ destruct c as [[] [] [] [] [] [] [] []]; discriminate. }
  destruct (exactly_spec _ _ _ _ _ E) as [-> [Hd Hl]].
  destruct c as [[] [] [] [] [] [] [] []]; try discriminate.
  simpl. intros H.
  assert (Hn : no_digit_ahead r1 = true)
    by (destruct (opt_F_end_cases _ H) as [-> | [-> | [-> | ->]]]; reflexivity).
  rewrite (digits_between_app 2 4 y r1 Hd Hn), Hl. simpl.
  destruct (opt_F_end_cases _ H) as [-> | [-> | [-> | ->]]]; simpl; congruence.
Qed.

Lemma month_q_cases mon qn :
  _MONTH_TO_Q mon = Some qn ->
  qn = 1%N \/ qn = 2%N \/ qn = 3%N \/ qn = 4%N.
Proof.
  unfold _MONTH_TO_Q.
  repeat (match goal with
          | |- context [String.eqb ?a ?b] => destruct (String.eqb a b)
          end; [intros [= <-]; auto|]).
  discriminate.
Qed.

(** Every recognised label, a month label with a zero-padded year apart,
    is normalised to a canonical form. *)
Lemma normalize_canonical (x : string) :
  recognized x = true ->
  zero_padded_month_year (prepare x) = false ->
  canonical_year (normalize_period_label_str x)
  \/ canonical_quarter (normalize_period_label_str x).
Proof.
  unfold recognized, rule_matches, normalize_period_label_str, zero_padded_month_year.
  set (s := prepare x).
  destruct (match_month_year s) as [[[mm yyyy] suf]|] eqn:E1.
  { intros _ _. left. destruct (match_month_year_spec _ _ _ _ E1) as [Hd Hl].
    rewrite (to_yyyy_long yyyy Hd) by lia.
    exists yyyy, (if is_EF suf then "F" else "").
    destruct (is_EF suf); repeat split; auto. symmetry. apply append_nil. }
  destruct (match_quarter s) as [[[q y] suf]|] eqn:E2.
  { intros _ _. right. destruct (match_quarter_spec _ _ _ _ E2) as [Hq [Hd Hl]].
    destruct (to_yyyy_digits y Hd Hl) as [Hd' Hl'].
    exists q, (_to_yyyy y), (if is_EF suf then "F" else "").
    unfold quarter_label.
    destruct (is_EF suf); repeat split; auto; try lia.
    simpl. rewrite append_nil. reflexivity. }
  destruct (match_mon_yy_q s) as [[[[mon y2] q] suf]|] eqn:E3.
  { intros _ _. right. destruct (match_mon_yy_q_spec _ _ _ _ _ E3) as [Hq [Hd Hl]].
    assert (Hl2 : 2 <= String.length y2 <= 4) by lia.
    destruct (to_yyyy_digits y2 Hd Hl2) as [Hd' Hl'].
    exists q, (_to_yyyy y2), (if is_EF suf then "F" else "").
    unfold quarter_label.
    destruct (is_EF suf); repeat split; auto; try lia.
    simpl. rewrite append_nil. reflexivity. }
  destruct (match_mon_year s) as [[mon y]|] eqn:E4.
  - destruct (_MONTH_TO_Q mon) as [qn|] eqn:Eq.
    + intros _ Hz. right.
      destruct (match_mon_year_spec _ _ _ E4) as [Hd Hl].
      destruct (to_yyyy_digits y Hd Hl) as [Hd' Hl'].
      assert (Hrt : str_of_N (int (_to_yyyy y)) = _to_yyyy y).
      { destruct (Nat.eq_dec (String.length y) 2) as [L2 | L2].
        - rewrite (to_yyyy_short y Hd L2).
          apply (str_int_digits "2" (String "0" y)); [| reflexivity].
          simpl. exact Hd.
        - rewrite (to_yyyy_long y Hd L2).
          destruct y as [|c r]; [simpl in Hl; lia|].
          apply str_int_digits; [exact Hd|].
          apply Nat.eqb_neq in L2. rewrite L2 in Hz. simpl in Hz.
          destruct (Ascii.eqb c "0") eqn:Ec; [| reflexivity].
          apply Ascii.eqb_eq in Ec. subst c. destruct r; simpl in Hz; discriminate. }
      rewrite Hrt.
      set (flag := if _is_future_quarter (int (_to_yyyy y)) qn then "F" else "").
      assert (Hflag : flag = "" \/ flag = "F")
        by (subst flag; destruct (_is_future_quarter _ _); auto).
      destruct (month_q_cases _ _ Eq) as [-> | [-> | [-> | ->]]].
      * exists "1"%char, (_to_yyyy y), flag. repeat split; auto; lia.
      * exists "2"%char, (_to_yyyy y), flag. repeat split; auto; lia.
      * exists "3"%char, (_to_yyyy y), flag. repeat split; auto; lia.
      * exists "4"%char, (_to_yyyy y), flag. repeat split; auto; lia.
    + destruct (match_year_forecast s) as [yyyy|] eqn:E5.
      { intros _ _. left. destruct (match_year_forecast_spec _ _ E5) as [Hd Hl].
        exists yyyy, "F". repeat split; auto. }
      destruct (match_fiscal_year s) as [[yyyy suf]|] eqn:E6.
      { intros _ _. left. destruct (match_fiscal_year_spec _ _ _ E6) as [Hd Hl].
        exists yyyy, (if is_EF suf then "F" else "").
        destruct (is_EF suf); repeat split; auto. symmetry. apply append_nil. }
      destruct (match_quarter_yy s) as [[q y2]|] eqn:E7.
      { intros _ _. right. destruct (match_quarter_yy_spec _ _ _ E7) as [Hq [Hd Hl]].
        assert (Hl2 : 2 <= String.length y2 <= 4) by lia.
        destruct (to_yyyy_digits y2 Hd Hl2) as [Hd' Hl'].
        exists q, (_to_yyyy y2), "". repeat split; auto; try lia.
        simpl. rewrite append_nil. reflexivity. }
      intros H _. exfalso. apply orb_prop in H as [H | H].
      * apply (canon_year_is_fiscal s H E6).
      * apply (canon_quarter_is_quarter s H E2).
  - destruct (match_year_forecast s) as [yyyy|] eqn:E5.
    { intros _ _. left. destruct (match_year_forecast_spec _ _ E5) as [Hd Hl].
      exists yyyy, "F". repeat split; auto. }
    destruct (match_fiscal_year s) as [[yyyy suf]|] eqn:E6.
    { intros _ _. left. destruct (match_fiscal_year_spec _ _ _ E6) as [Hd Hl].
      exists yyyy, (if is_EF suf then "F" else "").
      destruct (is_EF suf); repeat split; auto. symmetry. apply append_nil. }
    destruct (match_quarter_yy s) as [[q y2]|] eqn:E7.
    { intros _ _. right. destruct (match_quarter_yy_spec _ _ _ E7) as [Hq [Hd Hl]].
      assert (Hl2 : 2 <= String.length y2 <= 4) by lia.
      destruct (to_yyyy_digits y2 Hd Hl2) as [Hd' Hl'].
      exists q, (_to_yyyy y2), "". repeat split; auto; try lia.
      simpl. rewrite append_nil. reflexivity. }
    intros H _. exfalso. apply orb_prop in H as [H | H].
    * apply (canon_year_is_fiscal s H E6).
    * apply (canon_quarter_is_quarter s H E2).
Qed.

(** Normalising twice is normalising once on every recognised label, a
    month label with a zero-padded year apart. *)
Lemma normalize_idempotent_unless_zero_padded (x : string) :
  recognized x = true ->
  zero_padded_month_year (prepare x) = false ->
  normalize_period_label_str (normalize_period_label_str x)
  = normalize_period_label_str x.
Proof.
  intros Hr Hz.
  destruct (normalize_canonical x Hr Hz)
    as [[y [m [-> [Hd [Hl Hm]]]]] | [q [y [m [-> [Hq [Hd [Hl Hm]]]]]]]].
  - apply canon_year_fixed; assumption.
  - apply canon_quarter_fixed; assumption.
Qed.

(** Where a label has no inner space and does not end with [ACTUAL], the
    fallback is the stripped, upper-cased label. *)
Lemma to_upper_blank c : Ascii.eqb (to_upper c) " " = Ascii.eqb c " ".
Proof. ascii_cases c. Qed.

Lemma remove_spaces_upper s :
  forall_chars (fun c => negb (Ascii.eqb c " ")) s = true ->
  remove_spaces (upper s) = upper s.
Proof.
  unfold remove_spaces, upper.
  induction s as [|c s IH]; simpl; [reflexivity|].
  intros H. apply andb_prop in H as [Hc Hs].
  rewrite to_upper_blank, Hc, (IH Hs). reflexivity.
Qed.

Lemma fallback_upper_strip (label : string) :
  recognized label = false ->
  forall_chars (fun c => negb (Ascii.eqb c " ")) (strip label) = true ->
  endswith (upper (strip label)) "ACTUAL" = false ->
  normalize_period_label_str label = upper (strip label).
Proof.
  intros Hr Hs He.
  rewrite (fallback_is_prepare label Hr). unfold prepare.
  rewrite (remove_spaces_upper _ Hs), He. reflexivity.
Qed.


(** ** Template merge *)

Section TableFacts.

Lemma mem_In x l : mem x l = true <-> In x l.
Proof.
  unfold mem. rewrite existsb_exists. split.
  - intros [y [Hy E]]. apply String.eqb_eq in E. subst. exact Hy.
  - intros H. exists x. split; [exact H | apply String.eqb_refl].
Qed.

Lemma find_row_app_l name rs rs' :
  In name (map fst rs) -> find_row name (rs ++ rs') = find_row name rs.
Proof.
  induction rs as [|[l r] rs IH]; simpl; [contradiction|].
  intros H. destruct (String.eqb l name) eqn:E; [reflexivity|].
  apply IH. destruct H as [H | H]; [| exact H].
  subst. rewrite String.eqb_refl in E. discriminate.
Qed.

Lemma find_row_In name row rs :
  NoDup (map fst rs) -> In (name, row) rs -> find_row name rs = Some row.
Proof.
  induction rs as [|[l r] rs IH]; simpl; [contradiction|].
  intros Hnd Hin. inversion Hnd as [|? ? Hnot Hnd']; subst.
  destruct Hin as [Hin | Hin].
  - inversion Hin; subst. rewrite String.eqb_refl. reflexivity.
  - destruct (String.eqb l name) eqn:E.
    + apply String.eqb_eq in E. subst. exfalso. apply Hnot.
      apply (in_map fst) in Hin. exact Hin.
    + apply IH; assumption.
Qed.

Lemma at_In df name row c :
  NoDup (index df) -> In (name, row) (rows df) -> at_ df name c = row c.
Proof.
  intros Hnd Hin. unfold at_, loc.
  rewrite (find_row_In _ _ _ Hnd Hin). reflexivity.
Qed.

Lemma index_set_first name col v rs :
  map fst (set_first name col v rs) = map fst rs.
Proof.
  induction rs as [|[l r] rs IH]; simpl; [reflexivity|].
  destruct (String.eqb l name); simpl; [reflexivity | rewrite IH; reflexivity].
Qed.

Lemma find_row_set_first_other name col v rs name' :
  name' <> name ->
  find_row name' (set_first name col v rs) = find_row name' rs.
Proof.
  intros Hne. induction rs as [|[l r] rs IH]; simpl; [reflexivity|].
  destruct (String.eqb l name) eqn:E; simpl.
  - apply String.eqb_eq in E. subst.
    destruct (String.eqb name name') eqn:E'; [| reflexivity].
    apply String.eqb_eq in E'. congruence.
  - destruct (String.eqb l name'); [reflexivity | exact IH].
Qed.

Lemma find_row_set_first_same name col v rs :
  find_row name (set_first name col v rs)
  = option_map (fun r => set_cell r col v) (find_row name rs).
Proof.
  induction rs as [|[l r] rs IH]; simpl; [reflexivity|].
  destruct (String.eqb l name) eqn:E; simpl; rewrite E; [reflexivity | exact IH].
Qed.

(** Reading a cell after [df.at[name, col] = v]. *)
Lemma at_set_at df name col v name' c :
  at_ (set_at df name col v) name' c =
    if String.eqb name' name && String.eqb c col && mem name (index df)
    then v else at_ df name' c.
Proof.
  unfold at_, loc, set_at. simpl.
  destruct (String.eqb name' name) eqn:E; simpl.
  - apply String.eqb_eq in E. subst name'.
    rewrite find_row_set_first_same.
    destruct (find_row name (rows df)) as [r|] eqn:F; simpl.
    + unfold set_cell. destruct (String.eqb c col); simpl; [| reflexivity].
      assert (Hm : mem name (index df) = true).
      { apply mem_In. unfold index. clear -F.
        induction (rows df) as [|[l r'] rs IH]; simpl in *; [discriminate|].
        destruct (String.eqb l name) eqn:E.
        - left. apply String.eqb_eq, E.
        - right. apply IH, F. }
      rewrite Hm. reflexivity.
    + destruct (String.eqb c col); simpl; [| reflexivity].
      destruct (mem name (index df)) eqn:Hm; [| reflexivity].
      exfalso. apply mem_In in Hm. unfold index in Hm. clear -F Hm.
      induction (rows df) as [|[l r'] rs IH]; simpl in *; [contradiction|].
      destruct (String.eqb l name) eqn:E; [discriminate|].
      destruct Hm as [Hm | Hm]; [| exact (IH F Hm)].
      subst. rewrite String.eqb_refl in E. discriminate.
  - rewrite find_row_set_first_other; [reflexivity|].
    intros ->. rewrite String.eqb_refl in E. discriminate.
Qed.

Lemma index_set_at df name col v : index (set_at df name col v) = index df.
Proof. unfold index, set_at. simpl. apply index_set_first. Qed.

End TableFacts.

Section TemplateFacts.

Variable T : DataFrame.
Variable df : DataFrame.

Lemma filled_from_refl : filled_from T df df.
Proof. intros r c _. left. reflexivity. Qed.

Lemma fill_cell_index metric d col :
  index (fill_cell T metric d col) = index d
  /\ columns (fill_cell T metric d col) = columns d.
Proof.
  unfold fill_cell.
  destruct (mem col (columns d)); [| split; reflexivity].
  destruct ((isna (at_ d metric col) || is_empty_text (at_ d metric col))
            && negb (is_empty_text (at_ T metric col)));
    [| split; reflexivity].
  split; [apply index_set_at | reflexivity].
Qed.

Lemma fill_cell_filled metric d col :
  In metric (index T) -> In col (columns T) ->
  filled_from T df d -> filled_from T df (fill_cell T metric d col).
Proof.
  intros Hm Hc Inv. unfold fill_cell.
  destruct (mem col (columns d)); [| exact Inv].
  destruct ((isna (at_ d metric col) || is_empty_text (at_ d metric col))
            && negb (is_empty_text (at_ T metric col))) eqn:Cond; [| exact Inv].
  apply andb_prop in Cond as [Hmiss Ht].
  apply negb_true_iff in Ht.
  intros r c Hr. rewrite at_set_at.
  destruct (String.eqb r metric && String.eqb c col && mem metric (index d)) eqn:E;
    [| apply Inv, Hr].
  apply andb_prop in E as [E _]. apply andb_prop in E as [E1 E2].
  apply String.eqb_eq in E1. apply String.eqb_eq in E2. subst r c.
  right. repeat split; try assumption.
  destruct (Inv metric col Hr) as [Same | [Miss _]].
  - rewrite <- Same. apply orb_prop in Hmiss. exact Hmiss.
  - exact Miss.
Qed.

Lemma fill_cells_filled metric cols :
  In metric (index T) -> incl cols (columns T) ->
  forall d,
    filled_from T df d ->
    filled_from T df (fold_left (fill_cell T metric) cols d)
    /\ index (fold_left (fill_cell T metric) cols d) = index d
    /\ columns (fold_left (fill_cell T metric) cols d) = columns d.
Proof.
  intros Hm. induction cols as [|col cols IH]; simpl; intros Hincl d Inv.
  - repeat split; [exact Inv].
  - destruct (fill_cell_index metric d col) as [Hi Hc].
    destruct (IH (fun x Hx => Hincl x (or_intror Hx))
                 (fill_cell T metric d col)
                 (fill_cell_filled metric d col Hm (Hincl col (or_introl eq_refl)) Inv))
      as [Inv' [Hi' Hc']].
    repeat split; [exact Inv' | congruence | congruence].
Qed.

Lemma insert_row_filled metric d :
  incl (index df) (index d) ->
  filled_from T df d -> filled_from T df (insert_row T metric d).
Proof.
  intros Hincl Inv r c Hr.
  replace (at_ (insert_row T metric d) r c) with (at_ d r c); [apply Inv, Hr|].
  unfold at_, loc, insert_row. simpl.
  rewrite find_row_app_l; [reflexivity | apply Hincl, Hr].
Qed.

Lemma merge_metric_filled d metric :
  In metric (index T) ->
  incl (index df) (index d) ->
  filled_from T df d ->
  filled_from T df (merge_metric T d metric)
  /\ incl (index df) (index (merge_metric T d metric))
  /\ columns (merge_metric T d metric) = columns d.
Proof.
  intros Hm Hincl Inv. unfold merge_metric.
  destruct (negb (mem metric (index d))).
  - repeat split.
    + apply insert_row_filled; assumption.
    + unfold insert_row, index. simpl. rewrite map_app.
      intros x Hx. apply in_or_app. left. apply Hincl, Hx.
  - destruct (fill_cells_filled metric (columns T) Hm (incl_refl _) d Inv)
      as [Inv' [Hi Hc]].
    repeat split; [exact Inv' | rewrite Hi; exact Hincl | exact Hc].
Qed.

Lemma merge_metrics_filled metrics :
  incl metrics (index T) ->
  forall d,
    incl (index df) (index d) ->
    filled_from T df d ->
    filled_from T df (fold_left (merge_metric T) metrics d)
    /\ columns (fold_left (merge_metric T) metrics d) = columns d.
Proof.
  induction metrics as [|m metrics IH]; simpl; intros Hincl d Hsub Inv.
  - split; [exact Inv | reflexivity].
  - destruct (merge_metric_filled d m (Hincl m (or_introl eq_refl)) Hsub Inv)
      as [Inv' [Hsub' Hc]].
    destruct (IH (fun x Hx => Hincl x (or_intror Hx)) _ Hsub' Inv') as [Inv'' Hc'].
    split; [exact Inv'' | congruence].
Qed.

(** The merge changes a cell of the table only by filling it, missing or
    empty, from the template. *)
Lemma apply_template_filled :
  empty df = false -> filled_from T df (apply_template T df).
Proof.
  intros He. unfold apply_template. rewrite He.
  apply merge_metrics_filled; [apply incl_refl | apply incl_refl | apply filled_from_refl].
Qed.

End TemplateFacts.

(** C9, as it holds: template enrichment fills a cell only when the
    extracted cell is missing or empty.  For a table with distinct row
    labels that has a row and a column, every cell that holds a value
    keeps it; a cell that changes was missing or empty and takes the
    template's cell of the same metric and column; and the cells of rows
    or columns that the template does not have are unchanged. *)
Theorem template_never_overwrites
    (df : DataFrame) (company_name : string) (r c : string) (row : Series) :
  NoDup (index df) ->
  In (r, row) (rows df) ->
  In c (columns df) ->
  let out := apply_amd_template_if_needed df company_name in
  let T := create_amd_template_df in
  (isna (row c) = false -> is_empty_text (row c) = false -> at_ out r c = row c)
  /\ (at_ out r c <> row c ->
      (isna (row c) = true \/ is_empty_text (row c) = true)
      /\ In r (index T) /\ In c (columns T) /\ at_ out r c = at_ T r c)
  /\ (~ In r (index T) \/ ~ In c (columns T) -> at_ out r c = row c).
Proof.
  intros Hnd Hr Hc out T.
  assert (Hat : at_ df r c = row c) by (apply at_In; assumption).
  assert (Hne : empty df = false).
  { unfold empty. destruct (columns df); [contradiction|].
    destruct (rows df); [contradiction | reflexivity]. }
  assert (Inv : at_ out r c = row c
                \/ ((isna (row c) = true \/ is_empty_text (row c) = true)
                    /\ In r (index T) /\ In c (columns T)
                    /\ at_ out r c = at_ T r c
                    /\ is_empty_text (at_ T r c) = false)).
  { rewrite <- Hat. subst out. unfold apply_amd_template_if_needed.
    destruct (negb (is_amd_company company_name)); [left; reflexivity|].
    apply (apply_template_filled T df Hne).
    unfold index. apply (in_map fst) in Hr. exact Hr. }
  repeat split.
  - intros Hna Hemp. destruct Inv as [E | [[M | M] _]]; [exact E | congruence | congruence].
  - destruct Inv as [E | [M _]]; [contradiction | exact M].
  - destruct Inv as [E | [_ [Hi _]]]; [contradiction | exact Hi].
  - destruct Inv as [E | [_ [_ [Hi _]]]]; [contradiction | exact Hi].
  - destruct Inv as [E | [_ [_ [_ [Hi _]]]]]; [contradiction | exact Hi].
  - intros Hnot. destruct Inv as [E | [_ [Hi [Hj _]]]]; [exact E|].
    destruct Hnot as [Hnot | Hnot]; contradiction.
Qed.

(** The extracted [Revenue] of 99 under [2023] stays 99, where the
    template holds 22680. *)
Lemma template_never_overwrites_witness :
  at_ create_amd_template_df "Revenue" "2023" = Num 22680%float /\
  at_ (apply_amd_template_if_needed revenue_99 "AMD") "Revenue" "2023"
  = Num 99%float.
Proof.
  split; [reflexivity|].
  refine (proj1 (template_never_overwrites revenue_99 "AMD" "Revenue" "2023"
                   (row_of [("2023", Num 99%float)]) _ _ _) _ _).
  - repeat constructor. intros [].
  - left. reflexivity.
  - left. reflexivity.
  - reflexivity.
  - reflexivity.
Defined.

(** A table with a row and no column counts as empty ([df.empty]): for
    an AMD company it is replaced by the template, and its row [Backlog],
    which the template does not have, is not a row of the result. *)
Lemma template_replaces_table_without_columns :
  let df := backlog_without_columns in
  let out := apply_amd_template_if_needed df "AMD" in
  index df = ["Backlog"]
  /\ empty df = true
  /\ mem "Backlog" (index create_amd_template_df) = false
  /\ out = create_amd_template_df
  /\ mem "Backlog" (index out) = false.
Proof. repeat split. Qed.

(** ** Duplicate-row merger: unit-scale pairs *)

Section MergeFacts.

Variable p : params.
Variables merged current : Series.

(** When every column that both rows fill is a unit scale apart, the
    comparison never gives up, and asks for scaling as soon as there is
    such a column. *)
Lemma compare_rows_scale_apart cols scale :
  (forall col, In col cols ->
     isna (merged col) = false -> isna (current col) = false ->
     scale_apart p merged current col) ->
  compare_rows p cols merged current scale
  = mkVerdict true
      (scale || existsb (fun col => notna (merged col) && notna (current col)) cols).
Proof.
  revert scale. induction cols as [|col cols IH]; simpl; intros scale H.
  - rewrite orb_false_r. reflexivity.
  - unfold notna at 1 2.
    destruct (isna (merged col)) eqn:E1; simpl.
    { apply IH. intros c Hc. apply H. right. exact Hc. }
    destruct (isna (current col)) eqn:E2; simpl.
    { apply IH. intros c Hc. apply H. right. exact Hc. }
    destruct (H col (or_introl eq_refl) E1 E2) as [v1 [v2 [M [C [W U]]]]].
    rewrite M, C. simpl. rewrite W, U.
    rewrite IH; [| intros c Hc; apply H; right; exact Hc].
    rewrite orb_true_r. reflexivity.
Qed.

End MergeFacts.

(** ** Duplicate-row merger: the sum of a row *)

Lemma cut_point n :
  128 < n -> 0 < n / 2 - (n / 2) mod 8 < n.
Proof.
  intros H.
  assert (H1 : 64 <= n / 2) by (apply Nat.div_le_lower_bound; lia).
  assert (H2 : (n / 2) mod 8 < 8) by (apply Nat.mod_upper_bound; lia).
  assert (H3 : n / 2 < n) by (apply Nat.div_lt; lia).
  revert H1 H2 H3. generalize (n / 2). intros h H1.
  generalize (h mod 8). intros m H2 H3. lia.
Qed.

(** The bound on the number of cuts plays no part once it is at least
    the length of the array: [pairwise_sum (length a) a] is the sum that
    the recursion of the library reaches. *)
Lemma pairwise_sum_depth : forall d1 d2 a,
  length a <= d1 -> length a <= d2 -> pairwise_sum d1 a = pairwise_sum d2 a.
Proof.
  induction d1 as [|d1 IH]; intros d2 a H1 H2.
  - destruct a; [| simpl in H1; lia]. destruct d2; reflexivity.
  - destruct d2 as [|d2].
    + destruct a; [| simpl in H2; lia]. reflexivity.
    + cbn [pairwise_sum].
      destruct (Nat.ltb (length a) 8); [reflexivity|].
      destruct (Nat.leb (length a) 128) eqn:E; [reflexivity|].
      apply Nat.leb_gt in E. pose proof (cut_point (length a) E) as Hc.
      set (n2 := Nat.sub (Nat.div (length a) 2) (Nat.modulo (Nat.div (length a) 2) 8)) in *.
      rewrite (IH d2 (firstn n2 a)), (IH d2 (skipn n2 a));
        rewrite ?length_firstn, ?length_skipn; try lia.
      reflexivity.
Qed.

Lemma pairwise_sum_small d a :
  length a < 8 -> pairwise_sum d a = fold_left PrimFloat.add a (-0)%float.
Proof.
  intros H. apply Nat.ltb_lt in H.
  destruct d; cbn [pairwise_sum]; rewrite H; reflexivity.
Qed.

(** Fewer than eight columns are added from left to right. *)
Lemma row_sum_short cols row :
  length cols < 8 ->
  row_sum cols row
  = (0 + fold_left PrimFloat.add
           (map (fun c => let v := to_numeric (row c) in
                          if PrimFloat.is_nan v then 0 else v) cols)
           (-0))%float.
Proof.
  intros H. unfold row_sum. cbv zeta.
  rewrite pairwise_sum_small; [reflexivity|].
  rewrite length_map. exact H.
Qed.

(** From eight columns on the order is another one: ten cells, the first
    [1e16] and the others 1, add up to [1e16 + 8], where the sum from
    left to right is [1e16]. *)
Lemma row_sum_ten_columns :
  let cols := ["a"; "b"; "c"; "d"; "e"; "f"; "g"; "h"; "i"; "j"] in
  let row := fun c => if String.eqb c "a" then Num 1e16%float else Num 1%float in
  row_sum cols row = 10000000000000008%float
  /\ fold_left PrimFloat.add (map (fun c => to_numeric (row c)) cols) 0%float
     = 1e16%float.
Proof. split; vm_compute; reflexivity. Qed.

(** ** Duplicate-row merger: the merge by scaling *)

(** The accumulated row holds 1000 and the remark [n/a], the candidate
    holds 1: the only column that both fill is a unit scale apart and the
    accumulated row has the larger sum, yet its remark, a cell that was
    there, is missing after the merge. *)
Lemma scale_merge_loses_text_cell :
  let cols := ["2023"; "2024"] in
  let out := merge_candidate default_params cols row_thousand_remark ("X", row_one) in
  scale_apart default_params row_thousand_remark row_one "2023"
  /\ isna (row_one "2024") = true
  /\ PrimFloat.ltb (row_sum cols (numeric row_thousand_remark))
                   (row_sum cols (numeric row_one)) = false
  /\ snd out = None
  /\ isna (row_thousand_remark "2024") = false
  /\ isna (fst out "2024") = true
  /\ fst out "2024" <> row_thousand_remark "2024".
Proof.
  repeat split; try (vm_compute; reflexivity).
  - exists 1000%float, 1%float. repeat split; vm_compute; reflexivity.
  - vm_compute. discriminate.
Qed.

(** C1, as it holds: when the accumulated row and the candidate fill at
    least one common column and every column that both fill is a unit
    scale apart, the candidate is not quarantined and the new accumulated
    row is built on the row with the larger sum (the accumulated row on a
    tie), the sums being those of [row_sum], formed in the order in which
    [Series.sum] adds the cells: a number of that row is kept as it is,
    and a cell of that row that is missing or not a number takes the
    other row's number times [large_diff_target], or is missing when the
    other row holds no number there. *)
Theorem unit_scale_merge
    (p : params) (cols : list string) (merged current : Series) (name : string) :
  (exists col, In col cols /\ isna (merged col) = false /\ isna (current col) = false) ->
  (forall col, In col cols ->
     isna (merged col) = false -> isna (current col) = false ->
     scale_apart p merged current col) ->
  let swap := PrimFloat.ltb (row_sum cols (numeric merged))
                            (row_sum cols (numeric current)) in
  let large := if swap then current else merged in
  let small := if swap then merged else current in
  let out := merge_candidate p cols merged (name, current) in
  snd out = None
  /\ forall col,
       (forall v, large col = Num v -> PrimFloat.is_nan v = false ->
                  fst out col = Num v)
       /\ (PrimFloat.is_nan (to_numeric (large col)) = true ->
           fst out col =
             if PrimFloat.is_nan (to_numeric (small col) * large_diff_target p)
             then Num (to_numeric (large col))
             else Num (to_numeric (small col) * large_diff_target p)).
Proof.
  intros [col0 [Hin [H1 H2]]] Hall swap large small out.
  assert (Hv : compare_rows p cols merged current false = mkVerdict true true).
  { rewrite (compare_rows_scale_apart p merged current cols false Hall). simpl.
    f_equal. apply existsb_exists. exists col0. split; [exact Hin|].
    unfold notna. rewrite H1, H2. reflexivity. }
  assert (Hout : out = (fill_from_scaled (numeric large) (scale_row p (numeric small)), None)).
  { subst out. unfold merge_candidate. simpl snd. rewrite Hv. simpl.
    unfold merge_scaled. fold swap. subst large small.
    destruct swap; reflexivity. }
  rewrite Hout. simpl. split; [reflexivity|].
  intros col. unfold fill_from_scaled, numeric, scale_row. simpl. split.
  - intros v Hl Hnan. rewrite Hl. simpl. rewrite Hnan. reflexivity.
  - intros Hnan. rewrite Hnan. simpl.
    destruct (PrimFloat.is_nan (to_numeric (small col) * large_diff_target p));
      reflexivity.
Qed.

(** Rows 1 and 1000 under one column: the candidate is merged, and the
    accumulated row becomes the row of the candidate. *)
Lemma unit_scale_merge_witness :
  let out := merge_candidate default_params ["2023"] row_one ("X", row_of [("2023", Num 1000%float)]) in
  snd out = None /\ fst out "2023" = Num 1000%float.
Proof.
  pose proof (unit_scale_merge default_params ["2023"] row_one
                (row_of [("2023", Num 1000%float)]) "X") as H.
  destruct H as [Hq Hcells].
  - exists "2023". repeat split. left. reflexivity.
  - intros col [<- | []] _ _.
    exists 1%float, 1000%float. repeat split; vm_compute; reflexivity.
  - split; [exact Hq|].
    apply (proj1 (Hcells "2023") 1000%float); reflexivity.
Defined.

(** ** Suffix-row folder *)

Section FrameAlgebra.

Lemma find_row_None name rs :
  ~ In name (map fst rs) -> find_row name rs = None.
Proof.
  induction rs as [|[l r] rs IH]; simpl; [reflexivity|].
  intros H. destruct (String.eqb l name) eqn:E.
  - apply String.eqb_eq in E. exfalso. apply H. left. exact E.
  - apply IH. intros Hin. apply H. right. exact Hin.
Qed.

Lemma find_row_Some name rs r :
  find_row name rs = Some r -> In name (map fst rs).
Proof.
  induction rs as [|[l r'] rs IH]; simpl; [discriminate|].
  destruct (String.eqb l name) eqn:E.
  - intros _. left. apply String.eqb_eq, E.
  - intros H. right. apply IH, H.
Qed.

Lemma find_row_app_r name rs rs' :
  ~ In name (map fst rs) -> find_row name (rs ++ rs') = find_row name rs'.
Proof.
  induction rs as [|[l r] rs IH]; simpl; [reflexivity|].
  intros H. destruct (String.eqb l name) eqn:E.
  - apply String.eqb_eq in E. exfalso. apply H. left. exact E.
  - apply IH. intros Hin. apply H. right. exact Hin.
Qed.

Lemma find_row_map name (f : Series -> Series) rs :
  find_row name (map (fun lr => (fst lr, f (snd lr))) rs)
  = option_map f (find_row name rs).
Proof.
  induction rs as [|[l r] rs IH]; simpl; [reflexivity|].
  destruct (String.eqb l name); [reflexivity | exact IH].
Qed.

Lemma find_row_filter_ne name n rs :
  name <> n ->
  find_row name (filter (fun lr => negb (String.eqb (fst lr) n)) rs)
  = find_row name rs.
Proof.
  intros Hne. induction rs as [|[l r] rs IH]; simpl; [reflexivity|].
  destruct (String.eqb l n) eqn:E; simpl.
  - apply String.eqb_eq in E. subst l.
    destruct (String.eqb n name) eqn:E'; [| exact IH].
    apply String.eqb_eq in E'. congruence.
  - destruct (String.eqb l name); [reflexivity | exact IH].
Qed.

Lemma at_absent d r c : ~ In r (index d) -> at_ d r c = NA.
Proof.
  intros H. unfold at_, loc. rewrite find_row_None; [reflexivity | exact H].
Qed.

Lemma at_present_in_index d r c : isna (at_ d r c) = false -> In r (index d).
Proof.
  intros H. destruct (in_dec string_dec r (index d)) as [Hin | Hnot]; [exact Hin|].
  rewrite (at_absent _ _ _ Hnot) in H. discriminate.
Qed.

Lemma at_add_row d b r c : ~ In b (index d) -> at_ (add_row b d) r c = at_ d r c.
Proof.
  intros Hb. unfold at_, loc, add_row. simpl.
  destruct (in_dec string_dec r (index d)) as [Hin | Hnot].
  - rewrite find_row_app_l; [reflexivity | exact Hin].
  - rewrite find_row_app_r; [| exact Hnot].
    rewrite (find_row_None r (rows d) Hnot). simpl.
    destruct (String.eqb b r); reflexivity.
Qed.

Lemma at_add_column d t r c :
  at_ (add_column t d) r c = if String.eqb c t then NA else at_ d r c.
Proof.
  unfold at_, loc, add_column. simpl.
  rewrite (find_row_map r (fun row => set_cell row t NA)).
  destruct (find_row r (rows d)); simpl.
  - reflexivity.
  - destruct (String.eqb c t); reflexivity.
Qed.

Lemma at_drop_rows d n r c :
  at_ (drop_rows n d) r c = if String.eqb r n then NA else at_ d r c.
Proof.
  unfold at_, loc, drop_rows. simpl.
  destruct (String.eqb r n) eqn:E.
  - apply String.eqb_eq in E. subst r.
    rewrite find_row_None; [reflexivity|].
    intros Hin. apply in_map_iff in Hin as [[l x] [Hl Hx]]. simpl in Hl. subst l.
    apply filter_In in Hx as [_ Hx]. simpl in Hx.
    rewrite String.eqb_refl in Hx. discriminate.
  - rewrite find_row_filter_ne; [reflexivity|].
    intros ->. rewrite String.eqb_refl in E. discriminate.
Qed.

Lemma index_add_row d b : index (add_row b d) = (index d ++ [b])%list.
Proof. unfold index, add_row. simpl. rewrite map_app. reflexivity. Qed.

Lemma index_add_column d t : index (add_column t d) = index d.
Proof.
  unfold index, add_column. simpl. rewrite map_map. reflexivity.
Qed.

Lemma index_drop_rows d n :
  index (drop_rows n d) = filter (fun l => negb (String.eqb l n)) (index d).
Proof.
  unfold index, drop_rows. simpl.
  induction (rows d) as [|[l r] rs IH]; simpl; [reflexivity|].
  destruct (String.eqb l n); simpl; [exact IH | rewrite IH; reflexivity].
Qed.

Lemma NoDup_snoc (l : list string) x : NoDup l -> ~ In x l -> NoDup (l ++ [x]).
Proof.
  induction l as [|y l IH]; simpl; intros Hnd Hx.
  - constructor; [intros [] | constructor].
  - inversion Hnd as [|? ? Hy Hnd']; subst. constructor.
    + intros Hin. apply in_app_or in Hin as [Hin | [Hin | []]].
      * exact (Hy Hin).
      * apply Hx. left. symmetry. exact Hin.
    + apply IH; [exact Hnd' | intros Hin; apply Hx; right; exact Hin].
Qed.

End FrameAlgebra.

Section FoldCell.

Variable b : string.
Variable suf : suffix.
Variable row : Series.

Lemma folds_into_refl cols d : folds_into b suf row cols d d.
Proof.
  constructor; try (intros; auto; fail).
  - intros r Hr. exact Hr.
  - intros c Hc. exact Hc.
Qed.

Lemma folds_into_trans cols d d' d'' :
  folds_into b suf row cols d d' -> folds_into b suf row cols d' d'' ->
  folds_into b suf row cols d d''.
Proof.
  intros [i1 n1 nd1 c1 k1 o1 g1] [i2 n2 nd2 c2 k2 o2 g2]. constructor.
  - intros r Hr. apply i2, i1, Hr.
  - intros r Hr. destruct (n2 r Hr) as [H | H]; [apply n1, H | right; exact H].
  - intros H. apply nd2, nd1, H.
  - intros c Hc. apply c2, c1, Hc.
  - intros r c Hc Hp. rewrite <- (k1 r c Hc Hp).
    apply k2; [apply c1, Hc | rewrite (k1 r c Hc Hp); exact Hp].
  - intros r c Hr Hc. rewrite <- (o1 r c Hr Hc). apply o2; [exact Hr | apply c1, Hc].
  - intros r c Hc Hp. destruct (g2 r c Hc Hp) as [[Hc' E] | R]; [| right; exact R].
    rewrite E in Hp. destruct (g1 r c Hc' Hp) as [[Hc0 E0] | [Hb [col [Hin [Hm E0]]]]].
    + left. split; [exact Hc0 | congruence].
    + right. split; [exact Hb|]. exists col. repeat split; [exact Hin | exact Hm | congruence].
Qed.

Lemma folds_into_weaken cols cols' d d' :
  incl cols cols' -> folds_into b suf row cols d d' -> folds_into b suf row cols' d d'.
Proof.
  intros Hincl [i1 n1 nd1 c1 k1 o1 g1]. constructor; try assumption.
  intros r c Hc Hp. destruct (g1 r c Hc Hp) as [L | [Hb [col [Hin R]]]]; [left; exact L|].
  right. split; [exact Hb|]. exists col. split; [apply Hincl, Hin | exact R].
Qed.

Lemma add_row_folds cols d :
  ~ In b (index d) -> folds_into b suf row cols d (add_row b d).
Proof.
  intros Hb. constructor.
  - intros r Hr. rewrite index_add_row. apply in_or_app. left. exact Hr.
  - intros r Hr. rewrite index_add_row in Hr.
    apply in_app_or in Hr as [Hr | [Hr | []]]; [left; exact Hr | right; symmetry; exact Hr].
  - intros Hnd. rewrite index_add_row. apply NoDup_snoc; assumption.
  - intros c Hc. exact Hc.
  - intros r c _ _. apply at_add_row, Hb.
  - intros r c _ _. apply at_add_row, Hb.
  - intros r c Hc _. left. split; [exact Hc | apply at_add_row, Hb].
Qed.

Lemma add_column_folds cols d t :
  ~ In t (columns d) -> folds_into b suf row cols d (add_column t d).
Proof.
  intros Ht.
  assert (Hsame : forall r c, In c (columns d) -> at_ (add_column t d) r c = at_ d r c).
  { intros r c Hc. rewrite at_add_column.
    destruct (String.eqb c t) eqn:E; [| reflexivity].
    apply String.eqb_eq in E. subst c. contradiction. }
  constructor.
  - intros r Hr. rewrite index_add_column. exact Hr.
  - intros r Hr. rewrite index_add_column in Hr. left. exact Hr.
  - intros Hnd. rewrite index_add_column. exact Hnd.
  - intros c Hc. unfold add_column. simpl. apply in_or_app. left. exact Hc.
  - intros r c Hc _. apply Hsame, Hc.
  - intros r c _ Hc. apply Hsame, Hc.
  - intros r c Hc Hp. rewrite at_add_column in Hp.
    destruct (String.eqb c t) eqn:E; [discriminate|].
    left. unfold add_column in Hc. simpl in Hc.
    apply in_app_or in Hc as [Hc | [Hc | []]].
    + split; [exact Hc | apply Hsame, Hc].
    + subst c. rewrite String.eqb_refl in E. discriminate.
Qed.

Lemma set_at_folds d col t :
  moves_to suf row col t ->
  isna (at_ d b t) = true ->
  folds_into b suf row [col] d (set_at d b t (row col)).
Proof.
  intros Hm Hmiss.
  assert (Hsame : forall r c, (r <> b \/ isna (at_ d r c) = false) ->
                              at_ (set_at d b t (row col)) r c = at_ d r c).
  { intros r c H. rewrite at_set_at.
    destruct (String.eqb r b) eqn:E1; simpl; [| reflexivity].
    destruct (String.eqb c t) eqn:E2; simpl; [| reflexivity].
    apply String.eqb_eq in E1. apply String.eqb_eq in E2. subst r c.
    destruct H as [H | H]; [congruence | congruence]. }
  constructor.
  - intros r Hr. rewrite index_set_at. exact Hr.
  - intros r Hr. rewrite index_set_at in Hr. left. exact Hr.
  - intros Hnd. rewrite index_set_at. exact Hnd.
  - intros c Hc. exact Hc.
  - intros r c _ Hp. apply Hsame. right. exact Hp.
  - intros r c Hr _. apply Hsame. left. exact Hr.
  - intros r c Hc Hp. rewrite at_set_at in Hp |- *.
    destruct (String.eqb r b && String.eqb c t && mem b (index d)) eqn:E.
    + apply andb_prop in E as [E _]. apply andb_prop in E as [E1 E2].
      apply String.eqb_eq in E1. apply String.eqb_eq in E2. subst r c.
      right. split; [reflexivity|]. exists col. repeat split; [left; reflexivity | exact Hm].
    + left. split; [exact Hc | reflexivity].
Qed.

(** One column: the table after [fold_cell]. *)
Lemma fold_cell_folds d col :
  folds_into b suf row [col] d (fold_cell b suf row d col).
Proof.
  unfold fold_cell.
  destruct (_is_year_col col) as [[yyyy isF]|] eqn:Hy; [| apply folds_into_refl].
  destruct (isna (row col)) eqn:Hv; [apply folds_into_refl|].
  set (t := target_col suf yyyy isF).
  set (d1 := if mem b (index d) then d else add_row b d).
  set (d2 := if mem t (columns d1) then d1 else add_column t d1).
  assert (H1 : folds_into b suf row [col] d d1).
  { subst d1. destruct (mem b (index d)) eqn:E; [apply folds_into_refl|].
    apply add_row_folds. intros Hin. apply mem_In in Hin. congruence. }
  assert (H2 : folds_into b suf row [col] d1 d2).
  { subst d2. destruct (mem t (columns d1)) eqn:E; [apply folds_into_refl|].
    apply add_column_folds. intros Hin. apply mem_In in Hin. congruence. }
  apply (folds_into_trans _ _ d1); [exact H1|].
  apply (folds_into_trans _ _ d2); [exact H2|].
  destruct (isna (at_ d2 b t)) eqn:E; [| apply folds_into_refl].
  apply set_at_folds; [| exact E].
  exists yyyy, isF. repeat split; assumption.
Qed.

(** One column: the value it holds is in the target cell afterwards. *)
Lemma fold_cell_moves d col yyyy isF :
  _is_year_col col = Some (yyyy, isF) -> isna (row col) = false ->
  let d' := fold_cell b suf row d col in
  let t := target_col suf yyyy isF in
  In b (index d') /\ In t (columns d') /\ isna (at_ d' b t) = false.
Proof.
  intros Hy Hv. unfold fold_cell. rewrite Hy, Hv. cbv zeta.
  set (t := target_col suf yyyy isF).
  set (d1 := if mem b (index d) then d else add_row b d).
  set (d2 := if mem t (columns d1) then d1 else add_column t d1).
  assert (Hb1 : In b (index d1)).
  { subst d1. destruct (mem b (index d)) eqn:E; [apply mem_In, E|].
    rewrite index_add_row. apply in_or_app. right. left. reflexivity. }
  assert (Hb2 : In b (index d2)).
  { subst d2. destruct (mem t (columns d1)); [exact Hb1|].
    rewrite index_add_column. exact Hb1. }
  assert (Ht2 : In t (columns d2)).
  { subst d2. destruct (mem t (columns d1)) eqn:E; [apply mem_In, E|].
    unfold add_column. simpl. apply in_or_app. right. left. reflexivity. }
  destruct (isna (at_ d2 b t)) eqn:E.
  - repeat split; [rewrite index_set_at; exact Hb2 | exact Ht2 |].
    rewrite at_set_at, !String.eqb_refl. simpl.
    apply mem_In in Hb2. rewrite Hb2. exact Hv.
  - repeat split; assumption.
Qed.

(** All columns: the table after the loop, and every value of the row in
    its target cell. *)
Lemma fold_cells_folds cols :
  forall d,
    let d' := fold_left (fold_cell b suf row) cols d in
    folds_into b suf row cols d d'
    /\ forall col yyyy isF,
         In col cols -> _is_year_col col = Some (yyyy, isF) ->
         isna (row col) = false ->
         In b (index d') /\ In (target_col suf yyyy isF) (columns d')
         /\ isna (at_ d' b (target_col suf yyyy isF)) = false.
Proof.
  induction cols as [|col cols IH]; intros d; simpl.
  - split; [apply folds_into_refl | intros ? ? ? []].
  - destruct (IH (fold_cell b suf row d col)) as [Hf Hm]. split.
    + apply (folds_into_trans _ _ (fold_cell b suf row d col)).
      * apply (folds_into_weaken [col]); [| apply fold_cell_folds].
        intros x [<- | []]. left. reflexivity.
      * apply (folds_into_weaken cols); [| exact Hf].
        intros x Hx. right. exact Hx.
    + intros col' yyyy isF [<- | Hin] Hy Hv; [| apply (Hm col' yyyy isF Hin Hy Hv)].
      destruct (fold_cell_moves d col yyyy isF Hy Hv) as [Hb [Ht Hp]].
      destruct Hf as [i1 n1 nd1 c1 k1 o1 g1].
      repeat split; [apply i1, Hb | apply c1, Ht |].
      rewrite (k1 _ _ Ht Hp). exact Hp.
Qed.

End FoldCell.

Section FoldRows.

Variable df : DataFrame.
Hypothesis Hnames : NoDup (map name_of (work_rows df)).
Hypothesis Hnest :
  forall w w', In w (work_rows df) -> In w' (work_rows df) ->
               base_of w' <> name_of w.

Lemma in_filter_ne (r n : string) l :
  In r l -> r <> n -> In r (filter (fun x => negb (String.eqb x n)) l).
Proof.
  intros Hin Hne. apply filter_In. split; [exact Hin|].
  destruct (String.eqb r n) eqn:E; [| reflexivity].
  apply String.eqb_eq in E. contradiction.
Qed.

Lemma filter_ne_in (r n : string) l :
  In r (filter (fun x => negb (String.eqb x n)) l) -> In r l /\ r <> n.
Proof.
  intros H. apply filter_In in H as [Hin Hb]. split; [exact Hin|].
  intros ->. rewrite String.eqb_refl in Hb. discriminate.
Qed.

Lemma fold_row_eq d w :
  fold_row d w
  = drop_rows (name_of w)
      (fold_left (fold_cell (base_of w) (suffix_of w) (loc d (name_of w)))
                 (columns d) d).
Proof. destruct w as [[n base_raw] suf]. reflexivity. Qed.

(** One turn of the second loop keeps the invariant. *)
Lemma fold_row_inv done w todo d :
  work_rows df = (done ++ w :: todo)%list ->
  fold_inv df done (w :: todo) d ->
  fold_inv df (done ++ [w]) todo (fold_row d w).
Proof.
  intros HW [Ind Icol Itodo Idone Irows Ikeep Imoved Iorigin].
  assert (Hw : In w (work_rows df)).
  { rewrite HW. apply in_or_app. right. left. reflexivity. }
  assert (Hdone : forall w0, In w0 done -> In w0 (work_rows df)).
  { intros w0 H. rewrite HW. apply in_or_app. left. exact H. }
  assert (Htodo : forall w0, In w0 todo -> In w0 (work_rows df)).
  { intros w0 H. rewrite HW. apply in_or_app. right. right. exact H. }
  assert (Hall : forall w0, In w0 ((done ++ [w]) ++ todo)%list ->
                            In w0 (done ++ w :: todo)%list).
  { intros w0 H. rewrite <- List.app_assoc in H. exact H. }
  assert (Hall' : forall w0, In w0 (done ++ w :: todo)%list ->
                             In w0 ((done ++ [w]) ++ todo)%list).
  { intros w0 H. rewrite <- List.app_assoc. exact H. }
  assert (Htodo_ne : forall w0, In w0 todo -> name_of w0 <> name_of w).
  { intros w0 H E. rewrite HW, map_app in Hnames. simpl in Hnames.
    apply NoDup_remove_2 in Hnames. apply Hnames.
    apply in_or_app. right. rewrite <- E. apply in_map, H. }
  rewrite fold_row_eq.
  set (n := name_of w) in *.
  set (suf := suffix_of w) in *.
  set (b := base_of w) in *.
  assert (Hbn : b <> n) by (apply (Hnest w w Hw Hw)).
  set (row := loc d n).
  destruct (fold_cells_folds b suf row (columns d) d) as [Hf Hm].
  set (d1 := fold_left (fold_cell b suf row) (columns d) d) in *.
  destruct Hf as [i1 n1 nd1 c1 k1 o1 g1].
  assert (Hrow : forall c, In c (columns df) -> row c = at_ df n c).
  { intros c Hc. apply (proj2 (Itodo w (or_introl eq_refl)) c Hc). }
  constructor.
  - rewrite index_drop_rows. apply NoDup_filter, nd1, Ind.
  - intros c Hc. apply c1, Icol, Hc.
  - intros w0 H0. destruct (Itodo w0 (or_intror H0)) as [Hi Hc]. split.
    + rewrite index_drop_rows. apply in_filter_ne; [apply i1, Hi | apply Htodo_ne, H0].
    + intros c Hcc. rewrite at_drop_rows.
      destruct (String.eqb (name_of w0) n) eqn:E.
      { apply String.eqb_eq in E. exfalso. apply (Htodo_ne w0 H0). exact E. }
      rewrite o1; [apply Hc, Hcc | | apply Icol, Hcc].
      intros E'. apply (Hnest w0 w (Htodo w0 H0) Hw). symmetry. exact E'.
  - intros w0 H0 Hin. rewrite index_drop_rows in Hin.
    apply filter_ne_in in Hin as [Hin Hne].
    apply in_app_or in H0 as [H0 | [<- | []]]; [| apply Hne; reflexivity].
    destruct (n1 _ Hin) as [Hd | Hb]; [exact (Idone w0 H0 Hd)|].
    apply (Hnest w0 w (Hdone w0 H0) Hw). symmetry. exact Hb.
  - intros r Hr Hnot. rewrite index_drop_rows. apply in_filter_ne.
    + apply i1, Irows; [exact Hr|]. intros w0 H0. apply Hnot, Hall', H0.
    + intros ->. apply (Hnot w); [| reflexivity].
      apply in_or_app. left. apply in_or_app. right. left. reflexivity.
  - intros r c Hnot Hc Hp. rewrite at_drop_rows.
    destruct (String.eqb r n) eqn:E.
    { apply String.eqb_eq in E. subst r. exfalso. apply (Hnot w); [| reflexivity].
      apply in_or_app. left. apply in_or_app. right. left. reflexivity. }
    assert (Hd : at_ d r c = at_ df r c).
    { apply Ikeep; [| exact Hc | exact Hp]. intros w0 H0. apply Hnot, Hall', H0. }
    rewrite k1; [exact Hd | apply Icol, Hc | rewrite Hd; exact Hp].
  - intros w0 col yyyy isF H0 Hcol Hy Hp.
    assert (Hne : base_of w0 <> n).
    { apply in_app_or in H0 as [H0 | [<- | []]]; [| exact Hbn].
      apply (Hnest w w0 Hw (Hdone w0 H0)). }
    assert (Hd1 : In (base_of w0) (index d1)
                  /\ In (target_col (suffix_of w0) yyyy isF) (columns d1)
                  /\ isna (at_ d1 (base_of w0) (target_col (suffix_of w0) yyyy isF)) = false).
    { apply in_app_or in H0 as [H0 | [<- | []]].
      - destruct (Imoved w0 col yyyy isF H0 Hcol Hy Hp) as [Hb [Ht Hv]].
        repeat split; [apply i1, Hb | apply c1, Ht |].
        rewrite (k1 _ _ Ht Hv). exact Hv.
      - apply (Hm col yyyy isF); [apply Icol, Hcol | exact Hy |].
        rewrite (Hrow col Hcol). exact Hp. }
    destruct Hd1 as [Hb [Ht Hv]]. repeat split.
    + rewrite index_drop_rows. apply in_filter_ne; assumption.
    + exact Ht.
    + rewrite at_drop_rows.
      destruct (String.eqb (base_of w0) n) eqn:E; [| exact Hv].
      apply String.eqb_eq in E. contradiction.
  - intros r c Hc Hp. rewrite at_drop_rows in Hp |- *.
    destruct (String.eqb r n) eqn:E; [discriminate|].
    change (columns (drop_rows n d1)) with (columns d1) in Hc.
    destruct (g1 r c Hc Hp) as [[Hcd Ed] | [Hb [col [Hcol [Hmv Ed]]]]].
    + rewrite Ed in Hp |- *.
      destruct (Iorigin r c Hcd Hp) as [L | [w0 [col [H0 R]]]]; [left; exact L|].
      right. exists w0, col. split; [apply in_or_app; left; exact H0 | exact R].
    + destruct Hmv as [yyyy [isF [Hy [Ht Hv]]]].
      assert (Hv' : isna (at_ d n col) = false) by exact Hv.
      destruct (Iorigin n col Hcol Hv') as [[Hcdf Edf] | [w0 [col0 [H0 [_ [Hb0 _]]]]]].
      * right. exists w, col. repeat split.
        -- apply in_or_app. right. left. reflexivity.
        -- exact Hcdf.
        -- symmetry. exact Hb.
        -- exists yyyy, isF. repeat split; [exact Hy | exact Ht |].
           change (loc df (name_of w) col) with (at_ df n col).
           rewrite <- Edf. exact Hv'.
        -- rewrite Ed. exact Edf.
      * exfalso. apply (Hnest w w0 Hw (Hdone w0 H0)). exact Hb0.
Qed.

Lemma fold_rows_inv todo :
  forall done d,
    work_rows df = (done ++ todo)%list ->
    fold_inv df done todo d ->
    fold_inv df (done ++ todo) [] (fold_left fold_row todo d).
Proof.
  induction todo as [|w todo IH]; intros done d HW Inv; simpl.
  - rewrite List.app_nil_r. exact Inv.
  - replace (done ++ w :: todo)%list with ((done ++ [w]) ++ todo)%list
      by (rewrite <- List.app_assoc; reflexivity).
    apply IH.
    + rewrite <- List.app_assoc. exact HW.
    + apply fold_row_inv; assumption.
Qed.

Lemma work_rows_in_index w : In w (work_rows df) -> In (name_of w) (index df).
Proof.
  unfold work_rows. intros H. apply in_flat_map in H as [i [Hi Hw]].
  destruct (match_suffix_label (strip i)) as [[base_raw suf]|]; [| contradiction].
  destruct Hw as [<- | []]. exact Hi.
Qed.

Lemma fold_inv_start : NoDup (index df) -> fold_inv df [] (work_rows df) df.
Proof.
  intros Hnd. constructor.
  - exact Hnd.
  - intros c Hc. exact Hc.
  - intros w Hw. split; [apply work_rows_in_index, Hw | reflexivity].
  - intros w [].
  - intros r Hr _. exact Hr.
  - reflexivity.
  - intros w col yyyy isF [].
  - intros r c Hc _. left. split; [exact Hc | reflexivity].
Qed.

End FoldRows.

Lemma work_rows_names_NoDup df :
  NoDup (index df) -> NoDup (map name_of (work_rows df)).
Proof.
  unfold work_rows. induction (index df) as [|i l IH]; simpl; intros Hnd.
  - constructor.
  - inversion Hnd as [|? ? Hi Hl]; subst. rewrite map_app.
    destruct (match_suffix_label (strip i)) as [[base_raw suf]|]; simpl.
    + constructor; [| apply IH, Hl].
      intros Hin. apply in_map_iff in Hin as [w [Hn Hw]].
      apply in_flat_map in Hw as [j [Hj Hw]].
      destruct (match_suffix_label (strip j)) as [[b' s']|]; [| contradiction].
      destruct Hw as [Hw | []]. subst w. unfold name_of in Hn. simpl in Hn.
      rewrite Hn in Hj. exact (Hi Hj).
    + apply IH, Hl.
Qed.


(** A suffixed row that is the base of a later suffixed row is removed
    and then created again. *)
Lemma suffixed_row_created_again :
  map name_of (work_rows nested_suffix_rows) = ["X_FY"; "X_FY_MAR"]
  /\ index (fold_month_suffix_rows nested_suffix_rows) = ["X"; "X_FY"].
Proof. split; vm_compute; reflexivity. Qed.



Import Display Text Criteria.

(* ================================================================== *)
(** * Further properties of the period labels *)
(* ================================================================== *)

(** ** Blanks and letter case *)

Section StripFacts.

Lemma lstrip_starts_clean s : starts_clean (lstrip s) = true.
Proof.
  induction s as [|c s IH]; [reflexivity|].
  simpl. destruct (is_space c) eqn:E; [exact IH|]. simpl. rewrite E. reflexivity.
Qed.

Lemma lstrip_clean t : starts_clean t = true -> lstrip t = t.
Proof.
  destruct t as [|c t]; [reflexivity|]. simpl. intros H.
  destruct (is_space c); [discriminate | reflexivity].
Qed.

Lemma rstrip_starts_clean t : starts_clean t = true -> starts_clean (rstrip t) = true.
Proof.
  destruct t as [|c t]; [reflexivity|]. simpl. intros H.
  destruct (is_space c) eqn:E; [discriminate|].
  rewrite andb_false_r. simpl. rewrite E. reflexivity.
Qed.

Lemma rstrip_rstrip s : rstrip (rstrip s) = rstrip s.
Proof.
  induction s as [|c s IH]; [reflexivity|].
  simpl. destruct (is_empty (rstrip s) && is_space c) eqn:E; [reflexivity|].
  simpl. rewrite IH, E. reflexivity.
Qed.

(** [strip] is idempotent. *)
Lemma strip_strip s : strip (strip s) = strip s.
Proof.
  unfold strip.
  rewrite (lstrip_clean (rstrip (lstrip s)))
    by (apply rstrip_starts_clean, lstrip_starts_clean).
  apply rstrip_rstrip.
Qed.

Lemma lstrip_strip s : lstrip (strip s) = strip s.
Proof.
  unfold strip. apply lstrip_clean, rstrip_starts_clean, lstrip_starts_clean.
Qed.

Lemma rstrip_strip s : rstrip (strip s) = strip s.
Proof. unfold strip. apply rstrip_rstrip. Qed.

Variable f : ascii -> ascii.
Hypothesis f_space : forall c, is_space (f c) = is_space c.

Lemma lstrip_smap s : lstrip (smap f s) = smap f (lstrip s).
Proof.
  induction s as [|c s IH]; [reflexivity|].
  simpl. rewrite f_space. destruct (is_space c); [exact IH | reflexivity].
Qed.

Lemma is_empty_smap s : is_empty (smap f s) = is_empty s.
Proof. destruct s; reflexivity. Qed.

Lemma rstrip_smap s : rstrip (smap f s) = smap f (rstrip s).
Proof.
  induction s as [|c s IH]; [reflexivity|].
  simpl. rewrite IH, is_empty_smap, f_space.
  destruct (is_empty (rstrip s) && is_space c); reflexivity.
Qed.

Lemma strip_smap s : strip (smap f s) = smap f (strip s).
Proof. unfold strip. rewrite lstrip_smap, rstrip_smap. reflexivity. Qed.

End StripFacts.

Lemma to_upper_space c : is_space (to_upper c) = is_space c.
Proof. ascii_cases c. Qed.

Lemma to_lower_space c : is_space (to_lower c) = is_space c.
Proof. ascii_cases c. Qed.

Lemma to_upper_upper c : to_upper (to_upper c) = to_upper c.
Proof. ascii_cases c. Qed.

Lemma to_upper_lower c : to_upper (to_lower c) = to_upper c.
Proof. ascii_cases c. Qed.

Lemma smap_smap f g s : smap f (smap g s) = smap (fun c => f (g c)) s.
Proof. induction s as [|c s IH]; simpl; [| rewrite IH]; reflexivity. Qed.

Lemma smap_ext f g s : (forall c, f c = g c) -> smap f s = smap g s.
Proof. intros H. induction s as [|c s IH]; simpl; [| rewrite IH, H]; reflexivity. Qed.

Lemma prepare_upper x : prepare (upper x) = prepare x.
Proof.
  unfold prepare, upper.
  rewrite (strip_smap to_upper to_upper_space), smap_smap.
  rewrite (smap_ext _ to_upper (strip x) to_upper_upper). reflexivity.
Qed.

Lemma prepare_lower x : prepare (lower x) = prepare x.
Proof.
  unfold prepare, upper, lower.
  rewrite (strip_smap to_lower to_lower_space), smap_smap.
  rewrite (smap_ext _ to_upper (strip x) to_upper_lower). reflexivity.
Qed.

Lemma prepare_strip x : prepare (strip x) = prepare x.
Proof. unfold prepare. rewrite strip_strip. reflexivity. Qed.

(** The period normaliser reads a label without regard to the case of
    its letters and to blanks around it: the label in capitals, in small
    letters or stripped is normalised like the label itself. *)
Theorem normalize_ignores_case_and_margin (x : string) :
  normalize_period_label_str (upper x) = normalize_period_label_str x
  /\ normalize_period_label_str (lower x) = normalize_period_label_str x
  /\ normalize_period_label_str (strip x) = normalize_period_label_str x.
Proof.
  unfold normalize_period_label_str.
  rewrite prepare_upper, prepare_lower, prepare_strip. repeat split.
Qed.

(** ** Month labels *)

Lemma month_names mon qn :
  _MONTH_TO_Q mon = Some qn ->
  forall_chars is_upper mon = true /\ String.length mon = 3.
Proof.
  unfold _MONTH_TO_Q.
  repeat (match goal with
          | |- context [String.eqb mon ?b] =>
              destruct (String.eqb_spec mon b) as [-> | _]
          end; [intros _; split; reflexivity|]).
  discriminate.
Qed.

Lemma upper_plain_char c : is_upper c = true -> plain c = true.
Proof. ascii_cases c. Qed.

Lemma upper_not_digit c : is_upper c = true -> is_digit c = false.
Proof. ascii_cases c. Qed.

Lemma upper_not_q c : is_upper c = true -> is_q c = false.
Proof. ascii_cases c. Qed.

Lemma digit_not_L c : is_digit c = true -> Ascii.eqb c "L" = false.
Proof. ascii_cases c. Qed.

Lemma dash_slash_cases c :
  is_dash_slash c = true -> c = "-"%char \/ c = "/"%char.
Proof.
  unfold is_dash_slash. intros H. apply orb_prop in H as [H | H];
    apply Ascii.eqb_eq in H; auto.
Qed.

Lemma match_quarter_not_q c r : is_q c = false -> match_quarter (String c r) = None.
Proof.
  intros H. unfold match_quarter. rewrite H.
  destruct r as [|c2 r]; [reflexivity|].
  destruct c2 as [[] [] [] [] [] [] [] []]; reflexivity.
Qed.

Lemma drop_app_last k : forall s c,
  k <= String.length s ->
  drop k (s ++ String c "") = drop k s ++ String c "".
Proof.
  induction k as [|k IH]; intros s c H; [destruct s; reflexivity|].
  destruct s as [|a s]; simpl in H; [lia|].
  simpl. apply IH. lia.
Qed.

(** A label whose last character is not [L] does not end with [ACTUAL]. *)
Lemma endswith_ACTUAL_last s c :
  Ascii.eqb c "L" = false -> endswith (s ++ String c "") "ACTUAL" = false.
Proof.
  intros Hc. unfold endswith.
  destruct (String.eqb (drop (String.length (s ++ String c "") - String.length "ACTUAL")
                             (s ++ String c "")) "ACTUAL") eqn:E;
    [| apply andb_false_r].
  apply String.eqb_eq in E.
  rewrite drop_app_last in E by (rewrite length_append; simpl; lia).
  remember (drop (String.length (s ++ String c "") - String.length "ACTUAL") s) as t eqn:Et.
  clear Et. exfalso.
  destruct t as [|a1 [|a2 [|a3 [|a4 [|a5 [|a6 [|a7 t]]]]]]]; simpl in E; try discriminate.
  inversion E. subst c. discriminate.
Qed.

Lemma last_char p s :
  s <> "" -> forall_chars p s = true ->
  exists s' c, s = s' ++ String c "" /\ p c = true.
Proof.
  induction s as [|a s IH]; [congruence|]. intros _ H.
  simpl in H. apply andb_prop in H as [Ha Hs].
  destruct s as [|b s].
  - exists "", a. split; [reflexivity | exact Ha].
  - destruct IH as [s' [c [E Hc]]]; [discriminate | exact Hs |].
    exists (String a s'), c. simpl. rewrite <- E. split; [reflexivity | exact Hc].
Qed.

Lemma append_assoc (a b c : string) : (a ++ b) ++ c = a ++ (b ++ c).
Proof. induction a as [|x a IH]; simpl; [| rewrite IH]; reflexivity. Qed.

Section MonthLabel.

Variables (mon : string) (sep : ascii) (y : string) (qn : N).
Hypothesis Hmon : _MONTH_TO_Q mon = Some qn.
Hypothesis Hsep : is_dash_slash sep = true.
Hypothesis Hy : forall_chars is_digit y = true.
Hypothesis Hlen : 2 <= String.length y <= 4.


Lemma month_label_prepared : prepare (mon ++ String sep y) = (mon ++ String sep y).
Proof.
  destruct (month_names mon qn Hmon) as [Hu Hl].
  unfold prepare.
  assert (Hp : forall_chars plain (mon ++ String sep y) = true).
  { rewrite forall_chars_app.
    rewrite (forall_chars_impl is_upper plain mon upper_plain_char Hu).
    simpl. rewrite (forall_chars_impl is_digit plain y digit_plain Hy).
    destruct (dash_slash_cases sep Hsep) as [-> | ->]; reflexivity. }
  rewrite (clean_plain _ Hp).
  destruct (last_char is_digit y) as [y' [d [E Hd]]];
    [destruct y; [simpl in Hlen; lia | discriminate] | exact Hy |].
  rewrite E.
  change (mon ++ String sep (y' ++ String d "")) with (mon ++ (String sep y') ++ String d "").
  rewrite <- append_assoc.
  rewrite (endswith_ACTUAL_last _ d (digit_not_L d Hd)). reflexivity.
Qed.

Lemma month_first_upper : exists a r, mon = String a r /\ is_upper a = true.
Proof.
  destruct (month_names mon qn Hmon) as [Hu Hl].
  destruct mon as [|a r]; [discriminate|]. simpl in Hu.
  apply andb_prop in Hu as [Ha _]. exists a, r. split; [reflexivity | exact Ha].
Qed.

Lemma month_label_no_month_year : match_month_year (mon ++ String sep y) = None.
Proof.
  destruct month_first_upper as [a [r [E Ha]]]. rewrite E.
  unfold match_month_year, digits_between. cbn [append span].
  rewrite (upper_not_digit a Ha). reflexivity.
Qed.

Lemma month_label_no_quarter : match_quarter (mon ++ String sep y) = None.
Proof.
  destruct month_first_upper as [a [r [E Ha]]]. rewrite E.
  cbn [append]. apply match_quarter_not_q, upper_not_q, Ha.
Qed.

Lemma month_label_exactly : exactly 3 is_upper (mon ++ String sep y) = Some (mon, String sep y).
Proof.
  destruct (month_names mon qn Hmon) as [Hu Hl].
  rewrite <- Hl. apply exactly_app, Hu.
Qed.

Lemma month_label_no_mon_yy_q : match_mon_yy_q (mon ++ String sep y) = None.
Proof.
  unfold match_mon_yy_q. rewrite month_label_exactly.
  destruct (dash_slash_cases sep Hsep) as [-> | ->]; [| reflexivity].
  destruct y as [|d1 [|d2 [|d3 [|d4 [|d5 r]]]]]; simpl in Hlen; try lia;
    simpl in Hy;
    repeat match goal with
           | H : _ && _ = true |- _ => apply andb_prop in H as [? H]
           end.
  - cbn [exactly]. rewrite H, H0. reflexivity.
  - cbn [exactly]. rewrite H, H0. reflexivity.
  - cbn [exactly]. rewrite H, H0.
    clear - H2. destruct d4 as [[] [] [] [] [] [] [] []]; try reflexivity;
      vm_compute in H2; discriminate.
Qed.

Lemma month_label_mon_year : match_mon_year (mon ++ String sep y) = Some (mon, y).
Proof.
  unfold match_mon_year. rewrite month_label_exactly, Hsep.
  rewrite <- (append_nil y) at 1.
  rewrite (digits_between_app 2 4 y "" Hy eq_refl).
  replace ((2 <=? String.length y) && (String.length y <=? 4)) with true; [reflexivity|].
  symmetry. apply andb_true_intro. split; apply Nat.leb_le; lia.
Qed.

Lemma month_label_value :
  normalize_period_label_str (mon ++ String sep y)
  = str_of_N qn ++ "Q" ++ str_of_N (int (_to_yyyy y))
      ++ (if _is_future_quarter (int (_to_yyyy y)) qn then "F" else "").
Proof.
  unfold normalize_period_label_str.
  rewrite month_label_prepared, month_label_no_month_year, month_label_no_quarter,
    month_label_no_mon_yy_q, month_label_mon_year, Hmon.
  reflexivity.
Qed.

End MonthLabel.

(** A month label [MON-Y] or [MON/Y] (a month name in capitals, a year of
    two to four digits that does not start with a zero unless it has two
    digits) is normalised to the quarter of the month followed by the
    year as [_to_yyyy] gives it (a year of two digits is written [20yy],
    a year of three or four digits stays as it is: [MAR-123] gives
    [1Q123]), and carries the forecast mark exactly when that quarter
    lies after the last reported one. *)
Theorem month_label_becomes_quarter
    (mon : string) (sep : ascii) (y : string) (qn : N) :
  _MONTH_TO_Q mon = Some qn ->
  is_dash_slash sep = true ->
  forall_chars is_digit y = true ->
  2 <= String.length y <= 4 ->
  (String.length y = 2 \/ startswith y "0" = false) ->
  normalize_period_label_str (mon ++ String sep y)
  = str_of_N qn ++ "Q" ++ _to_yyyy y
      ++ (if _is_future_quarter (int (_to_yyyy y)) qn then "F" else "").
Proof.
  intros Hmon Hsep Hy Hlen Hz.
  rewrite (month_label_value mon sep y qn Hmon Hsep Hy Hlen).
  assert (E : str_of_N (int (_to_yyyy y)) = _to_yyyy y).
  { destruct (Nat.eq_dec (String.length y) 2) as [H2 | H2].
    - rewrite (to_yyyy_short y Hy H2).
      apply str_int_digits; [simpl; exact Hy | reflexivity].
    - rewrite (to_yyyy_long y Hy H2).
      destruct Hz as [Hz | Hz]; [contradiction|].
      destruct y as [|c r]; [simpl in Hlen; lia|].
      apply str_int_digits; [exact Hy|].
      rewrite Ascii.eqb_sym. destruct r; simpl in Hz;
        rewrite andb_true_r in Hz; exact Hz. }
  rewrite E. reflexivity.
Qed.

Lemma month_label_becomes_quarter_witness :
  normalize_period_label_str "SEP/2025" = "3Q2025F"
  /\ normalize_period_label_str "JUN-25" = "2Q2025".
Proof.
  split.
  - apply (month_label_becomes_quarter "SEP" "/" "2025" 3%N);
      [reflexivity | reflexivity | reflexivity | simpl; lia | right; reflexivity].
  - apply (month_label_becomes_quarter "JUN" "-" "25" 2%N);
      [reflexivity | reflexivity | reflexivity | simpl; lia | left; reflexivity].
Defined.

(** ** Canonical labels *)

(** Every label that some rule recognises, a month label whose year of
    three or four digits starts with a zero apart, is normalised to a
    canonical label: a year on four digits or a quarter [qQ] with a year
    of three or four digits, each with or without the mark [F]. *)
Theorem recognized_label_becomes_canonical (x : string) :
  recognized x = true ->
  zero_padded_month_year (prepare x) = false ->
  canonical_year (normalize_period_label_str x)
  \/ canonical_quarter (normalize_period_label_str x).
Proof. exact (normalize_canonical x). Qed.

Lemma recognized_label_becomes_canonical_witness :
  canonical_year (normalize_period_label_str "fy2024e")
  \/ canonical_quarter (normalize_period_label_str "fy2024e").
Proof.
  apply (recognized_label_becomes_canonical "fy2024e"); reflexivity.
Defined.

(** A canonical label is a fixed point of the normaliser. *)
Theorem canonical_label_unchanged (o : string) :
  canonical_year o \/ canonical_quarter o ->
  normalize_period_label_str o = o.
Proof.
  intros [[y [m [-> [Hy [Hl Hm]]]]] | [q [y [m [-> [Hq [Hy [Hl Hm]]]]]]]].
  - apply canon_year_fixed; assumption.
  - apply canon_quarter_fixed; assumption.
Qed.

Lemma canonical_label_unchanged_witness :
  normalize_period_label_str "3Q2025F" = "3Q2025F".
Proof.
  apply (canonical_label_unchanged "3Q2025F").
  right. exists "3"%char, "2025", "F".
  repeat split; [simpl; lia | simpl; lia | right; reflexivity].
Defined.

(** Normalising a recognised label twice is normalising it once, the
    month labels whose year of three or four digits starts with a zero
    apart. *)
Theorem normalize_twice_recognized (x : string) :
  recognized x = true ->
  zero_padded_month_year (prepare x) = false ->
  normalize_period_label_str (normalize_period_label_str x)
  = normalize_period_label_str x.
Proof.
  intros Hr Hz. apply normalize_idempotent_unless_zero_padded; assumption.
Qed.

Lemma normalize_twice_recognized_witness :
  normalize_period_label_str (normalize_period_label_str "dec-25 1q e")
  = normalize_period_label_str "dec-25 1q e".
Proof.
  apply (normalize_twice_recognized "dec-25 1q e"); reflexivity.
Defined.

(* ================================================================== *)
(** * The labels of the long-form reshape and of the display *)
(* ================================================================== *)

(** ** The cleaning step [strip().upper().replace(" ", "")] *)

Lemma sfilter_sfilter p s : sfilter p (sfilter p s) = sfilter p s.
Proof.
  induction s as [|c s IH]; [reflexivity|].
  simpl. destruct (p c) eqn:E; [simpl; rewrite E, IH; reflexivity | exact IH].
Qed.

Lemma upper_remove_spaces_upper s :
  upper (remove_spaces (upper s)) = remove_spaces (upper s).
Proof.
  unfold upper, remove_spaces.
  induction s as [|c s IH]; [reflexivity|].
  simpl. destruct (negb (Ascii.eqb (to_upper c) " ")); [| exact IH].
  simpl. rewrite to_upper_upper, IH. reflexivity.
Qed.

Lemma not_space_not_blank c : is_space c = false -> negb (Ascii.eqb (to_upper c) " ") = true.
Proof. ascii_cases c. Qed.

Lemma lstrip_remove_spaces_upper t :
  starts_clean t = true -> starts_clean (remove_spaces (upper t)) = true.
Proof.
  destruct t as [|c t]; [reflexivity|]. simpl. intros H.
  apply negb_true_iff in H.
  unfold remove_spaces, upper. simpl. rewrite (not_space_not_blank c H).
  simpl. rewrite to_upper_space, H. reflexivity.
Qed.

Lemma rstrip_fixed_nonempty t :
  rstrip t = t -> t <> "" -> is_empty (remove_spaces (upper t)) = false.
Proof.
  induction t as [|c t IH]; [congruence|]. intros H _.
  simpl in H.
  destruct (is_empty (rstrip t) && is_space c) eqn:E; [discriminate|].
  injection H as H.
  unfold remove_spaces, upper. simpl.
  destruct (negb (Ascii.eqb (to_upper c) " ")) eqn:K; [reflexivity|].
  destruct t as [|b t].
  - simpl in E. rewrite (not_space_not_blank c E) in K. discriminate.
  - apply IH; [exact H | discriminate].
Qed.

Lemma rstrip_remove_spaces_upper t :
  rstrip t = t -> rstrip (remove_spaces (upper t)) = remove_spaces (upper t).
Proof.
  induction t as [|c t IH]; [reflexivity|]. intros H.
  simpl in H.
  destruct (is_empty (rstrip t) && is_space c) eqn:E; [discriminate|].
  injection H as H. specialize (IH H).
  unfold remove_spaces, upper in *. simpl.
  destruct (negb (Ascii.eqb (to_upper c) " ")) eqn:K; [| exact IH].
  simpl. rewrite IH.
  assert (Hc : is_empty (sfilter (fun c0 => negb (Ascii.eqb c0 " ")) (smap to_upper t))
               && is_space (to_upper c) = false).
  { rewrite to_upper_space. destruct (is_space c) eqn:S; [| apply andb_false_r].
    rewrite andb_true_r in E. rewrite H in E.
    destruct t as [|b t]; [discriminate|].
    rewrite andb_true_r.
    apply (rstrip_fixed_nonempty (String b t) H). discriminate. }
  rewrite Hc. reflexivity.
Qed.

(** The cleaning step is idempotent. *)
Lemma clean_clean x :
  let c := remove_spaces (upper (strip x)) in
  remove_spaces (upper (strip c)) = c.
Proof.
  intros c.
  assert (Hs : strip c = c).
  { unfold c, strip at 1.
    rewrite lstrip_clean
      by (apply lstrip_remove_spaces_upper; unfold strip;
          apply rstrip_starts_clean, lstrip_starts_clean).
    apply rstrip_remove_spaces_upper, rstrip_strip. }
  rewrite Hs. unfold c. rewrite upper_remove_spaces_upper.
  apply sfilter_sfilter.
Qed.

(** ** [normalize_period] *)

Lemma contains_digits_F y : forall_chars is_digit y = true -> contains y "F" = false.
Proof.
  induction y as [|c y IH]; [reflexivity|]. intros H.
  simpl in H. apply andb_prop in H as [Hc Hy].
  cbn [contains startswith]. rewrite (digit_not_F c Hc), (IH Hy).
  reflexivity.
Qed.

Lemma contains_F_last y : contains (y ++ "F") "F" = true.
Proof.
  induction y as [|c y IH]; [reflexivity|].
  cbn [append contains]. rewrite IH. apply orb_true_r.
Qed.

Lemma expand_year_digits y :
  forall_chars is_digit y = true -> 2 <= String.length y <= 4 ->
  forall_chars is_digit (expand_year y) = true
  /\ 3 <= String.length (expand_year y) <= 4.
Proof.
  intros H Hl. unfold expand_year.
  destruct (String.length y =? 2) eqn:E.
  - apply Nat.eqb_eq in E. simpl. rewrite H, E. split; [reflexivity | lia].
  - apply Nat.eqb_neq in E. split; [exact H | lia].
Qed.

Lemma expand_year_long y : 3 <= String.length y -> expand_year y = y.
Proof.
  intros H. unfold expand_year.
  destruct (String.length y =? 2) eqn:E; [| reflexivity].
  apply Nat.eqb_eq in E. lia.
Qed.

Lemma between_2_4 y :
  2 <= String.length y <= 4 ->
  (2 <=? String.length y) && (String.length y <=? 4) = true.
Proof. intros H. apply andb_true_intro. split; apply Nat.leb_le; lia. Qed.

(** [normalize_period] in terms of the recognisers. *)
Lemma normalize_period_eq x :
  normalize_period x =
  let x' := remove_spaces (upper (strip x)) in
  match match_sort_quarter x' with
  | Some (q, y) => String q ("Q" ++ expand_year y ++ "F")
  | None =>
      match
        match digits_between 2 4 x' with
        | Some (y, r1) => if opt_F_end r1 then Some y else None
        | None => None
        end
      with
      | Some y => if contains x' "F" then expand_year y ++ "F" else expand_year y
      | None => x'
      end
  end.
Proof. reflexivity. Qed.

Lemma match_sort_quarter_spec s q y :
  match_sort_quarter s = Some (q, y) ->
  is_q q = true /\ forall_chars is_digit y = true /\ 2 <= String.length y <= 4.
Proof.
  unfold match_sort_quarter.
  destruct s as [|q' [|c r]]; try discriminate.
  destruct c as [[] [] [] [] [] [] [] []]; try discriminate.
  destruct (is_q q') eqn:Hq; [| discriminate].
  destruct (digits_between 2 4 r) as [[y' r1]|] eqn:Hd; [| discriminate].
  destruct (opt_F_end r1); [| discriminate].
  intros [= <- <-].
  destruct (digits_between_spec _ _ _ _ _ Hd) as [_ [Hy Hl]].
  repeat split; try assumption; lia.
Qed.

Lemma match_sort_quarter_value q y m :
  is_q q = true -> forall_chars is_digit y = true ->
  2 <= String.length y <= 4 -> (m = "" \/ m = "F") ->
  match_sort_quarter (String q (String "Q" (y ++ m))) = Some (q, y).
Proof.
  intros Hq Hy Hl Hm. unfold match_sort_quarter. rewrite Hq.
  rewrite (digits_between_app 2 4 y m Hy (no_digit_ahead_suffix m Hm)).
  rewrite (between_2_4 y Hl).
  destruct Hm as [-> | ->]; reflexivity.
Qed.

Lemma quarter_plain q y m :
  is_q q = true -> forall_chars is_digit y = true -> (m = "" \/ m = "F") ->
  forall_chars plain (String q (String "Q" (y ++ m))) = true.
Proof.
  intros Hq Hy Hm. simpl. rewrite (digit_plain q (q_digit q Hq)). simpl.
  rewrite forall_chars_app, (forall_chars_impl is_digit plain y digit_plain Hy).
  destruct Hm as [-> | ->]; reflexivity.
Qed.

Lemma year_plain y m :
  forall_chars is_digit y = true -> (m = "" \/ m = "F") ->
  forall_chars plain (y ++ m) = true.
Proof.
  intros Hy Hm.
  rewrite forall_chars_app, (forall_chars_impl is_digit plain y digit_plain Hy).
  destruct Hm as [-> | ->]; reflexivity.
Qed.

Lemma normalize_period_quarter_value q y m :
  is_q q = true -> forall_chars is_digit y = true ->
  2 <= String.length y <= 4 -> (m = "" \/ m = "F") ->
  normalize_period (String q (String "Q" (y ++ m)))
  = String q (String "Q" (expand_year y ++ "F")).
Proof.
  intros Hq Hy Hl Hm. rewrite normalize_period_eq. cbv zeta.
  rewrite (clean_plain _ (quarter_plain q y m Hq Hy Hm)).
  rewrite (match_sort_quarter_value q y m Hq Hy Hl Hm). reflexivity.
Qed.

Lemma second_digit_no_quarter d1 d2 r :
  is_digit d2 = true -> match_sort_quarter (String d1 (String d2 r)) = None.
Proof.
  intros H. unfold match_sort_quarter.
  destruct d2 as [[] [] [] [] [] [] [] []]; try reflexivity;
    vm_compute in H; discriminate.
Qed.

Lemma year_no_sort_quarter y m :
  forall_chars is_digit y = true -> 2 <= String.length y ->
  match_sort_quarter (y ++ m) = None.
Proof.
  intros Hy Hl. destruct y as [|d1 [|d2 r]]; simpl in Hl; try lia.
  simpl in Hy. apply andb_prop in Hy as [_ Hy]. apply andb_prop in Hy as [H2 _].
  apply second_digit_no_quarter, H2.
Qed.

Lemma normalize_period_year_value y m :
  forall_chars is_digit y = true ->
  2 <= String.length y <= 4 -> (m = "" \/ m = "F") ->
  normalize_period (y ++ m) = expand_year y ++ m.
Proof.
  intros Hy Hl Hm. rewrite normalize_period_eq. cbv zeta.
  rewrite (clean_plain _ (year_plain y m Hy Hm)).
  rewrite (year_no_sort_quarter y m Hy) by lia.
  rewrite (digits_between_app 2 4 y m Hy (no_digit_ahead_suffix m Hm)).
  rewrite (between_2_4 y Hl).
  destruct Hm as [-> | ->]; simpl.
  - rewrite append_nil, (contains_digits_F y Hy), append_nil. reflexivity.
  - rewrite contains_F_last. reflexivity.
Qed.

(** [normalize_period] writes the year of an annual label as
    [expand_year] gives it (a year of two digits is written [20yy], a
    year of three or four digits stays as it is) and keeps the label's
    forecast mark as it is: unlike a quarter, a year without [F] stays
    without it. *)
Theorem normalize_period_year_keeps_mark (y : string) :
  forall_chars is_digit y = true ->
  2 <= String.length y <= 4 ->
  normalize_period y = expand_year y
  /\ normalize_period (y ++ "F") = expand_year y ++ "F".
Proof.
  intros Hy Hl. split.
  - rewrite <- (append_nil y) at 1. rewrite <- (append_nil (expand_year y)).
    apply normalize_period_year_value; auto.
  - apply normalize_period_year_value; auto.
Qed.

Lemma normalize_period_year_keeps_mark_witness :
  normalize_period "24" = "2024" /\ normalize_period "24F" = "2024F".
Proof.
  apply (normalize_period_year_keeps_mark "24"); [reflexivity | simpl; lia].
Defined.

(** [normalize_period] is idempotent on every label. *)
Theorem normalize_period_idempotent (x : string) :
  normalize_period (normalize_period x) = normalize_period x.
Proof.
  rewrite (normalize_period_eq x). cbv zeta.
  pose proof (clean_clean x) as Hc. cbv zeta in Hc.
  set (c := remove_spaces (upper (strip x))) in *.
  destruct (match_sort_quarter c) as [[q y]|] eqn:Hq.
  - destruct (match_sort_quarter_spec c q y Hq) as [Hq' [Hy Hl]].
    destruct (expand_year_digits y Hy Hl) as [Hy' Hl'].
    change (String q ("Q" ++ expand_year y ++ "F"))
      with (String q (String "Q" (expand_year y ++ "F"))).
    rewrite (normalize_period_quarter_value q (expand_year y) "F" Hq' Hy')
      by (try lia; auto).
    rewrite (expand_year_long (expand_year y)) by lia. reflexivity.
  - destruct (digits_between 2 4 c) as [[y r1]|] eqn:Hd.
    + destruct (opt_F_end r1) eqn:Hf.
      * destruct (digits_between_spec _ _ _ _ _ Hd) as [_ [Hy Hl]].
        destruct (expand_year_digits y Hy Hl) as [Hy' Hl'].
        destruct (contains c "F").
        -- rewrite (normalize_period_year_value (expand_year y) "F" Hy')
             by (try lia; auto).
           rewrite (expand_year_long (expand_year y)) by lia. reflexivity.
        -- rewrite <- (append_nil (expand_year y)).
           rewrite (normalize_period_year_value (expand_year y) "" Hy')
             by (try lia; auto).
           rewrite (expand_year_long (expand_year y)) by lia. reflexivity.
      * rewrite (normalize_period_eq c). cbv zeta. rewrite Hc, Hq, Hd, Hf.
        reflexivity.
    + rewrite (normalize_period_eq c). cbv zeta. rewrite Hc, Hq, Hd.
      reflexivity.
Qed.

(** ** Compact labels *)

Lemma digit_not_isF c : is_digit c = true -> is_F c = false.
Proof. ascii_cases c. Qed.

Lemma digit_not_newline c : is_digit c = true -> Ascii.eqb c "010" = false.
Proof. ascii_cases c. Qed.

Lemma digit_not_Q c : is_digit c = true -> Ascii.eqb c "Q" = false.
Proof. ascii_cases c. Qed.

(** A digit where the mark or the end is due: no match. *)
Lemma opt_char_end_digit d r :
  is_digit d = true -> opt_char_end is_F (String d r) = None.
Proof.
  intros H. unfold opt_char_end. rewrite (digit_not_isF d H). simpl.
  destruct r; [rewrite (digit_not_newline d H) |]; reflexivity.
Qed.

Lemma opt_char_end_mark m : (m = "" \/ m = "F") -> opt_char_end is_F m = Some m.
Proof. intros [-> | ->]; reflexivity. Qed.

Lemma keep_mark (k : bool) m (a : string) :
  (m = "" \/ m = "F") ->
  (if k && String.eqb m "F" then a ++ "F" else a) = a ++ (if k then m else "").
Proof.
  intros [-> | ->]; destruct k; simpl; rewrite ?append_nil; reflexivity.
Qed.

Lemma second_digit_no_compact_quarter d1 d2 r :
  is_digit d2 = true -> match_compact_quarter (String d1 (String d2 r)) = None.
Proof.
  intros H. unfold match_compact_quarter.
  destruct d2 as [[] [] [] [] [] [] [] []]; try reflexivity;
    vm_compute in H; discriminate.
Qed.

(** A canonical year is its own compact label. *)
Lemma compact_year (k : bool) y m :
  forall_chars is_digit y = true -> String.length y = 4 -> (m = "" \/ m = "F") ->
  _compact_period_label (y ++ m) k = y ++ (if k then m else "").
Proof.
  intros Hy Hl Hm. unfold _compact_period_label.
  assert (H1 : match_compact_quarter (y ++ m) = None).
  { destruct y as [|d1 [|d2 r]]; try discriminate.
    simpl in Hy. apply andb_prop in Hy as [_ Hy]. apply andb_prop in Hy as [H2 _].
    apply second_digit_no_compact_quarter, H2. }
  rewrite H1. unfold match_compact_year.
  rewrite (year_exactly y m Hy Hl), (opt_char_end_mark m Hm).
  apply keep_mark, Hm.
Qed.

(** The compact label of a quarter: the year loses a leading [20] when
    two digits follow it, and the label is left alone otherwise. *)
Lemma compact_quarter (k : bool) q y m :
  is_q q = true -> forall_chars is_digit y = true ->
  3 <= String.length y <= 4 -> (m = "" \/ m = "F") ->
  _compact_period_label (String q (String "Q" (y ++ m))) k
  = if startswith y "20" && (String.length y =? 4)
    then String q (String "Q" (drop 2 y ++ (if k then m else "")))
    else String q (String "Q" (y ++ m)).
Proof.
  intros Hq Hy Hl Hm.
  destruct y as [|d1 [|d2 [|d3 [|d4 [|d5 r]]]]]; simpl in Hl; try lia;
    simpl in Hy;
    repeat match goal with
           | H : _ && _ = true |- _ => apply andb_prop in H as [? H]
           end.
  - (* three digits *)
    rewrite andb_false_r.
    unfold _compact_period_label, match_compact_quarter, two_digits_F.
    rewrite Hq. cbn [append startswith drop exactly].
    rewrite H, H0, H1.
    assert (E1 : exactly 1 is_digit m = None)
      by (destruct Hm as [-> | ->]; reflexivity).
    cbn [exactly] in E1. rewrite E1.
    rewrite (opt_char_end_digit d3 _ H1).
    destruct (Ascii.eqb "2" d1); destruct (Ascii.eqb "0" d2); cbn [andb];
      unfold match_compact_year; cbn [exactly];
      rewrite (q_digit q Hq); reflexivity.
  - (* four digits *)
    unfold _compact_period_label, match_compact_quarter, two_digits_F.
    rewrite Hq. cbn [append startswith drop exactly String.length Nat.eqb].
    rewrite H, H0, H1, H2.
    rewrite (opt_char_end_digit d3 _ H1).
    destruct (Ascii.eqb "2" d1); destruct (Ascii.eqb "0" d2); cbn [andb];
      try (unfold match_compact_year; cbn [exactly];
           rewrite (q_digit q Hq); reflexivity).
    rewrite (opt_char_end_mark m Hm).
    destruct Hm as [-> | ->]; destruct k; reflexivity.
Qed.

(** A quarter with a two-digit year is normalised to the year 20YY. *)
Lemma match_quarter_expands q y m :
  is_q q = true -> forall_chars is_digit y = true ->
  String.length y = 2 -> (m = "" \/ m = "F") ->
  normalize_period_label_str (String q (String "Q" (y ++ m)))
  = String q (String "Q" ("20" ++ y ++ m)).
Proof.
  intros Hq Hy Hl Hm.
  assert (Hcanon : forall_chars is_canon_char (String q (String "Q" (y ++ m))) = true).
  { simpl. rewrite (digit_canon q (q_digit q Hq)). simpl.
    apply forall_canon_year; assumption. }
  assert (Hto : _to_yyyy y = "20" ++ y) by (apply to_yyyy_short; assumption).
  unfold normalize_period_label_str.
  rewrite (prepare_canon _ Hcanon).
  assert (H1 : match_month_year (String q (String "Q" (y ++ m))) = None).
  { destruct (q_cases q Hq) as [-> | [-> | [-> | ->]]]; reflexivity. }
  rewrite H1.
  unfold match_quarter. rewrite Hq.
  rewrite (digits_between_app 2 4 y m Hy (no_digit_ahead_suffix m Hm)), Hl.
  destruct Hm as [-> | ->]; simpl; unfold quarter_label; simpl; rewrite Hto.
  - rewrite append_nil. reflexivity.
  - reflexivity.
Qed.

Lemma compact_comes_back (o : string) :
  canonical_year o \/ canonical_quarter o ->
  normalize_period_label_str (_compact_period_label o true) = o.
Proof.
  intros [[y [m [-> [Hy [Hl Hm]]]]] | [q [y [m [-> [Hq [Hy [Hl Hm]]]]]]]].
  - rewrite (compact_year true y m Hy Hl Hm). apply canon_year_fixed; assumption.
  - rewrite (compact_quarter true q y m Hq Hy Hl Hm).
    destruct (startswith y "20" && (String.length y =? 4)) eqn:E.
    + apply andb_prop in E as [E1 E2]. apply Nat.eqb_eq in E2.
      destruct y as [|d1 [|d2 [|d3 [|d4 [|d5 r]]]]]; try discriminate.
      cbn [startswith] in E1. apply andb_prop in E1 as [A B].
      apply andb_prop in B as [B _].
      apply Ascii.eqb_eq in A, B. subst d1 d2.
      simpl in Hy. apply andb_prop in Hy as [H3 Hy]. apply andb_prop in Hy as [H4 _].
      cbn [drop].
      assert (Hd : forall_chars is_digit (String d3 (String d4 "")) = true)
        by (simpl; rewrite H3, H4; reflexivity).
      pose proof (match_quarter_expands q (String d3 (String d4 "")) m) as K.
      exact (K Hq Hd eq_refl Hm).
    + apply canon_quarter_fixed; assumption.
Qed.

(** The period normaliser undoes the compact display label: a canonical
    label comes back from its compact form ([keep_F] set). *)
Theorem normalize_undoes_compact (o : string) :
  canonical_year o \/ canonical_quarter o ->
  normalize_period_label_str (_compact_period_label o true) = o.
Proof. exact (compact_comes_back o). Qed.

Lemma normalize_undoes_compact_witness :
  normalize_period_label_str (_compact_period_label "4Q2025F" true) = "4Q2025F".
Proof.
  apply (normalize_undoes_compact "4Q2025F").
  right. exists "4"%char, "2025", "F".
  repeat split; [simpl; lia | simpl; lia | right; reflexivity].
Defined.

(** ** Period columns of the long-form reshape *)

Lemma sfilter_plain s :
  forall_chars plain s = true -> sfilter (fun c => negb (is_space c)) s = s.
Proof.
  induction s as [|c s IH]; [reflexivity|]. simpl. intros H.
  apply andb_prop in H as [Hc Hs].
  rewrite (plain_not_space c Hc). simpl. rewrite (IH Hs). reflexivity.
Qed.

Lemma opt_F_full_mark m : (m = "" \/ m = "F") -> opt_F_full m = true.
Proof. intros [-> | ->]; reflexivity. Qed.

Lemma fullmatch_year_value y m :
  forall_chars is_digit y = true -> 2 <= String.length y <= 4 ->
  (m = "" \/ m = "F") -> fullmatch_year (y ++ m) = true.
Proof.
  intros Hy Hl Hm. unfold fullmatch_year.
  rewrite (digits_between_app 2 4 y m Hy (no_digit_ahead_suffix m Hm)).
  rewrite (between_2_4 y Hl). apply opt_F_full_mark, Hm.
Qed.

Lemma is_period_col_year y m :
  forall_chars is_digit y = true -> 2 <= String.length y <= 4 ->
  (m = "" \/ m = "F") -> is_period_col (y ++ m) = true.
Proof.
  intros Hy Hl Hm. unfold is_period_col.
  rewrite (sfilter_plain _ (year_plain y m Hy Hm)).
  rewrite (upper_plain _ (year_plain y m Hy Hm)).
  rewrite (fullmatch_year_value y m Hy Hl Hm). reflexivity.
Qed.

Lemma is_period_col_quarter q y m :
  is_q q = true -> forall_chars is_digit y = true -> 2 <= String.length y <= 4 ->
  (m = "" \/ m = "F") -> is_period_col (String q (String "Q" (y ++ m))) = true.
Proof.
  intros Hq Hy Hl Hm. unfold is_period_col.
  rewrite (sfilter_plain _ (quarter_plain q y m Hq Hy Hm)).
  rewrite (upper_plain _ (quarter_plain q y m Hq Hy Hm)).
  unfold fullmatch_quarter.
  rewrite Hq, (fullmatch_year_value y m Hy Hl Hm). apply orb_true_r.
Qed.

Lemma mark_cases (k : bool) m :
  (m = "" \/ m = "F") -> (if k then m else "") = "" \/ (if k then m else "") = "F".
Proof. intros [-> | ->]; destruct k; auto. Qed.

(** The long-form reshape takes every canonical period label for a period
    column, and its compact display form as well, with the forecast mark
    kept or dropped. *)
Theorem canonical_labels_are_period_columns (o : string) (keep_F : bool) :
  canonical_year o \/ canonical_quarter o ->
  is_period_col o = true
  /\ is_period_col (_compact_period_label o keep_F) = true.
Proof.
  intros [[y [m [-> [Hy [Hl Hm]]]]] | [q [y [m [-> [Hq [Hy [Hl Hm]]]]]]]].
  - split; [apply is_period_col_year; auto; lia|].
    rewrite (compact_year keep_F y m Hy Hl Hm).
    apply is_period_col_year; [exact Hy | lia | apply mark_cases, Hm].
  - split; [apply is_period_col_quarter; auto; lia|].
    rewrite (compact_quarter keep_F q y m Hq Hy Hl Hm).
    destruct (startswith y "20" && (String.length y =? 4)) eqn:E.
    + apply andb_prop in E as [_ E]. apply Nat.eqb_eq in E.
      destruct y as [|d1 [|d2 [|d3 [|d4 [|d5 r]]]]]; try discriminate.
      simpl in Hy.
      repeat match goal with
             | H : _ && _ = true |- _ => apply andb_prop in H as [? H]
             end.
      cbn [drop].
      apply (is_period_col_quarter q (String d3 (String d4 "")));
        [exact Hq | simpl; rewrite H1, H2; reflexivity | simpl; lia
        | apply mark_cases, Hm].
    + apply is_period_col_quarter; auto; lia.
Qed.

Lemma canonical_labels_are_period_columns_witness :
  is_period_col "2025F" = true
  /\ is_period_col (_compact_period_label "2025F" false) = true.
Proof.
  apply (canonical_labels_are_period_columns "2025F" false).
  left. exists "2025", "F". repeat split. right. reflexivity.
Defined.

(** ** Sort keys *)

Lemma int_q q : is_q q = true -> (1 <= int (String q "") <= 4)%N.
Proof.
  intros H. destruct (q_cases q H) as [-> | [-> | [-> | ->]]]; vm_compute;
    split; congruence.
Qed.

Lemma quarter_sort_key_value q y m :
  is_q q = true -> forall_chars is_digit y = true ->
  2 <= String.length y <= 4 -> (m = "" \/ m = "F") ->
  quarter_sort_key (String q (String "Q" (y ++ m)))
  = (int (expand_year y) * 10 + int (String q ""))%N.
Proof.
  intros Hq Hy Hl Hm. unfold quarter_sort_key.
  rewrite (upper_plain _ (quarter_plain q y m Hq Hy Hm)).
  rewrite (match_sort_quarter_value q y m Hq Hy Hl Hm). reflexivity.
Qed.

(** [quarter_sort_key] orders quarterly labels by time: first by the year
    (two-digit years taken in the 2000s), then by the quarter; the
    forecast mark and the length of the year play no part. *)
Theorem quarter_sort_key_chronological
    (q1 q2 : ascii) (y1 y2 m1 m2 : string) :
  is_q q1 = true -> is_q q2 = true ->
  forall_chars is_digit y1 = true -> forall_chars is_digit y2 = true ->
  2 <= String.length y1 <= 4 -> 2 <= String.length y2 <= 4 ->
  (m1 = "" \/ m1 = "F") -> (m2 = "" \/ m2 = "F") ->
  (quarter_sort_key (String q1 (String "Q" (y1 ++ m1)))
   < quarter_sort_key (String q2 (String "Q" (y2 ++ m2))))%N
  <-> (int (expand_year y1) < int (expand_year y2)
       \/ (int (expand_year y1) = int (expand_year y2)
           /\ int (String q1 "") < int (String q2 "")))%N.
Proof.
  intros Hq1 Hq2 Hy1 Hy2 Hl1 Hl2 Hm1 Hm2.
  rewrite (quarter_sort_key_value q1 y1 m1), (quarter_sort_key_value q2 y2 m2)
    by assumption.
  pose proof (int_q q1 Hq1). pose proof (int_q q2 Hq2). lia.
Qed.

Lemma quarter_sort_key_chronological_witness :
  (quarter_sort_key "4Q24" < quarter_sort_key "1Q2025F")%N
  <-> (int (expand_year "24") < int (expand_year "2025")
       \/ (int (expand_year "24") = int (expand_year "2025")
           /\ int "4" < int "1"))%N.
Proof.
  apply (quarter_sort_key_chronological "4" "1" "24" "2025" "" "F");
    try reflexivity; try (simpl; lia); auto.
Defined.

Lemma remove_F_digits y :
  forall_chars is_digit y = true -> remove_from "F" y 0 = y.
Proof.
  induction y as [|c y IH]; [reflexivity|]. intros H.
  simpl in H. apply andb_prop in H as [Hc Hy].
  cbn [remove_from startswith]. rewrite (digit_not_F c Hc). simpl.
  rewrite (IH Hy). reflexivity.
Qed.

Lemma remove_F_last y :
  forall_chars is_digit y = true -> remove_from "F" (y ++ "F") 0 = y.
Proof.
  induction y as [|c y IH]; [reflexivity|]. intros H.
  simpl in H. apply andb_prop in H as [Hc Hy].
  cbn [append remove_from startswith]. rewrite (digit_not_F c Hc). simpl.
  rewrite (IH Hy). reflexivity.
Qed.

Lemma sfilter_digits y : forall_chars is_digit y = true -> sfilter is_digit y = y.
Proof.
  induction y as [|c y IH]; [reflexivity|]. simpl. intros H.
  apply andb_prop in H as [Hc Hy]. rewrite Hc, (IH Hy). reflexivity.
Qed.

(** [year_sort_key] of an annual label is the year as a number, two-digit
    years taken in the 2000s, with or without the forecast mark. *)
Theorem year_sort_key_value (y m : string) :
  forall_chars is_digit y = true -> y <> "" -> (m = "" \/ m = "F") ->
  year_sort_key (y ++ m) = int (expand_year y).
Proof.
  intros Hy Hne Hm. unfold year_sort_key, remove_all.
  assert (E : remove_from "F" (y ++ m) 0 = y).
  { destruct Hm as [-> | ->];
      [rewrite append_nil; apply remove_F_digits | apply remove_F_last]; exact Hy. }
  rewrite E, (sfilter_digits y Hy).
  unfold expand_year. destruct (String.length y =? 2); [reflexivity|].
  destruct y; [congruence | reflexivity].
Qed.

Lemma year_sort_key_value_witness :
  year_sort_key "25F" = int (expand_year "25").
Proof.
  apply (year_sort_key_value "25" "F"); [reflexivity | discriminate | right; reflexivity].
Defined.

(* ================================================================== *)
(** * Further properties of the duplicate-row merger *)
(* ================================================================== *)

(** ** One candidate *)

Section CandidateFacts.

Variables (p : params) (merged current : Series).

(** The loop over the columns stops at the first conflicting column:
    the merge is possible when no column conflicts. *)
Lemma compare_rows_possible cols : forall scale,
  this_merge_possible (compare_rows p cols merged current scale)
  = negb (existsb (conflicting p merged current) cols).
Proof.
  induction cols as [|col rest IH]; intros scale; [reflexivity|].
  cbn [compare_rows existsb]. unfold conflicting at 1, compare_cells.
  destruct (isna (merged col) || isna (current col)); [apply IH|].
  destruct (to_float (merged col)) as [v1|], (to_float (current col)) as [v2|];
    try reflexivity.
  destruct (within_tolerance p v1 v2); [apply IH|].
  destruct (unit_scale p v1 v2); [apply IH | reflexivity].
Qed.

(** Without a conflict the loop runs to its end, and the row is scaled
    when some column asked for it. *)
Lemma compare_rows_scale cols : forall scale,
  existsb (conflicting p merged current) cols = false ->
  scale_entire_row (compare_rows p cols merged current scale)
  = scale || existsb (scaled p merged current) cols.
Proof.
  induction cols as [|col rest IH]; intros scale;
    [intros _; simpl; rewrite orb_false_r; reflexivity|].
  cbn [compare_rows existsb].
  unfold conflicting at 1, scaled at 1, compare_cells.
  destruct (isna (merged col) || isna (current col)); [apply IH|].
  destruct (to_float (merged col)) as [v1|], (to_float (current col)) as [v2|];
    try discriminate.
  destruct (within_tolerance p v1 v2); [apply IH|].
  destruct (unit_scale p v1 v2); [| discriminate].
  simpl. intros H. rewrite (IH true H). rewrite orb_true_r. reflexivity.
Qed.

End CandidateFacts.

(** The fate of a candidate row depends on the columns one by one, not on
    their order: it is quarantined, and the accumulated row is left as it
    is, exactly when under some column both rows are filled and hold text
    or numbers that are neither within the tolerance nor a unit scale
    apart; otherwise it is merged, by scaling when some column is a unit
    scale apart and cell by cell when none is. *)
Theorem merge_candidate_by_columns
    (p : params) (cols : list string) (merged : Series) (current : string * Series) :
  merge_candidate p cols merged current
  = if existsb (conflicting p merged (snd current)) cols
    then (merged, Some current)
    else if existsb (scaled p merged (snd current)) cols
    then (merge_scaled p cols merged (snd current), None)
    else (merge_plain merged (snd current), None).
Proof.
  unfold merge_candidate. rewrite compare_rows_possible.
  destruct (existsb (conflicting p merged (snd current)) cols) eqn:E;
    [reflexivity|].
  simpl. rewrite (compare_rows_scale _ _ _ _ _ E). reflexivity.
Qed.

(** Text blocks a merge: when the accumulated row holds text under a
    column where the candidate is filled too, the candidate is
    quarantined, even if it holds the same text. *)
Theorem text_cell_blocks_merge
    (p : params) (cols : list string) (merged : Series)
    (current : string * Series) (col s : string) :
  In col cols ->
  merged col = Str s ->
  isna (snd current col) = false ->
  merge_candidate p cols merged current = (merged, Some current).
Proof.
  intros Hin Hm Hc. unfold merge_candidate. rewrite compare_rows_possible.
  assert (E : existsb (conflicting p merged (snd current)) cols = true).
  { apply existsb_exists. exists col. split; [exact Hin|].
    unfold conflicting, compare_cells. rewrite Hm, Hc. reflexivity. }
  rewrite E. reflexivity.
Qed.

Lemma text_cell_blocks_merge_witness :
  merge_candidate default_params ["2024"] (row_of [("2024", Str "n/a")])
    ("X", row_of [("2024", Str "n/a")])
  = (row_of [("2024", Str "n/a")], Some ("X", row_of [("2024", Str "n/a")])).
Proof.
  apply (text_cell_blocks_merge default_params ["2024"] _ _ "2024" "n/a");
    [left; reflexivity | reflexivity | reflexivity].
Defined.

(** Rows that agree within the tolerance wherever both are filled are
    merged cell by cell: the candidate is not quarantined, every filled
    cell of the accumulated row stays as it is, and a missing cell takes
    the number of the candidate (text of the candidate is not taken). *)
Theorem tolerance_merge_fills_gaps
    (p : params) (cols : list string) (merged : Series) (current : string * Series) :
  (forall col, In col cols ->
     isna (merged col) = false -> isna (snd current col) = false ->
     exists v1 v2, merged col = Num v1 /\ snd current col = Num v2
                   /\ within_tolerance p v1 v2 = true) ->
  let out := merge_candidate p cols merged current in
  snd out = None
  /\ forall c,
       (isna (merged c) = false -> fst out c = merged c)
       /\ (isna (merged c) = true ->
           fst out c = match snd current c with
                       | Num x => if PrimFloat.is_nan x then merged c else Num x
                       | _ => merged c
                       end).
Proof.
  intros H out.
  assert (Hskip : forall col, In col cols ->
            compare_cells p (merged col) (snd current col) = Skip).
  { intros col Hin. unfold compare_cells.
    destruct (isna (merged col)) eqn:E1; [reflexivity|].
    destruct (isna (snd current col)) eqn:E2; [reflexivity|].
    destruct (H col Hin E1 E2) as [v1 [v2 [-> [-> Hw]]]].
    simpl. rewrite Hw. reflexivity. }
  assert (E1 : existsb (conflicting p merged (snd current)) cols = false).
  { apply not_true_is_false. intros K. apply existsb_exists in K as [col [Hin K]].
    unfold conflicting in K. rewrite (Hskip col Hin) in K. discriminate. }
  assert (E2 : existsb (scaled p merged (snd current)) cols = false).
  { apply not_true_is_false. intros K. apply existsb_exists in K as [col [Hin K]].
    unfold scaled in K. rewrite (Hskip col Hin) in K. discriminate. }
  assert (Hout : out = (merge_plain merged (snd current), None)).
  { unfold out, merge_candidate. rewrite compare_rows_possible, E1. simpl.
    rewrite (compare_rows_scale _ _ _ _ _ E1), E2. reflexivity. }
  rewrite Hout. split; [reflexivity|].
  intros c. simpl. unfold merge_plain, notna. split; intros Hc; rewrite Hc.
  - reflexivity.
  - simpl. destruct (snd current c) as [|x|s]; simpl; try reflexivity.
    destruct (PrimFloat.is_nan x); reflexivity.
Qed.

Lemma tolerance_merge_fills_gaps_witness :
  let merged := row_of [("2023", Num 100%float)] in
  let current := ("X", row_of [("2023", Num 101%float); ("2024", Num 7%float)]) in
  let out := merge_candidate default_params ["2023"; "2024"] merged current in
  snd out = None
  /\ forall c,
       (isna (merged c) = false -> fst out c = merged c)
       /\ (isna (merged c) = true ->
           fst out c = match snd current c with
                       | Num x => if PrimFloat.is_nan x then merged c else Num x
                       | _ => merged c
                       end).
Proof.
  apply (tolerance_merge_fills_gaps default_params ["2023"; "2024"]
           (row_of [("2023", Num 100%float)])
           ("X", row_of [("2023", Num 101%float); ("2024", Num 7%float)])).
  intros col [<- | [<- | []]]; intros H1 H2.
  - exists 100%float, 101%float. repeat split.
  - discriminate.
Defined.

(** ** The groups *)

Lemma unique_In x l : In x (unique l) <-> In x l.
Proof.
  induction l as [|a l IH]; [tauto|]. simpl.
  rewrite filter_In, IH, negb_true_iff, String.eqb_neq.
  destruct (string_dec a x) as [-> | Hne]; [tauto|].
  split; [tauto|]. intros [H | H]; [tauto|]. right. split; [exact H | congruence].
Qed.

Lemma unique_NoDup l : NoDup (unique l).
Proof.
  induction l as [|a l IH]; simpl; constructor.
  - rewrite filter_In, String.eqb_refl. intros [_ H]. discriminate.
  - apply NoDup_filter, IH.
Qed.

Lemma unique_fixed l : NoDup l -> unique l = l.
Proof.
  induction 1 as [|a l Hin Hnd IH]; [reflexivity|].
  simpl. rewrite IH. f_equal.
  apply forallb_filter_id, forallb_forall. intros x Hx.
  apply negb_true_iff, String.eqb_neq. intros ->. exact (Hin Hx).
Qed.

Lemma insert_sorted_In k x l : In x (insert_sorted k l) <-> x = k \/ In x l.
Proof.
  induction l as [|a l IH]; simpl; [intuition|].
  destruct (String.leb k a); simpl; [intuition | rewrite IH; intuition].
Qed.

Lemma insert_sorted_NoDup k l : NoDup l -> ~ In k l -> NoDup (insert_sorted k l).
Proof.
  induction 1 as [|a l Hin Hnd IH]; intros Hk; simpl.
  - constructor; [intros [] | constructor].
  - destruct (String.leb k a); [constructor; [exact Hk | constructor; assumption]|].
    constructor.
    + rewrite insert_sorted_In. intros [-> | H]; [apply Hk; left; reflexivity | exact (Hin H)].
    + apply IH. intros H. apply Hk. right. exact H.
Qed.

Lemma insert_sorted_Sorted k l :
  Sorted (fun a b => String.leb a b = true) l ->
  Sorted (fun a b => String.leb a b = true) (insert_sorted k l).
Proof.
  induction 1 as [|a l Hs IH Hhd]; simpl; [repeat constructor|].
  destruct (String.leb k a) eqn:E.
  - constructor; [constructor; assumption | constructor; exact E].
  - constructor; [exact IH|].
    assert (Hak : String.leb a k = true)
      by (destruct (String.leb_total a k) as [H | H]; [exact H | congruence]).
    destruct Hhd as [|b l Hab]; simpl; [constructor; exact Hak|].
    destruct (String.leb k b); constructor; assumption.
Qed.

Lemma sorted_keys_In x l : In x (sorted_keys l) <-> In x l.
Proof.
  unfold sorted_keys. transitivity (In x (unique l)); [| apply unique_In].
  induction (unique l) as [|a u IH]; simpl; [tauto|].
  rewrite insert_sorted_In, IH. intuition.
Qed.

Lemma sorted_keys_NoDup l : NoDup (sorted_keys l).
Proof.
  unfold sorted_keys. pose proof (unique_NoDup l) as H.
  induction H as [|a u Hin Hnd IH]; simpl; [constructor|].
  apply insert_sorted_NoDup; [exact IH|].
  intros K. apply Hin. clear -K.
  induction u as [|b u IH]; simpl in *; [exact K|].
  apply insert_sorted_In in K as [-> | K]; [left; reflexivity | right; apply IH, K].
Qed.

Lemma sorted_keys_Sorted l : Sorted (fun a b => String.leb a b = true) (sorted_keys l).
Proof.
  unfold sorted_keys. induction (unique l) as [|a u IH]; simpl; [constructor|].
  apply insert_sorted_Sorted, IH.
Qed.

Lemma merge_group_unmerged p cols : forall cands merged,
  incl (snd (merge_group p cols merged cands)) cands.
Proof.
  induction cands as [|c cands IH]; intros merged; simpl; [apply incl_refl|].
  destruct (merge_candidate p cols merged c) as [m' q] eqn:E.
  specialize (IH m').
  destruct (merge_group p cols m' cands) as [final unmerged]. simpl in *.
  assert (Hq : q = None \/ q = Some c).
  { unfold merge_candidate in E.
    destruct (negb _); [| destruct (scale_entire_row _)];
      inversion E; auto. }
  destruct Hq as [-> | ->].
  - apply incl_tl, IH.
  - apply incl_cons; [left; reflexivity | apply incl_tl, IH].
Qed.

Section GroupFacts.

Variables (p : params) (cols : list string) (rs : list (string * Series)).

Lemma merge_groups_unmerged keys :
  incl (snd (merge_groups p cols rs keys)) rs.
Proof.
  induction keys as [|k keys IH]; simpl; [intros x []|].
  destruct (merge_groups p cols rs keys) as [mr ur]. simpl in IH.
  destruct (filter (fun lr => String.eqb (get_base_name (fst lr)) k) rs)
    as [|first cands] eqn:E; [exact IH|].
  pose proof (merge_group_unmerged p cols cands (snd first)) as H.
  destruct (merge_group p cols (snd first) cands) as [m u]. simpl in *.
  apply incl_app; [| exact IH].
  intros x Hx. apply H in Hx.
  assert (K : In x (filter (fun lr => String.eqb (get_base_name (fst lr)) k) rs))
    by (rewrite E; right; exact Hx).
  apply filter_In in K. tauto.
Qed.

Lemma merge_groups_keys keys :
  (forall k, In k keys -> In k (map get_base_name (map fst rs))) ->
  map fst (fst (merge_groups p cols rs keys)) = keys.
Proof.
  induction keys as [|k keys IH]; intros H; [reflexivity|]. simpl.
  assert (IH' := IH (fun k' Hk' => H k' (or_intror Hk'))).
  destruct (merge_groups p cols rs keys) as [mr ur]. simpl in IH'.
  destruct (filter (fun lr => String.eqb (get_base_name (fst lr)) k) rs)
    as [|first cands] eqn:E.
  - exfalso. specialize (H k (or_introl eq_refl)).
    rewrite map_map in H. apply in_map_iff in H as [lr [Hb Hin]].
    assert (K : In lr (filter (fun lr => String.eqb (get_base_name (fst lr)) k) rs))
      by (apply filter_In; split; [exact Hin | apply String.eqb_eq, Hb]).
    rewrite E in K. exact K.
  - destruct (merge_group p cols (snd first) cands) as [m u]. simpl.
    rewrite IH'. reflexivity.
Qed.

End GroupFacts.

(** The labels of the merged table: first the base names of the input
    rows, each once and in increasing order, then the labels of the
    quarantined rows, which are rows of the input, numbered among
    themselves. *)
Theorem merged_table_labels (p : params) (df : DataFrame) :
  let keys := sorted_keys (map get_base_name (index df)) in
  exists quarantined,
    index (merge_duplicate_rows p df)
    = (keys ++ make_index_unique (map fst quarantined))%list
    /\ incl quarantined (rows df)
    /\ NoDup keys
    /\ Sorted (fun a b => String.leb a b = true) keys
    /\ forall k, In k keys <-> exists l, In l (index df) /\ get_base_name l = k.
Proof.
  intros keys.
  exists (snd (merge_groups p (columns df) (rows df) keys)).
  destruct (quarantined_rows_kept p df) as [_ H].
  cbv zeta in H. fold keys in H. rewrite H.
  rewrite merge_groups_keys
    by (intros k Hk; unfold keys in Hk;
        apply (proj1 (sorted_keys_In k _)) in Hk; exact Hk).
  split; [reflexivity|].
  split; [apply merge_groups_unmerged|].
  split; [apply sorted_keys_NoDup|].
  split; [apply sorted_keys_Sorted|].
  intros k. unfold keys. rewrite sorted_keys_In, in_map_iff.
  split; intros [l [A B]]; exists l; tauto.
Qed.

Lemma filter_none {A} (g : A -> bool) l :
  (forall x, In x l -> g x = false) -> filter g l = [].
Proof.
  induction l as [|a l IH]; intros H; [reflexivity|].
  simpl. rewrite (H a (or_introl eq_refl)). apply IH.
  intros x Hx. apply H. right. exact Hx.
Qed.

Lemma filter_single (f : string -> string) (rs : list (string * Series)) :
  NoDup (map f (map fst rs)) ->
  forall lr, In lr rs ->
    filter (fun x => String.eqb (f (fst x)) (f (fst lr))) rs = [lr].
Proof.
  induction rs as [|a rs IH]; intros Hnd lr Hin; [destruct Hin|].
  simpl in Hnd. inversion Hnd as [|? ? Hnot Hnd']; subst.
  simpl. destruct Hin as [-> | Hin].
  - rewrite String.eqb_refl. f_equal.
    apply filter_none. intros x Hx.
    apply String.eqb_neq. intros Heq. apply Hnot. rewrite <- Heq.
    rewrite map_map. apply (in_map (fun y => f (fst y))), Hx.
  - destruct (String.eqb (f (fst a)) (f (fst lr))) eqn:E.
    + exfalso. apply String.eqb_eq in E. apply Hnot. rewrite E.
      rewrite map_map. apply (in_map (fun y => f (fst y))), Hin.
    + apply IH; assumption.
Qed.

Lemma merge_groups_distinct p cols (rs : list (string * Series)) :
  NoDup (map get_base_name (map fst rs)) ->
  forall keys,
    (forall k, In k keys -> In k (map get_base_name (map fst rs))) ->
    snd (merge_groups p cols rs keys) = []
    /\ forall lr, In lr rs -> In (get_base_name (fst lr)) keys ->
         In (get_base_name (fst lr), snd lr) (fst (merge_groups p cols rs keys)).
Proof.
  intros Hnd. induction keys as [|k keys IH]; intros H.
  - split; [reflexivity | intros lr _ []].
  - destruct (IH (fun k' Hk' => H k' (or_intror Hk'))) as [IH1 IH2].
    pose proof (H k (or_introl eq_refl)) as Hk.
    rewrite map_map in Hk. apply in_map_iff in Hk as [lr0 [Hb Hin0]].
    pose proof (filter_single get_base_name rs Hnd lr0 Hin0) as Hf.
    rewrite Hb in Hf.
    simpl. destruct (merge_groups p cols rs keys) as [mr ur]. simpl in IH1, IH2.
    rewrite Hf. simpl. split; [exact IH1|].
    intros lr Hin [Hk | Hk].
    + assert (K : In lr (filter (fun x => String.eqb (get_base_name (fst x)) k) rs))
        by (apply filter_In; split; [exact Hin | apply String.eqb_eq; congruence]).
      rewrite Hf in K. destruct K as [<- | []]. left. rewrite Hb. reflexivity.
    + right. apply IH2; assumption.
Qed.

Lemma insert_sorted_length k l : List.length (insert_sorted k l) = S (List.length l).
Proof.
  induction l as [|a l IH]; [reflexivity|]. simpl.
  destruct (String.leb k a); simpl; [| rewrite IH]; reflexivity.
Qed.

Lemma sorted_keys_length l : NoDup l -> List.length (sorted_keys l) = List.length l.
Proof.
  intros H. unfold sorted_keys. rewrite (unique_fixed l H).
  induction l as [|a l IH]; [reflexivity|]. simpl.
  inversion H; subst. rewrite insert_sorted_length, IH by assumption. reflexivity.
Qed.

(** A table whose rows have distinct base names comes back with the same
    rows: each row is relabelled with its base name, the rows are put in
    the order of these names, and no cell changes. *)
Theorem distinct_base_names_keep_rows (p : params) (df : DataFrame) :
  NoDup (map get_base_name (index df)) ->
  let out := merge_duplicate_rows p df in
  index out = sorted_keys (map get_base_name (index df))
  /\ List.length (rows out) = List.length (rows df)
  /\ forall l row, In (l, row) (rows df) -> In (get_base_name l, row) (rows out).
Proof.
  intros Hnd out.
  pose proof (merge_groups_distinct p (columns df) (rows df) Hnd
                (sorted_keys (map get_base_name (index df)))) as H.
  destruct H as [H1 H2];
    [intros k Hk; apply (proj1 (sorted_keys_In k _)) in Hk; exact Hk|].
  pose proof (merge_groups_keys p (columns df) (rows df)
                (sorted_keys (map get_base_name (index df)))) as H3.
  assert (Hrows : rows out
                  = fst (merge_groups p (columns df) (rows df)
                           (sorted_keys (map get_base_name (index df))))).
  { unfold out, merge_duplicate_rows.
    destruct (merge_groups p (columns df) (rows df)
                (sorted_keys (map get_base_name (index df)))) as [mr ur].
    simpl in H1. subst ur. simpl. apply List.app_nil_r. }
  assert (Hidx : index out = sorted_keys (map get_base_name (index df))).
  { unfold index at 1. rewrite Hrows. apply H3.
    intros k Hk. apply (proj1 (sorted_keys_In k _)) in Hk. exact Hk. }
  split; [exact Hidx|]. split.
  - rewrite <- (length_map fst (rows out)). fold (index out). rewrite Hidx.
    rewrite (sorted_keys_length _ Hnd). unfold index. rewrite !length_map.
    reflexivity.
  - intros l row Hin. rewrite Hrows.
    apply (H2 (l, row) Hin). simpl.
    apply sorted_keys_In. unfold index. rewrite map_map.
    apply (in_map (fun x => get_base_name (fst x)) _ (l, row)), Hin.
Qed.

Lemma distinct_base_names_keep_rows_witness :
  let df := mkDF ["2024"] [("Revenue (USD mn)", row_one); ("EPS", row_one)] in
  let out := merge_duplicate_rows default_params df in
  index out = sorted_keys (map get_base_name (index df))
  /\ List.length (rows out) = List.length (rows df)
  /\ forall l row, In (l, row) (rows df) -> In (get_base_name l, row) (rows out).
Proof.
  apply (distinct_base_names_keep_rows default_params
           (mkDF ["2024"] [("Revenue (USD mn)", row_one); ("EPS", row_one)])).
  constructor; [simpl; intros [H | []]; discriminate|].
  constructor; [intros [] | constructor].
Defined.

(** ** Row labels *)

Lemma make_index_unique_from_nth : forall l count i name,
  nth_error l i = Some name ->
  nth_error (make_index_unique_from count l) i
  = Some (let k := count name + count_occ string_dec (firstn i l) name in
          if k =? 0 then name
          else name ++ " (" ++ str_of_N (N.of_nat k) ++ ")").
Proof.
  induction l as [|a l IH]; intros count i name H; [destruct i; discriminate|].
  destruct i as [|i].
  - simpl in H. injection H as ->. simpl. rewrite Nat.add_0_r. reflexivity.
  - simpl in H. cbn [make_index_unique_from nth_error].
    rewrite (IH _ i name H). cbv zeta. cbn [firstn count_occ].
    destruct (string_dec a name) as [-> | Hne].
    + rewrite String.eqb_refl.
      replace (S (count name) + count_occ string_dec (firstn i l) name)
        with (count name + S (count_occ string_dec (firstn i l) name)) by lia.
      reflexivity.
    + assert (E : String.eqb name a = false)
        by (apply String.eqb_neq; congruence).
      rewrite E. reflexivity.
Qed.

(** [make_index_unique] leaves the first occurrence of a label as it is
    and gives the occurrence that has [k] equal labels before it the
    label followed by [" (k)"]. *)
Theorem make_index_unique_numbers_repeats (l : list string) (i : nat) (name : string) :
  nth_error l i = Some name ->
  nth_error (make_index_unique l) i
  = Some (let k := count_occ string_dec (firstn i l) name in
          if k =? 0 then name
          else name ++ " (" ++ str_of_N (N.of_nat k) ++ ")").
Proof.
  intros H. unfold make_index_unique.
  rewrite (make_index_unique_from_nth l (fun _ => 0) i name H). reflexivity.
Qed.

Lemma make_index_unique_numbers_repeats_witness :
  nth_error (make_index_unique ["X"; "Y"; "X"; "X"]) 3 = Some "X (2)".
Proof.
  apply (make_index_unique_numbers_repeats ["X"; "Y"; "X"; "X"] 3 "X").
  reflexivity.
Defined.

(** ** Base names *)

Lemma forall_chars_lstrip p s :
  forall_chars p s = true -> forall_chars p (lstrip s) = true.
Proof.
  induction s as [|c s IH]; [reflexivity|]. intros H. simpl.
  destruct (is_space c); [| exact H].
  simpl in H. apply andb_prop in H as [_ H]. apply IH, H.
Qed.

Lemma forall_chars_rstrip p s :
  forall_chars p s = true -> forall_chars p (rstrip s) = true.
Proof.
  induction s as [|c s IH]; [reflexivity|]. intros H. simpl.
  simpl in H. apply andb_prop in H as [Hc H].
  destruct (is_empty (rstrip s) && is_space c); [reflexivity|].
  simpl. rewrite Hc, (IH H). reflexivity.
Qed.

Lemma forall_chars_strip p s :
  forall_chars p s = true -> forall_chars p (strip s) = true.
Proof. intros H. apply forall_chars_rstrip, forall_chars_lstrip, H. Qed.

Lemma not_open_head c r : not_open c = true -> forall k, String c r <> String "(" k.
Proof.
  intros H k E. injection E as -> _. discriminate.
Qed.

(** Where no blank run is followed by an opening bracket, no bracket
    group starts. *)
Lemma paren_at_head s c r :
  snd (span is_space s) = String c r -> not_open c = true -> paren_at s = None.
Proof.
  intros E H. unfold paren_at.
  destruct (span is_space s) as [ws t]. simpl in E. subst t.
  destruct c as [[] [] [] [] [] [] [] []]; try reflexivity. discriminate.
Qed.

(** Inside a name without opening bracket that does not end with a
    blank, the character after a run of blanks is a character of the
    name. *)
Lemma span_space_name n tail :
  rstrip n = n -> n <> "" -> forall_chars not_open n = true ->
  exists c r, snd (span is_space (n ++ tail)) = String c r /\ not_open c = true.
Proof.
  induction n as [|a n IH]; [congruence|]. intros Hr _ Hn.
  simpl in Hn. apply andb_prop in Hn as [Ha Hn].
  simpl in Hr.
  destruct (is_empty (rstrip n) && is_space a) eqn:E; [discriminate|].
  injection Hr as Hr.
  cbn [append span].
  destruct (is_space a) eqn:Sa.
  - rewrite andb_true_r in E. rewrite Hr in E.
    destruct (IH Hr) as [c [r [Hs Hc]]];
      [destruct n; [discriminate | discriminate] | exact Hn |].
    destruct (span is_space (n ++ tail)) as [ws t]. simpl in *.
    exists c, r. split; assumption.
  - exists a, (n ++ tail). split; [reflexivity | exact Ha].
Qed.

Lemma rstrip_tail a n : rstrip (String a n) = String a n -> rstrip n = n.
Proof.
  simpl. destruct (is_empty (rstrip n) && is_space a); [discriminate|].
  intros H. injection H as H. exact H.
Qed.

Lemma span_not_close k r :
  forall_chars not_close k = true ->
  span (fun c => negb (Ascii.eqb c ")")) (k ++ String ")" r) = (k, String ")" r).
Proof.
  induction k as [|c k IH]; [reflexivity|]. intros H.
  simpl in H. apply andb_prop in H as [Hc Hk]. unfold not_close in Hc.
  cbn [append span]. rewrite Hc, (IH Hk). reflexivity.
Qed.

Lemma sub_from_skip_all m : forall s k, String.length s <= k -> sub_from m s k = "".
Proof.
  induction s as [|c s IH]; intros k H; [reflexivity|].
  simpl in H. destruct k as [|k]; [lia|]. simpl. apply IH. lia.
Qed.

Lemma sub_from_step m c r :
  sub_from m (String c r) 0
  = match m (String c r) with
    | Some n => sub_from m r (n - 1)
    | None => String c (sub_from m r 0)
    end.
Proof. reflexivity. Qed.

(** The scan over a name followed by a bracket group drops the group. *)
Lemma sub_from_name n k :
  rstrip n = n -> forall_chars not_open n = true ->
  forall_chars not_close k = true ->
  sub_from paren_at (n ++ " (" ++ k ++ ")") 0 = n.
Proof.
  intros Hr Hn Hk.
  assert (E : paren_at (" (" ++ k ++ ")") = Some (String.length k + 3)).
  { unfold paren_at.
    replace (span is_space (" (" ++ k ++ ")"))
      with (" ", String "(" (k ++ ")")) by reflexivity.
    rewrite (span_not_close k "" Hk). simpl. f_equal. lia. }
  assert (L : String.length (" (" ++ k ++ ")") = String.length k + 3)
    by (simpl; rewrite length_append; simpl; lia).
  remember (" (" ++ k ++ ")") as tail eqn:Et.
  assert (T : exists c r, tail = String c r)
    by (rewrite Et; eexists; eexists; reflexivity).
  clear Et. destruct T as [c0 [r0 ->]].
  induction n as [|a n IH].
  - cbn [append]. rewrite sub_from_step, E.
    apply sub_from_skip_all. simpl in L. lia.
  - assert (Hr' := rstrip_tail a n Hr).
    pose proof Hn as Hn0.
    simpl in Hn. apply andb_prop in Hn as [Ha Hn'].
    destruct (span_space_name (String a n) (String c0 r0) Hr) as [c [r [Hs Hc]]];
      [discriminate | exact Hn0 |].
    cbn [append]. rewrite sub_from_step.
    cbn [append] in Hs. rewrite (paren_at_head _ c r Hs Hc).
    rewrite (IH Hr' Hn'). reflexivity.
Qed.

Lemma rstrip_close s : rstrip (s ++ ")") = s ++ ")".
Proof.
  induction s as [|c s IH]; [reflexivity|].
  cbn [append rstrip]. rewrite IH.
  destruct s; reflexivity.
Qed.

(** [get_base_name] drops a bracket group that ends a label, with the
    blank in front of it: the numbering of [make_index_unique] and a
    qualifier such as a unit alike. *)
Theorem get_base_name_drops_bracket (name k : string) :
  strip name = name -> name <> "" ->
  forall_chars not_open name = true ->
  forall_chars not_close k = true ->
  get_base_name (name ++ " (" ++ k ++ ")") = name.
Proof.
  intros Hs Hne Hn Hk. unfold get_base_name.
  assert (Hr : rstrip name = name) by (rewrite <- Hs; apply rstrip_strip).
  assert (Hl : starts_clean name = true)
    by (rewrite <- Hs; unfold strip; apply rstrip_starts_clean, lstrip_starts_clean).
  assert (E : strip (name ++ " (" ++ k ++ ")") = name ++ " (" ++ k ++ ")").
  { unfold strip. rewrite lstrip_clean.
    - replace (name ++ " (" ++ k ++ ")") with ((name ++ " (" ++ k) ++ ")")
        by (rewrite !append_assoc; reflexivity).
      apply rstrip_close.
    - destruct name as [|c name]; [congruence | exact Hl]. }
  rewrite E, (sub_from_name name k Hr Hn Hk). exact Hs.
Qed.

Lemma get_base_name_drops_bracket_witness :
  get_base_name ("Net Income" ++ " (" ++ "1" ++ ")") = "Net Income".
Proof.
  apply (get_base_name_drops_bracket "Net Income" "1");
    [reflexivity | discriminate | reflexivity | reflexivity].
Defined.

(* ================================================================== *)
(** * Columns *)
(* ================================================================== *)

(** ** Renamed columns *)

Lemma filter_one (g : string -> bool) (l : list string) k :
  NoDup l -> In k l -> g k = true ->
  (forall k', In k' l -> g k' = true -> k' = k) ->
  filter g l = [k].
Proof.
  induction 1 as [|a l Hin Hnd IH]; intros Hk Hg Huniq; [destruct Hk|].
  simpl. destruct Hk as [-> | Hk].
  - rewrite Hg. f_equal. apply filter_none. intros x Hx.
    destruct (g x) eqn:E; [| reflexivity].
    exfalso. apply Hin. rewrite <- (Huniq x (or_intror Hx) E). exact Hx.
  - destruct (g a) eqn:E.
    + exfalso. apply Hin. rewrite (Huniq a (or_introl eq_refl) E). exact Hk.
    + apply IH; [exact Hk | exact Hg |].
      intros k' Hk' Hg'. apply Huniq; [right; exact Hk' | exact Hg'].
Qed.

(** The cells of a renamed row under a new label that one old column
    only is renamed to. *)
Lemma rename_row_single norm old row k :
  NoDup old -> In k old ->
  (forall k', In k' old -> norm k' = norm k -> k' = k) ->
  rename_row norm old row (norm k) = row k.
Proof.
  intros Hnd Hin Huniq. unfold rename_row.
  rewrite (filter_one (fun x => String.eqb (norm x) (norm k)) old k Hnd Hin).
  - reflexivity.
  - apply String.eqb_refl.
  - intros k' Hk' E. apply Huniq; [exact Hk' | apply String.eqb_eq, E].
Qed.

Lemma Forall2_map_r {A B} (R : A -> B -> Prop) (g : A -> B) l :
  (forall x, In x l -> R x (g x)) -> Forall2 R l (map g l).
Proof.
  induction l as [|a l IH]; intros H; simpl; constructor.
  - apply H. left. reflexivity.
  - apply IH. intros x Hx. apply H. right. exact Hx.
Qed.

(** [normalize_df_columns] on a table that is not empty: the rows keep
    their labels and order; the columns of the result are distinct, and
    they are the normalised labels of the columns that are not excluded;
    under the label of a column that no other kept column is normalised
    to, every row holds the cell it held under that column. *)
Theorem normalize_df_columns_spec (df : DataFrame) :
  empty df = false ->
  let out := normalize_df_columns df in
  index out = index df
  /\ NoDup (columns out)
  /\ (forall c, In c (columns out) <->
        exists k, In k (columns df) /\ excluded_col k = false
                  /\ normalize_period_label_str k = c)
  /\ (NoDup (columns df) ->
      forall k, In k (columns df) -> excluded_col k = false ->
        (forall k', In k' (columns df) -> excluded_col k' = false ->
           normalize_period_label_str k' = normalize_period_label_str k -> k' = k) ->
        Forall2 (fun lr lr' =>
                   fst lr' = fst lr
                   /\ snd lr' (normalize_period_label_str k) = snd lr k)
                (rows df) (rows out)).
Proof.
  intros Hne out. unfold out, normalize_df_columns. rewrite Hne.
  set (kept := filter (fun c => negb (excluded_col c)) (columns df)).
  assert (Hkept : forall k, In k kept <-> In k (columns df) /\ excluded_col k = false).
  { intros k. unfold kept. rewrite filter_In, negb_true_iff. tauto. }
  destruct (empty (mkDF kept (rows df))) eqn:E1.
  - (* every column is excluded *)
    assert (K : kept = []).
    { unfold empty in E1. simpl in E1. unfold empty in Hne.
      destruct kept; [reflexivity|].
      destruct (columns df); [discriminate|].
      destruct (rows df); discriminate. }
    simpl. rewrite K. split; [reflexivity|]. split; [constructor|]. split.
    + intros c. split; [intros [] |].
      intros [k [Hk [Hx _]]].
      assert (Hin : In k kept) by (apply Hkept; tauto).
      rewrite K in Hin. exact Hin.
    + intros _ k Hk Hx _.
      assert (Hin : In k kept) by (apply Hkept; tauto).
      rewrite K in Hin. destruct Hin.
  - simpl. split.
    + unfold index. simpl. rewrite map_map. reflexivity.
    + split; [apply unique_NoDup|]. split.
      * intros c. rewrite unique_In, in_map_iff.
        split; intros [k [A B]]; exists k.
        -- apply Hkept in B. tauto.
        -- split; [tauto | apply Hkept; tauto].
      * intros Hnd k Hk Hx Huniq.
        apply Forall2_map_r. intros lr _. simpl. split; [reflexivity|].
        apply rename_row_single.
        -- apply NoDup_filter, Hnd.
        -- apply Hkept. tauto.
        -- intros k' Hk' E. apply Hkept in Hk' as [A B]. apply Huniq; assumption.
Qed.

Lemma normalize_df_columns_spec_witness :
  let df := mkDF ["FY2024A"; "2024 chg"] [("Revenue", row_of [("FY2024A", Num 7%float)])] in
  let out := normalize_df_columns df in
  index out = index df
  /\ NoDup (columns out)
  /\ (forall c, In c (columns out) <->
        exists k, In k (columns df) /\ excluded_col k = false
                  /\ normalize_period_label_str k = c)
  /\ (NoDup (columns df) ->
      forall k, In k (columns df) -> excluded_col k = false ->
        (forall k', In k' (columns df) -> excluded_col k' = false ->
           normalize_period_label_str k' = normalize_period_label_str k -> k' = k) ->
        Forall2 (fun lr lr' =>
                   fst lr' = fst lr
                   /\ snd lr' (normalize_period_label_str k) = snd lr k)
                (rows df) (rows out)).
Proof.
  apply (normalize_df_columns_spec
           (mkDF ["FY2024A"; "2024 chg"] [("Revenue", row_of [("FY2024A", Num 7%float)])])).
  reflexivity.
Defined.

(** ** ACTUAL columns *)

Section ActualFacts.

Variable c : string.

Lemma keeps_column_refl rs : keeps_column c rs rs.
Proof.
  unfold keeps_column. induction rs as [|lr rs IH]; constructor; [| exact IH].
  split; reflexivity.
Qed.

Lemma keeps_column_trans rs rs' rs'' :
  keeps_column c rs rs' -> keeps_column c rs' rs'' -> keeps_column c rs rs''.
Proof.
  unfold keeps_column. intros H. revert rs''.
  induction H as [|a b l l' [Hl Hc] H IH]; intros rs'' H'; inversion H'; subst;
    constructor.
  - destruct H2 as [Hl' Hc']. split; [congruence|].
    intros Hn. rewrite Hc', (Hc Hn); [reflexivity|]. rewrite (Hc Hn). exact Hn.
  - apply IH. assumption.
Qed.

Lemma keeps_column_map (g : string * Series -> string * Series) rs :
  (forall lr, fst (g lr) = fst lr
              /\ (isna (snd lr c) = false -> snd (g lr) c = snd lr c)) ->
  keeps_column c rs (map g rs).
Proof.
  intros H. unfold keeps_column. apply Forall2_map_r. intros lr _. apply H.
Qed.

Lemma add_column_keeps d t :
  c <> t -> keeps_column c (rows d) (rows (add_column t d)).
Proof.
  intros Hne. unfold add_column. simpl. apply keeps_column_map.
  intros lr. simpl. split; [reflexivity|]. intros _. unfold set_cell.
  destruct (String.eqb_spec c t); [contradiction | reflexivity].
Qed.

Lemma drop_column_keeps d o :
  c <> o -> keeps_column c (rows d) (rows (drop_column o d)).
Proof.
  intros Hne. unfold drop_column. simpl. apply keeps_column_map.
  intros lr. simpl. split; [reflexivity|]. intros _. unfold set_cell.
  destruct (String.eqb_spec c o); [contradiction | reflexivity].
Qed.

(** One moved column: a column that stays keeps its filled cells. *)
Lemma move_actual_keeps d o t :
  In c (columns d) -> c <> o ->
  In c (columns (move_actual d (o, t)))
  /\ keeps_column c (rows d) (rows (move_actual d (o, t))).
Proof.
  intros Hin Hne. unfold move_actual.
  set (d1 := if mem t (columns d) then d else add_column t d).
  assert (H1 : In c (columns d1) /\ keeps_column c (rows d) (rows d1)).
  { unfold d1. destruct (mem t (columns d)) eqn:E.
    - split; [exact Hin | apply keeps_column_refl].
    - split; [simpl; apply in_or_app; left; exact Hin|].
      apply add_column_keeps. intros ->.
      apply (proj2 (mem_In t (columns d))) in Hin. congruence. }
  destruct H1 as [Hin1 Hk1].
  set (d2 := mkDF (columns d1)
               (map (fun lr =>
                       (fst lr,
                        if isna (snd lr t) && notna (snd lr o)
                        then set_cell (snd lr) t (snd lr o)
                        else snd lr))
                    (rows d1))).
  assert (Hk2 : keeps_column c (rows d1) (rows d2)).
  { unfold d2. simpl. apply keeps_column_map. intros lr. simpl.
    split; [reflexivity|]. intros Hn.
    match goal with
    | |- (if ?b then _ else _) c = _ => destruct b eqn:E
    end; [| reflexivity].
    apply andb_prop in E as [E _].
    unfold set_cell.
    destruct (String.eqb_spec c t) as [Heq | _]; [| reflexivity].
    exfalso. rewrite Heq in Hn. unfold Series in *.
    rewrite E in Hn. discriminate. }
  split.
  - simpl. apply filter_In. split; [exact Hin1|].
    apply negb_true_iff, String.eqb_neq, Hne.
  - apply (keeps_column_trans _ (rows d1)); [exact Hk1|].
    apply (keeps_column_trans _ (rows d2)); [exact Hk2|].
    apply (drop_column_keeps d2 o Hne).
Qed.

Lemma move_actuals_keep pairs : forall d,
  In c (columns d) ->
  (forall ot, In ot pairs -> c <> fst ot) ->
  In c (columns (fold_left move_actual pairs d))
  /\ keeps_column c (rows d) (rows (fold_left move_actual pairs d)).
Proof.
  induction pairs as [|[o t] pairs IH]; intros d Hin H.
  - split; [exact Hin | apply keeps_column_refl].
  - destruct (move_actual_keeps d o t Hin (H (o, t) (or_introl eq_refl)))
      as [Hin1 Hk1].
    destruct (IH (move_actual d (o, t)) Hin1
                (fun ot Hot => H ot (or_intror Hot))) as [Hin2 Hk2].
    simpl. split; [exact Hin2|].
    apply (keeps_column_trans _ _ _ Hk1 Hk2).
Qed.

End ActualFacts.

(** [handle_actual_columns] never overwrites: on a table with distinct
    row labels, a column whose label has no [ACTUAL] in it stays a column,
    the rows keep their labels and order, and every cell that is filled
    under that column keeps its content. *)
Theorem actual_columns_keep_filled_cells (df : DataFrame) (c : string) :
  NoDup (index df) ->
  In c (columns df) ->
  contains (upper c) "ACTUAL" = false ->
  let out := handle_actual_columns df in
  In c (columns out) /\ keeps_column c (rows df) (rows out).
Proof.
  intros _ Hin Hc out. unfold out, handle_actual_columns.
  destruct (empty df); [split; [exact Hin | apply keeps_column_refl]|].
  apply move_actuals_keep; [exact Hin|].
  intros [o t] Hot. simpl. intros ->.
  apply in_flat_map in Hot as [col [_ Hcol]].
  destruct (contains (upper col) "ACTUAL") eqn:E; [| destruct Hcol].
  destruct (is_empty _); [destruct Hcol|].
  destruct Hcol as [[= -> _] | []]. congruence.
Qed.

Lemma actual_columns_keep_filled_cells_witness :
  let df := mkDF ["2Q2025"; "2Q2025 Actual"]
              [("Revenue", row_of [("2Q2025", Num 5%float); ("2Q2025 Actual", Num 6%float)])] in
  let out := handle_actual_columns df in
  In "2Q2025" (columns out) /\ keeps_column "2Q2025" (rows df) (rows out).
Proof.
  apply (actual_columns_keep_filled_cells
           (mkDF ["2Q2025"; "2Q2025 Actual"]
              [("Revenue", row_of [("2Q2025", Num 5%float); ("2Q2025 Actual", Num 6%float)])])
           "2Q2025");
    [repeat constructor; intros [] | left; reflexivity | reflexivity].
Defined.

(* ================================================================== *)
(** * Row names *)
(* ================================================================== *)

(** ** Renaming by the metric map *)

Lemma match_rename_spec : forall s base suffix,
  match_rename s = Some (base, suffix) ->
  s = base ++ suffix /\ base <> ""
  /\ forall_chars lower_or_space base = true
  /\ tail_rename suffix = true.
Proof.
  induction s as [|c r IH]; intros base suffix H; [discriminate|].
  simpl in H.
  destruct (is_lower c || is_space c) eqn:Ec; [| discriminate].
  destruct (tail_rename r) eqn:Et.
  - injection H as <- <-. repeat split; try assumption; try discriminate.
    simpl. unfold lower_or_space. rewrite Ec. reflexivity.
  - destruct (match_rename r) as [[b suf]|] eqn:Er; [| discriminate].
    injection H as <- <-.
    destruct (IH b suf eq_refl) as [E [_ [Hb Ht]]].
    repeat split; try assumption; try discriminate.
    + simpl. rewrite <- E. reflexivity.
    + simpl. unfold lower_or_space at 1. rewrite Ec, Hb. reflexivity.
Qed.

(** [match_and_rename_index] renames a label only through a key made of
    small letters and blanks: the stripped, lower-cased label is a
    non-empty base of such characters followed by nothing or by a bracket
    group, the stripped base is a key of the metric map, and the new
    label is the canonical name followed by what followed the base. *)
Theorem rename_goes_through_the_map (idx out : string) :
  match_and_rename_index idx = Some out ->
  exists base suffix renamed,
    lower (strip idx) = base ++ suffix
    /\ base <> ""
    /\ forall_chars lower_or_space base = true
    /\ tail_rename suffix = true
    /\ dict_get index_rename_map (strip base) = Some renamed
    /\ out = renamed ++ suffix.
Proof.
  unfold match_and_rename_index. intros H.
  destruct (match_rename (lower (strip idx))) as [[base suffix]|] eqn:E;
    [| discriminate].
  destruct (dict_get index_rename_map (strip base)) as [renamed|] eqn:D;
    [| discriminate].
  injection H as <-.
  destruct (match_rename_spec _ _ _ E) as [E1 [E2 [E3 E4]]].
  exists base, suffix, renamed. repeat split; assumption.
Qed.

Lemma rename_goes_through_the_map_witness :
  exists base suffix renamed,
    lower (strip " Net Revenue (USD mn)") = base ++ suffix
    /\ base <> ""
    /\ forall_chars lower_or_space base = true
    /\ tail_rename suffix = true
    /\ dict_get index_rename_map (strip base) = Some renamed
    /\ "Revenue (usd mn)" = renamed ++ suffix.
Proof.
  apply (rename_goes_through_the_map " Net Revenue (USD mn)" "Revenue (usd mn)").
  reflexivity.
Defined.

Lemma tail_rename_no_open suffix :
  tail_rename suffix = true -> forall_chars not_open suffix = true -> suffix = "".
Proof.
  unfold tail_rename. intros H Hn.
  destruct suffix as [|c r]; [reflexivity|]. exfalso.
  rewrite orb_false_r in H.
  destruct (span is_space (String c r)) as [ws t] eqn:Es.
  destruct (span_spec _ _ _ _ Es) as [E _]. simpl in H.
  rewrite E, forall_chars_app in Hn. apply andb_prop in Hn as [_ Hn].
  destruct t as [|a t]; [discriminate|].
  simpl in Hn. apply andb_prop in Hn as [Ha _].
  destruct a as [[] [] [] [] [] [] [] []]; try discriminate.
Qed.

Lemma to_lower_open c : not_open (to_lower c) = not_open c.
Proof. ascii_cases c. Qed.

Lemma lower_letter c : lower_or_space (to_lower c) = true -> is_alpha c || is_space c = true.
Proof. ascii_cases c. Qed.

Lemma forall_chars_smap p f s :
  forall_chars p (smap f s) = forall_chars (fun c => p (f c)) s.
Proof. induction s as [|c s IH]; simpl; [| rewrite IH]; reflexivity. Qed.

Lemma forall_chars_ext p p' s :
  (forall c, p c = p' c) -> forall_chars p s = forall_chars p' s.
Proof. intros H. induction s as [|c s IH]; simpl; [| rewrite H, IH]; reflexivity. Qed.

(** Stripping removes blanks only. *)
Lemma forall_chars_unlstrip p s :
  (forall c, is_space c = true -> p c = true) ->
  forall_chars p (lstrip s) = true -> forall_chars p s = true.
Proof.
  intros Hp. induction s as [|c s IH]; [reflexivity|]. simpl.
  destruct (is_space c) eqn:E; [| exact (fun H => H)].
  intros H. rewrite (Hp c E), (IH H). reflexivity.
Qed.

Lemma forall_chars_unrstrip p s :
  (forall c, is_space c = true -> p c = true) ->
  forall_chars p (rstrip s) = true -> forall_chars p s = true.
Proof.
  intros Hp. induction s as [|c s IH]; [reflexivity|]. simpl.
  destruct (is_empty (rstrip s) && is_space c) eqn:E.
  - intros _. apply andb_prop in E as [E1 E2].
    rewrite (Hp c E2). simpl. apply IH.
    destruct (rstrip s); [reflexivity | discriminate].
  - simpl. intros H. apply andb_prop in H as [Hc H].
    rewrite Hc, (IH H). reflexivity.
Qed.

Lemma forall_chars_unstrip p s :
  (forall c, is_space c = true -> p c = true) ->
  forall_chars p (strip s) = true -> forall_chars p s = true.
Proof.
  intros Hp H. apply (forall_chars_unlstrip p s Hp).
  apply (forall_chars_unrstrip p _ Hp). exact H.
Qed.

(** A label without bracket that holds a character other than letters
    and blanks is never renamed, whatever the metric map lists: the
    entries of the map whose key has such a character ([r&d], [pp&e],
    [non-gaap eps]) are out of reach. *)
Theorem label_with_symbol_not_renamed (idx : string) :
  forall_chars not_open idx = true ->
  forall_chars (fun c => is_alpha c || is_space c) idx = false ->
  match_and_rename_index idx = None.
Proof.
  intros Hn Hs.
  destruct (match_and_rename_index idx) as [out|] eqn:E; [| reflexivity].
  exfalso. unfold match_and_rename_index in E.
  destruct (match_rename (lower (strip idx))) as [[base suffix]|] eqn:Em;
    [| discriminate].
  destruct (match_rename_spec _ _ _ Em) as [E1 [_ [E3 E4]]].
  assert (Hno : forall_chars not_open (lower (strip idx)) = true).
  { unfold lower. rewrite forall_chars_smap.
    rewrite (forall_chars_ext _ not_open _ to_lower_open).
    apply forall_chars_strip, Hn. }
  rewrite E1, forall_chars_app in Hno. apply andb_prop in Hno as [_ Hno].
  rewrite (tail_rename_no_open suffix E4 Hno) in E1. rewrite append_nil in E1.
  rewrite <- E1 in E3. unfold lower in E3. rewrite forall_chars_smap in E3.
  assert (H : forall_chars (fun c => is_alpha c || is_space c) (strip idx) = true).
  { apply (forall_chars_impl (fun c => lower_or_space (to_lower c)));
      [apply lower_letter | exact E3]. }
  apply forall_chars_unstrip in H; [congruence|].
  intros c Hc. rewrite Hc. apply orb_true_r.
Qed.

Lemma label_with_symbol_not_renamed_witness :
  match_and_rename_index "R&D" = None.
Proof.
  apply (label_with_symbol_not_renamed "R&D"); reflexivity.
Defined.

(** ** Generic revenue segments *)

(** Every row that the generic detection of revenue segments returns is a
    row of the table, relabelled [revenue-<Segment>]: the segment is the
    token of the old label, it is not empty, holds none of the skip words
    (growth, margin, qoq, yoy, ...) and is none of net, fy, fy rm, dec;
    the cells of the row are unchanged. *)
Theorem generic_segment_rows (df : DataFrame) (lr : string * Series) :
  In lr (rows (extract_revenue_segments_generic df)) ->
  exists idx seg,
    In (idx, snd lr) (rows df)
    /\ segment_token idx = Some seg
    /\ seg <> ""
    /\ has_skip_word seg = false
    /\ unwanted_segment seg = false
    /\ fst lr = "revenue-" ++ title (runs_to_space seg false).
Proof.
  unfold extract_revenue_segments_generic. intros H.
  assert (K : In lr (flat_map
                (fun idx =>
                   match generic_segment_name idx with
                   | Some name => relabel name (rows_named idx (rows df))
                   | None => []
                   end) (unique (index df)))).
  { destruct (flat_map _ _); [destruct H | exact H]. }
  clear H. apply in_flat_map in K as [idx [_ K]].
  destruct (generic_segment_name idx) as [name|] eqn:G; [| destruct K].
  unfold relabel in K. apply in_map_iff in K as [lr0 [<- K]].
  unfold rows_named in K. apply filter_In in K as [K1 K2].
  apply String.eqb_eq in K2.
  unfold generic_segment_name in G.
  destruct (segment_token idx) as [seg|] eqn:S; [| discriminate].
  destruct (is_empty seg || has_skip_word seg) eqn:E1; [discriminate|].
  destruct (unwanted_segment seg) eqn:E2; [discriminate|].
  simpl in G. injection G as <-.
  apply orb_false_iff in E1 as [E1 E3].
  exists idx, seg. simpl. repeat split; try assumption.
  - destruct lr0 as [l r]. simpl in *. subst l. exact K1.
  - intros ->. discriminate.
Qed.

Lemma generic_segment_rows_witness :
  exists idx seg,
    In (idx, row_one) (rows (mkDF ["2023"] [("Revenue - Data Center", row_one)]))
    /\ segment_token idx = Some seg
    /\ seg <> ""
    /\ has_skip_word seg = false
    /\ unwanted_segment seg = false
    /\ "revenue-Data Center" = "revenue-" ++ title (runs_to_space seg false).
Proof.
  apply (generic_segment_rows (mkDF ["2023"] [("Revenue - Data Center", row_one)])
           ("revenue-Data Center", row_one)).
  left. reflexivity.
Defined.

(* ================================================================== *)
(** * The rows of the template merge and of the reconciled table *)
(* ================================================================== *)

Section TemplateRows.

Variable T : DataFrame.

Lemma fill_cells_index metric cols : forall d,
  index (fold_left (fill_cell T metric) cols d) = index d
  /\ columns (fold_left (fill_cell T metric) cols d) = columns d.
Proof.
  induction cols as [|col cols IH]; intros d; [split; reflexivity|].
  simpl. destruct (IH (fill_cell T metric d col)) as [H1 H2].
  destruct (fill_cell_index T metric d col) as [H3 H4].
  split; congruence.
Qed.

(** One metric of the template: its row is there afterwards, appended
    when it was not. *)
Lemma merge_metric_index d m :
  exists added,
    index (merge_metric T d m) = (index d ++ added)%list
    /\ incl added [m]
    /\ In m (index (merge_metric T d m))
    /\ columns (merge_metric T d m) = columns d.
Proof.
  unfold merge_metric. destruct (mem m (index d)) eqn:E; simpl.
  - exists []. destruct (fill_cells_index m (columns T) d) as [H1 H2].
    rewrite H1, H2, List.app_nil_r.
    repeat split; [intros x [] | apply mem_In, E].
  - exists [m]. unfold insert_row, index. simpl. rewrite map_app. simpl.
    repeat split; [apply incl_refl | apply in_or_app; right; left; reflexivity].
Qed.

Lemma merge_metrics_index ms : forall d,
  exists added,
    index (fold_left (merge_metric T) ms d) = (index d ++ added)%list
    /\ incl added ms
    /\ (forall m, In m ms -> In m (index (fold_left (merge_metric T) ms d)))
    /\ columns (fold_left (merge_metric T) ms d) = columns d.
Proof.
  induction ms as [|m ms IH]; intros d.
  - exists []. simpl. rewrite List.app_nil_r.
    repeat split; [apply incl_refl | intros m []].
  - destruct (merge_metric_index d m) as [a1 [H1 [H2 [H3 H4]]]].
    destruct (IH (merge_metric T d m)) as [a2 [K1 [K2 [K3 K4]]]].
    exists (a1 ++ a2)%list. simpl. repeat split.
    + rewrite K1, H1, List.app_assoc. reflexivity.
    + apply incl_app.
      * intros x Hx. apply H2 in Hx as [<- | []]. left. reflexivity.
      * apply incl_tl, K2.
    + intros x [<- | Hx]; [| apply K3, Hx].
      rewrite K1. apply in_or_app. left. exact H3.
    + congruence.
Qed.

End TemplateRows.

(** For an AMD company and a table with distinct row labels, every
    metric of the template is a row of the result.  An empty table is
    replaced by the template; a table that is not empty keeps its columns
    (the template adds none) and its rows in their order, and the missing
    metrics are appended. *)
Theorem template_rows_present (df : DataFrame) (company_name : string) :
  NoDup (index df) ->
  is_amd_company company_name = true ->
  let out := apply_amd_template_if_needed df company_name in
  let T := create_amd_template_df in
  (forall m, In m (index T) -> In m (index out))
  /\ (empty df = true -> out = T)
  /\ (empty df = false ->
      columns out = columns df
      /\ exists added, index out = (index df ++ added)%list /\ incl added (index T)).
Proof.
  intros _ Ha out T. unfold out, apply_amd_template_if_needed, apply_template.
  rewrite Ha. simpl negb. cbv iota. fold T.
  destruct (empty df) eqn:E.
  - split; [intros m Hm; exact Hm |].
    split; [reflexivity | discriminate].
  - destruct (merge_metrics_index T (index T) df) as [added [H1 [H2 [H3 H4]]]].
    split; [exact H3 |]. split; [discriminate |]. intros _.
    split; [exact H4 |]. exists added. split; assumption.
Qed.

Lemma template_rows_present_witness :
  let out := apply_amd_template_if_needed revenue_99 "AMD" in
  let T := create_amd_template_df in
  (forall m, In m (index T) -> In m (index out))
  /\ (empty revenue_99 = true -> out = T)
  /\ (empty revenue_99 = false ->
      columns out = columns revenue_99
      /\ exists added, index out = (index revenue_99 ++ added)%list
                       /\ incl added (index T)).
Proof.
  apply (template_rows_present revenue_99 "AMD");
    [repeat constructor; intros [] | reflexivity].
Defined.

(** ** No bracket in the reconciled table *)

Lemma template_labels_plain :
  forallb (fun l => negb (has_parenthetical l)) (index create_amd_template_df) = true.
Proof. vm_compute. reflexivity. Qed.

Lemma forallb_filter_fst (g : string -> bool) (rs : list (string * Series)) :
  forallb g (map fst (filter (fun lr => g (fst lr)) rs)) = true.
Proof.
  induction rs as [|lr rs IH]; [reflexivity|]. simpl.
  destruct (g (fst lr)) eqn:E; [simpl; rewrite E, IH; reflexivity | exact IH].
Qed.

Lemma forallb_incl (g : string -> bool) l l' :
  incl l l' -> forallb g l' = true -> forallb g l = true.
Proof.
  intros Hi H. apply forallb_forall. intros x Hx.
  apply (proj1 (forallb_forall g l') H), Hi, Hx.
Qed.

(** The reconciled table shows no row whose label has a bracket group:
    the rows that the merger quarantined and numbered [(1)], [(2)], ...
    are dropped with the other bracketed labels, and the template brings
    none in. *)
Lemma final_labels_plain (company_name : option string) (d : DataFrame) :
  let fru := mkDF (columns d)
                  (filter (fun lr => negb (has_parenthetical (fst lr))) (rows d)) in
  forallb (fun l => negb (has_parenthetical l))
    (index match company_name with
           | Some name =>
               if is_empty name then fru else apply_amd_template_if_needed fru name
           | None => fru
           end) = true.
Proof.
  intros fru.
  assert (Hfru : forallb (fun l => negb (has_parenthetical l)) (index fru) = true).
  { unfold fru, index. simpl.
    apply (forallb_filter_fst (fun l => negb (has_parenthetical l))). }
  destruct company_name as [name|]; [| exact Hfru].
  destruct (is_empty name); [exact Hfru|].
  unfold apply_amd_template_if_needed.
  destruct (is_amd_company name); simpl; [| exact Hfru].
  unfold apply_template. destruct (empty fru); [apply template_labels_plain|].
  destruct (merge_metrics_index create_amd_template_df
              (index create_amd_template_df) fru) as [added [H1 [H2 _]]].
  rewrite H1, forallb_app, Hfru. simpl.
  apply (forallb_incl _ _ _ H2), template_labels_plain.
Qed.

Lemma merge_tables_labels_plain company_name a b c :
  forallb (fun l => negb (has_parenthetical l))
    (index (merge_tables company_name a b c)) = true.
Proof.
  unfold merge_tables.
  exact (final_labels_plain company_name
           (merge_duplicate_rows default_params _)).
Qed.

Theorem reconciled_labels_have_no_bracket
    (list_of_dfs : list DataFrame) (company_name : option string) (out : DataFrame) :
  process_extracted_dfs list_of_dfs company_name = Some out ->
  forallb (fun l => negb (has_parenthetical l)) (index out) = true.
Proof.
  intros H. unfold process_extracted_dfs in H.
  destruct list_of_dfs as [|d0 ds]; [discriminate|].
  injection H as <-. apply merge_tables_labels_plain.
Qed.

Lemma reconciled_labels_have_no_bracket_witness :
  match process_extracted_dfs [capex_table] None with
  | Some out => forallb (fun l => negb (has_parenthetical l)) (index out) = true
  | None => False
  end.
Proof.
  destruct (process_extracted_dfs [capex_table] None) as [out|] eqn:E.
  - apply (reconciled_labels_have_no_bracket [capex_table] None out E).
  - discriminate E.
Defined.

(* ================================================================== *)
(** * Columns made by the suffix-row folder *)
(* ================================================================== *)

Lemma is_year_col_spec col yyyy isF :
  _is_year_col col = Some (yyyy, isF) ->
  forall_chars is_digit yyyy = true /\ String.length yyyy = 4.
Proof.
  unfold _is_year_col. intros H.
  destruct (exactly 4 is_digit col) as [[y r]|] eqn:E; [| discriminate].
  destruct (opt_char_end _ r); [| discriminate].
  injection H as <- _.
  destruct (exactly_spec _ _ _ _ _ E) as [_ [H1 H2]]. split; assumption.
Qed.

Lemma target_col_shape suf yyyy isF :
  target_col suf yyyy isF
  = _SUFFIX_TO_Q suf ++ yyyy ++ (if isF then "F" else "").
Proof.
  destruct suf, isF; simpl; rewrite ?append_nil; reflexivity.
Qed.



(* ================================================================== *)
(** * Text utilities *)
(* ================================================================== *)

(** ** File names *)

Lemma sub_runs_chars cls : forall s b,
  forall_chars (fun c => negb (cls c) || Ascii.eqb c "_") (sub_runs cls s b) = true.
Proof.
  induction s as [|c s IH]; intros b; [reflexivity|]. simpl.
  destruct (cls c) eqn:E.
  - destruct b; [apply IH|]. simpl. rewrite orb_true_r. apply IH.
  - simpl. rewrite E. simpl. apply IH.
Qed.

Lemma sub_runs_none cls : forall s,
  forall_chars (fun c => negb (cls c)) s = true -> sub_runs cls s false = s.
Proof.
  induction s as [|c s IH]; [reflexivity|]. simpl. intros H.
  apply andb_prop in H as [Hc Hs]. apply negb_true_iff in Hc.
  rewrite Hc, (IH Hs). reflexivity.
Qed.

Lemma name_char_not_space c : is_name_char c = true -> negb (is_space c) = true.
Proof. ascii_cases c. Qed.

Lemma rstrip_nonspace s :
  forall_chars (fun c => negb (is_space c)) s = true -> rstrip s = s.
Proof.
  induction s as [|c s IH]; [reflexivity|]. simpl. intros H.
  apply andb_prop in H as [Hc Hs]. apply negb_true_iff in Hc.
  rewrite (IH Hs), Hc, andb_false_r. reflexivity.
Qed.

Lemma strip_nonspace s :
  forall_chars (fun c => negb (is_space c)) s = true -> strip s = s.
Proof.
  intros H. unfold strip. rewrite lstrip_clean.
  - apply rstrip_nonspace, H.
  - destruct s as [|c s]; [reflexivity|]. simpl in *.
    apply andb_prop in H as [Hc _]. exact Hc.
Qed.

(** A name made of the allowed characters is its own file name. *)
Lemma safe_filename_fixed name :
  forall_chars is_name_char name = true -> safe_filename name = name.
Proof.
  intros H. unfold safe_filename.
  assert (Hs : forall_chars (fun c => negb (is_space c)) name = true)
    by (apply (forall_chars_impl is_name_char); [apply name_char_not_space | exact H]).
  rewrite (strip_nonspace name Hs), (sub_runs_none is_space name Hs).
  apply sub_runs_none.
  apply (forall_chars_impl is_name_char); [| exact H].
  intros c Hc. rewrite Hc. reflexivity.
Qed.

Lemma safe_filename_chars name :
  forall_chars is_name_char (safe_filename name) = true.
Proof.
  unfold safe_filename.
  apply (forall_chars_impl
           (fun c => negb (negb (is_name_char c)) || Ascii.eqb c "_"));
    [| apply sub_runs_chars].
  intros c H. apply orb_prop in H as [H | H].
  - apply negb_true_iff, negb_false_iff in H. exact H.
  - apply Ascii.eqb_eq in H. subst c. reflexivity.
Qed.

(** [safe_filename] of an ASCII name is made of letters, digits,
    underscores, dots and hyphens only, and is a fixed point:
    [safe_filename] leaves it as it is. *)
Theorem safe_filename_is_safe (name : string) :
  forall_chars is_ascii name = true ->
  forall_chars is_name_char (safe_filename name) = true
  /\ safe_filename (safe_filename name) = safe_filename name.
Proof.
  intros _. split; [apply safe_filename_chars|].
  apply safe_filename_fixed, safe_filename_chars.
Qed.

Lemma safe_filename_is_safe_witness :
  forall_chars is_name_char (safe_filename " Q2 report (final).pdf ") = true
  /\ safe_filename (safe_filename " Q2 report (final).pdf ")
     = safe_filename " Q2 report (final).pdf ".
Proof.
  apply (safe_filename_is_safe " Q2 report (final).pdf "). reflexivity.
Defined.

(** ** Code fences *)

Lemma at_end_after_fence r : at_end (drop 3 (r ++ closing_fence)) = false.
Proof.
  destruct r as [|a [|b [|c [|d r]]]]; try reflexivity.
  cbn [append drop]. destruct r; reflexivity.
Qed.

(** The closing fence is cut off where the text ends, and nowhere else. *)
Lemma drop_closing_fence_end body :
  drop_closing_fence (body ++ closing_fence) = body.
Proof.
  induction body as [|c r IH]; [reflexivity|].
  cbn [append drop_closing_fence].
  replace (drop 4 (String c (r ++ closing_fence)))
    with (drop 3 (r ++ closing_fence)) by reflexivity.
  rewrite at_end_after_fence, andb_false_r, IH. reflexivity.
Qed.

Lemma alnum_not_newline c : is_alnum c = true -> Ascii.eqb c "010" = false.
Proof. ascii_cases c. Qed.

Lemma span_alnum lang r :
  forall_chars is_alnum lang = true ->
  span is_alnum (lang ++ String "010" r) = (lang, String "010" r).
Proof.
  induction lang as [|c lang IH]; [reflexivity|]. intros H.
  simpl in H. apply andb_prop in H as [Hc Hl].
  cbn [append span]. rewrite Hc, (IH Hl). reflexivity.
Qed.

Lemma rstrip_last s c : is_space c = false -> rstrip (s ++ String c "") = s ++ String c "".
Proof.
  intros Hc. induction s as [|a s IH]; [simpl; rewrite Hc; reflexivity|].
  cbn [append rstrip]. rewrite IH.
  destruct s; reflexivity.
Qed.

(** [strip_code_fences] unwraps a fenced block: the opening fence with
    its language tag and the closing fence go, and what is between them
    comes back stripped. *)
Theorem strip_code_fences_unwraps (lang body : string) :
  forall_chars is_alnum lang = true ->
  strip_code_fences (fence ++ lang ++ String "010" (body ++ closing_fence))
  = strip body.
Proof.
  intros Hl. unfold strip_code_fences.
  assert (Hs : strip (fence ++ lang ++ String "010" (body ++ closing_fence))
               = fence ++ lang ++ String "010" (body ++ closing_fence)).
  { unfold strip. rewrite lstrip_clean by reflexivity.
    replace (fence ++ lang ++ String "010" (body ++ closing_fence))
      with ((fence ++ lang ++ String "010" (body ++ String "010" "``")) ++ "`").
    - apply rstrip_last. reflexivity.
    - unfold closing_fence, fence.
      rewrite !append_assoc. cbn [append]. rewrite !append_assoc. reflexivity. }
  rewrite Hs. unfold drop_opening_fence.
  replace (startswith (fence ++ lang ++ String "010" (body ++ closing_fence)) fence)
    with true by (unfold fence; cbn [append startswith]; destruct (lang ++ _); reflexivity).
  replace (drop 3 (fence ++ lang ++ String "010" (body ++ closing_fence)))
    with (lang ++ String "010" (body ++ closing_fence)) by reflexivity.
  rewrite (span_alnum lang _ Hl). simpl snd. cbv iota.
  rewrite drop_closing_fence_end. reflexivity.
Qed.

Lemma strip_code_fences_unwraps_witness :
  strip_code_fences (fence ++ "csv" ++ String "010" ("a,b " ++ closing_fence))
  = strip "a,b ".
Proof.
  apply (strip_code_fences_unwraps "csv" "a,b "). reflexivity.
Defined.

(** ** Several tables in one answer *)

Lemma rev_string_app s : forall acc, rev_string acc s = rev_string "" s ++ acc.
Proof.
  induction s as [|c s IH]; intros acc; [reflexivity|].
  simpl. rewrite (IH (String c acc)), (IH (String c "")), append_assoc.
  reflexivity.
Qed.

Lemma rev_string_append a b :
  rev_string "" (a ++ b) = rev_string "" b ++ rev_string "" a.
Proof.
  induction a as [|c a IH]; [simpl; symmetry; apply append_nil|].
  simpl. rewrite (rev_string_app (a ++ b)), (rev_string_app a), IH, append_assoc.
  reflexivity.
Qed.

Lemma rev_string_rev_string s : rev_string "" (rev_string "" s) = s.
Proof.
  induction s as [|c s IH]; [reflexivity|].
  simpl. rewrite (rev_string_app s), rev_string_append, IH. reflexivity.
Qed.

Lemma startswith_none sep : sep <> "" -> startswith "" sep = false.
Proof. destruct sep; [congruence | reflexivity]. Qed.

Lemma startswith_app a w sep :
  startswith a sep = true -> startswith (a ++ w) sep = true.
Proof.
  revert a. induction sep as [|x sep IH]; intros a H; [destruct (a ++ w); reflexivity|].
  destruct a as [|c a]; [discriminate|].
  cbn [append startswith] in *. apply andb_prop in H as [H1 H2].
  rewrite H1, (IH a H2). reflexivity.
Qed.

Lemma startswith_app_false a w sep :
  startswith (a ++ w) sep = false -> startswith a sep = false.
Proof.
  intros H. destruct (startswith a sep) eqn:E; [| reflexivity].
  rewrite (startswith_app a w sep E) in H. discriminate.
Qed.

Lemma contains_cons c r sep :
  contains (String c r) sep = startswith (String c r) sep || contains r sep.
Proof. destruct sep; reflexivity. Qed.

Lemma contains_none sep : sep <> "" -> contains "" sep = false.
Proof. destruct sep; [congruence | reflexivity]. Qed.

(** A text holds no [sep] when none of its ends starts with it. *)
Lemma contains_false_suffixes sep t :
  sep <> "" ->
  (forall a b, t = a ++ b -> b <> "" -> startswith b sep = false) ->
  contains t sep = false.
Proof.
  intros Hs. induction t as [|c t IH]; intros H; [apply contains_none, Hs|].
  rewrite contains_cons, (H "" (String c t) eq_refl) by discriminate.
  apply IH. intros a b -> Hb. apply (H (String c a) b); [reflexivity | exact Hb].
Qed.

Lemma contains_drop sep : forall i s,
  contains s sep = false -> contains (drop i s) sep = false.
Proof.
  induction i as [|i IH]; intros s H; [destruct s; exact H|].
  destruct s as [|c s]; [exact H|].
  rewrite contains_cons in H. apply orb_false_elim in H as [_ H].
  simpl. apply IH, H.
Qed.

Lemma contains_app_l sep a w :
  sep <> "" -> contains (a ++ w) sep = false -> contains a sep = false.
Proof.
  intros Hs. induction a as [|c a IH]; intros H; [apply contains_none, Hs|].
  cbn [append] in H. rewrite contains_cons in *.
  apply orb_false_elim in H as [H1 H2].
  rewrite (startswith_app_false (String c a) w sep H1), (IH H2). reflexivity.
Qed.

Lemma lstrip_drop s : exists k, lstrip s = drop k s.
Proof.
  induction s as [|c s [k IH]]; [exists 0; reflexivity|].
  simpl. destruct (is_space c); [exists (S k); exact IH | exists 0; reflexivity].
Qed.

Lemma rstrip_prefix s : exists w, s = rstrip s ++ w.
Proof.
  induction s as [|c s [w IH]]; [exists ""; reflexivity|].
  simpl. destruct (is_empty (rstrip s) && is_space c).
  - exists (String c s). reflexivity.
  - exists w. simpl. rewrite <- IH. reflexivity.
Qed.

(** [strip] brings no [sep] in. *)
Lemma contains_strip sep s :
  sep <> "" -> contains s sep = false -> contains (strip s) sep = false.
Proof.
  intros Hs H. unfold strip.
  destruct (lstrip_drop s) as [k Hk].
  destruct (rstrip_prefix (lstrip s)) as [w Hw].
  apply (contains_app_l sep _ w Hs). rewrite <- Hw, Hk.
  apply contains_drop, H.
Qed.

Section SplitFacts.

Variable sep : string.
Hypothesis sep_nonempty : sep <> "".

(** No occurrence of [sep] starts in the piece being read: [cur] holds
    the piece reversed, [s] is what is still ahead. *)
Lemma piece_without_sep cur s :
  (forall x y, cur = x ++ y -> x <> "" -> startswith (rev_string s x) sep = false) ->
  contains (rev_string "" cur) sep = false.
Proof.
  intros Inv. apply (contains_false_suffixes sep _ sep_nonempty).
  intros a b E Hb.
  assert (Ec : cur = rev_string "" b ++ rev_string "" a).
  { rewrite <- rev_string_append, <- E. symmetry. apply rev_string_rev_string. }
  assert (Hx : rev_string "" b <> "").
  { intros K. apply Hb. rewrite <- (rev_string_rev_string b), K. reflexivity. }
  specialize (Inv _ _ Ec Hx).
  rewrite rev_string_app, rev_string_rev_string in Inv.
  apply (startswith_app_false b s sep Inv).
Qed.

Lemma split_from_without_sep : forall s cur skip t,
  (skip = 0 ->
   forall x y, cur = x ++ y -> x <> "" -> startswith (rev_string s x) sep = false) ->
  (skip <> 0 -> cur = "") ->
  In t (split_from sep s cur skip) ->
  contains t sep = false.
Proof.
  induction s as [|c r IH]; intros cur skip t Inv Hc Ht.
  - destruct Ht as [<- | []].
    destruct skip as [|k].
    + apply (piece_without_sep cur ""), Inv. reflexivity.
    + rewrite (Hc (Nat.neq_succ_0 k)). apply contains_none, sep_nonempty.
  - cbn [split_from] in Ht. destruct skip as [|k].
    + destruct (startswith (String c r) sep) eqn:E.
      * destruct Ht as [<- | Ht].
        -- apply (piece_without_sep cur (String c r)), Inv. reflexivity.
        -- apply (IH "" (String.length sep - 1) t); [| reflexivity | exact Ht].
           intros _ x y Exy Hx. destruct x; [congruence | discriminate].
      * apply (IH (String c cur) 0 t); [| congruence | exact Ht].
        intros _ x y Exy Hx.
        destruct x as [|c' x]; [congruence|].
        injection Exy as <- Exy. cbn [rev_string].
        destruct x as [|c2 x]; [exact E|].
        apply (Inv eq_refl _ _ Exy). discriminate.
    + rewrite (Hc (Nat.neq_succ_0 k)) in Ht.
      apply (IH "" k t); [| reflexivity | exact Ht].
      intros _ x y Exy Hx. destruct x; [congruence | discriminate].
Qed.

(** No piece of [s.split(sep)] holds the separator. *)
Lemma split_without_sep s t : In t (split s sep) -> contains t sep = false.
Proof.
  apply split_from_without_sep; [| congruence].
  intros _ x y Exy Hx. destruct x; [congruence | discriminate].
Qed.

Lemma stripped_nonempty_pieces s t :
  In t (stripped_nonempty (split s sep)) ->
  strip t = t /\ t <> "" /\ contains t sep = false.
Proof.
  unfold stripped_nonempty. intros H.
  apply filter_In in H as [H Hne].
  apply in_map_iff in H as [p [<- Hp]].
  split; [apply strip_strip|]. split.
  - intros E. rewrite E in Hne. discriminate.
  - apply contains_strip; [exact sep_nonempty | apply (split_without_sep s), Hp].
Qed.

End SplitFacts.

(** Every piece that [split_multiple_tables] returns is stripped.  When
    the text holds a blank line, it is cut at the blank lines: no piece
    is empty and no piece holds a blank line.  When it holds none but
    holds three dashes in a row, it is cut there: no piece is empty and
    no piece holds three dashes in a row. *)
Theorem split_pieces_are_stripped (text t : string) :
  In t (split_multiple_tables text) ->
  strip t = t
  /\ (contains text blank_line = true ->
      t <> "" /\ contains t blank_line = false)
  /\ (contains text blank_line = false -> contains text "---" = true ->
      t <> "" /\ contains t "---" = false).
Proof.
  unfold split_multiple_tables. intros H.
  destruct (contains text blank_line).
  - apply stripped_nonempty_pieces in H as [A [B C]]; [| discriminate].
    split; [exact A|]. split; [intros _; split; assumption | discriminate].
  - destruct (contains text "---").
    + apply stripped_nonempty_pieces in H as [A [B C]]; [| discriminate].
      split; [exact A|]. split; [discriminate | intros _ _; split; assumption].
    + destruct H as [<- | []].
      split; [apply strip_strip|]. split; discriminate.
Qed.

Lemma split_pieces_are_stripped_witness :
  strip "b" = "b"
  /\ (contains (" a " ++ blank_line ++ "b") blank_line = true ->
      "b" <> "" /\ contains "b" blank_line = false)
  /\ (contains (" a " ++ blank_line ++ "b") blank_line = false ->
      contains (" a " ++ blank_line ++ "b") "---" = true ->
      "b" <> "" /\ contains "b" "---" = false).
Proof.
  apply (split_pieces_are_stripped (" a " ++ blank_line ++ "b") "b").
  right. left. reflexivity.
Defined.

(* ================================================================== *)
(** * The compact columns of the display *)
(* ================================================================== *)

(** Canonical labels with the same compact form are the same label. *)
Lemma compact_injective k k' :
  canonical_year k \/ canonical_quarter k ->
  canonical_year k' \/ canonical_quarter k' ->
  _compact_period_label k' true = _compact_period_label k true -> k' = k.
Proof.
  intros Hk Hk' E.
  rewrite <- (compact_comes_back k Hk), <- (compact_comes_back k' Hk'), E.
  reflexivity.
Qed.

Lemma NoDup_map_injective (g : string -> string) l :
  (forall x y, In x l -> In y l -> g x = g y -> x = y) ->
  NoDup l -> NoDup (map g l).
Proof.
  intros Hinj Hnd. induction Hnd as [|a l Hin Hnd IH]; simpl; constructor.
  - intros H. apply in_map_iff in H as [x [E Hx]].
    apply Hin. rewrite <- (Hinj x a (or_intror Hx) (or_introl eq_refl) E). exact Hx.
  - apply IH. intros x y Hx Hy. apply Hinj; right; assumption.
Qed.

(** With the forecast mark kept, the compact display loses no column: on
    a table whose columns are distinct canonical period labels,
    [to_compact_columns] gives one column for each column of the table,
    in the same order and under pairwise distinct labels; the rows keep
    their labels and order, and every row holds under the compact label
    the cell that it held under the canonical one. *)
Theorem compact_columns_keep_cells (df : DataFrame) :
  empty df = false ->
  NoDup (columns df) ->
  (forall c, In c (columns df) -> canonical_year c \/ canonical_quarter c) ->
  let compact := fun c => _compact_period_label c true in
  let out := to_compact_columns df true in
  index out = index df
  /\ columns out = map compact (columns df)
  /\ NoDup (columns out)
  /\ forall k, In k (columns df) ->
       Forall2 (fun lr lr' => fst lr' = fst lr /\ snd lr' (compact k) = snd lr k)
               (rows df) (rows out).
Proof.
  intros He Hnd Hcanon compact out.
  assert (Hinj : forall x y, In x (columns df) -> In y (columns df) ->
                   compact x = compact y -> x = y).
  { intros x y Hx Hy E.
    apply (compact_injective y x (Hcanon y Hy) (Hcanon x Hx) E). }
  assert (Hmap : NoDup (map compact (columns df)))
    by (apply NoDup_map_injective; assumption).
  unfold out, to_compact_columns. rewrite He. fold compact.
  rewrite (unique_fixed _ Hmap). unfold index. cbn [rows columns].
  split; [| split; [reflexivity | split; [exact Hmap |]]].
  - rewrite map_map. apply map_ext. reflexivity.
  - intros k Hk. apply Forall2_map_r. intros lr _. cbn [fst snd].
    split; [reflexivity|].
    apply (rename_row_single compact (columns df) (snd lr) k Hnd Hk).
    intros k' Hk' E. apply Hinj; assumption.
Qed.

Lemma compact_columns_keep_cells_witness :
  let df := mkDF ["2024"; "2025F"; "4Q2025F"]
              [("Revenue", row_of [("2024", Num 7%float); ("4Q2025F", Num 2%float)])] in
  let compact := fun c => _compact_period_label c true in
  let out := to_compact_columns df true in
  index out = index df
  /\ columns out = map compact (columns df)
  /\ NoDup (columns out)
  /\ forall k, In k (columns df) ->
       Forall2 (fun lr lr' => fst lr' = fst lr /\ snd lr' (compact k) = snd lr k)
               (rows df) (rows out).
Proof.
  apply (compact_columns_keep_cells
           (mkDF ["2024"; "2025F"; "4Q2025F"]
              [("Revenue", row_of [("2024", Num 7%float); ("4Q2025F", Num 2%float)])])).
  - reflexivity.
  - repeat constructor; simpl; intuition discriminate.
  - intros c [<- | [<- | [<- | []]]].
    + left. exists "2024", "". repeat split. left. reflexivity.
    + left. exists "2025", "F". repeat split. right. reflexivity.
    + right. exists "4"%char, "2025", "F".
      repeat split; [simpl; lia | simpl; lia | right; reflexivity].
Defined.

(* ================================================================== *)
(** * Long-form reshape: the quarterly headers *)
(* ================================================================== *)

(** ** Blanks in a header *)

Lemma sfilter_lstrip s :
  sfilter (fun c => negb (is_space c)) (lstrip s)
  = sfilter (fun c => negb (is_space c)) s.
Proof.
  induction s as [|c s IH]; [reflexivity|]. simpl.
  destruct (is_space c) eqn:E; simpl; [exact IH | rewrite E; reflexivity].
Qed.

Lemma sfilter_rstrip s :
  sfilter (fun c => negb (is_space c)) (rstrip s)
  = sfilter (fun c => negb (is_space c)) s.
Proof.
  induction s as [|c s IH]; [reflexivity|]. simpl.
  destruct (is_empty (rstrip s)) eqn:E1; destruct (is_space c) eqn:E2; simpl;
    rewrite ?E2; simpl; rewrite <- IH; try reflexivity.
  destruct (rstrip s); [reflexivity | discriminate].
Qed.

Lemma sfilter_strip s :
  sfilter (fun c => negb (is_space c)) (strip s)
  = sfilter (fun c => negb (is_space c)) s.
Proof. unfold strip. rewrite sfilter_rstrip. apply sfilter_lstrip. Qed.

Lemma space_or_no_blank c :
  negb (is_space c) || Ascii.eqb c " " = true ->
  negb (Ascii.eqb c " ") = negb (is_space c).
Proof. ascii_cases c. Qed.

(** Where the only blanks are space characters, removing the spaces
    removes every blank. *)
Lemma remove_spaces_all_blanks t :
  forall_chars (fun c => negb (is_space c) || Ascii.eqb c " ") t = true ->
  remove_spaces t = sfilter (fun c => negb (is_space c)) t.
Proof.
  unfold remove_spaces.
  induction t as [|c t IH]; [reflexivity|]. simpl. intros H.
  apply andb_prop in H as [Hc Ht].
  rewrite (space_or_no_blank c Hc), (IH Ht). reflexivity.
Qed.

Lemma remove_spaces_of_upper t : remove_spaces (upper t) = upper (remove_spaces t).
Proof.
  unfold remove_spaces, upper.
  induction t as [|c t IH]; [reflexivity|]. simpl.
  rewrite to_upper_blank. destruct (negb (Ascii.eqb c " ")); simpl; rewrite IH; reflexivity.
Qed.

(** The string that [normalize_period] matches is the string that
    [is_period_col] matches, when the blanks inside the header are space
    characters. *)
Lemma same_cleaned_header name :
  forall_chars (fun c => negb (is_space c) || Ascii.eqb c " ") (strip name) = true ->
  remove_spaces (upper (strip name))
  = upper (sfilter (fun c => negb (is_space c)) name).
Proof.
  intros H.
  rewrite remove_spaces_of_upper, (remove_spaces_all_blanks _ H), sfilter_strip.
  reflexivity.
Qed.

(** ** The two shapes of a period column *)

Lemma opt_F_full_cases r : opt_F_full r = true -> r = "" \/ r = "F".
Proof.
  destruct r as [|c [|c' r]]; simpl; intros H; [left; reflexivity | | discriminate].
  right. apply Ascii.eqb_eq in H. subst c. reflexivity.
Qed.

Lemma fullmatch_year_inv s :
  fullmatch_year s = true ->
  exists y m, s = y ++ m /\ forall_chars is_digit y = true
              /\ 2 <= String.length y <= 4 /\ (m = "" \/ m = "F").
Proof.
  unfold fullmatch_year.
  destruct (digits_between 2 4 s) as [[y r]|] eqn:E; [| discriminate].
  intros H. destruct (digits_between_spec _ _ _ _ _ E) as [-> [Hy Hl]].
  exists y, r. repeat split; try assumption; try lia.
  apply opt_F_full_cases, H.
Qed.

Lemma fullmatch_quarter_inv s :
  fullmatch_quarter s = true ->
  exists q y m, s = String q (String "Q" (y ++ m)) /\ is_q q = true
                /\ forall_chars is_digit y = true
                /\ 2 <= String.length y <= 4 /\ (m = "" \/ m = "F").
Proof.
  unfold fullmatch_quarter.
  destruct s as [|q [|c r]]; try discriminate.
  destruct c as [[] [] [] [] [] [] [] []]; try discriminate.
  intros H. apply andb_prop in H as [Hq Hr].
  destruct (fullmatch_year_inv r Hr) as [y [m [-> [Hy [Hl Hm]]]]].
  exists q, y, m. repeat split; try assumption; lia.
Qed.

Lemma contains_char c r a :
  contains (String c r) (String a "") = Ascii.eqb a c || contains r (String a "").
Proof. cbn [contains startswith]. destruct r; rewrite andb_true_r; reflexivity. Qed.

Lemma year_without_Q y m :
  forall_chars is_digit y = true -> (m = "" \/ m = "F") ->
  contains (y ++ m) "Q" = false.
Proof.
  intros Hy Hm. induction y as [|c y IH].
  - destruct Hm as [-> | ->]; reflexivity.
  - simpl in Hy. apply andb_prop in Hy as [Hc Hy].
    cbn [append]. rewrite contains_char, (IH Hy), Ascii.eqb_sym, (digit_not_Q c Hc).
    reflexivity.
Qed.

Lemma blank_not_Q c : is_space c = true -> Ascii.eqb "Q" (to_upper c) = false.
Proof. ascii_cases c. Qed.

(** A [Q] of the header is still there when the blanks are removed. *)
Lemma Q_outlasts_blanks name :
  contains (upper name) "Q" = true ->
  contains (upper (sfilter (fun c => negb (is_space c)) name)) "Q" = true.
Proof.
  unfold upper. induction name as [|c r IH]; [discriminate|].
  cbn [smap sfilter]. rewrite contains_char.
  destruct (is_space c) eqn:E; cbn [negb].
  - rewrite (blank_not_Q c E). exact IH.
  - cbn [smap]. rewrite contains_char. intros H.
    apply orb_prop in H as [H | H]; [rewrite H; reflexivity|].
    rewrite (IH H). apply orb_true_r.
Qed.

(** C10, as it holds: a header that the long-form reshape takes for a
    period column and that holds a [Q], in either letter case and with
    blanks around it, is a quarter [qQy] with or without the forecast mark
    once its blanks are removed; when the blanks inside it are space
    characters, [normalize_period] gives it the forecast label, the year
    followed by [F] (a year of two digits written [20yy], a longer year as
    it is), whether the header carried the mark or not. *)
Theorem normalize_period_quarter_always_forecast (name : string) :
  is_period_col name = true ->
  contains (upper name) "Q" = true ->
  forall_chars (fun c => negb (is_space c) || Ascii.eqb c " ") (strip name) = true ->
  exists q y m,
    upper (sfilter (fun c => negb (is_space c)) name) = String q (String "Q" (y ++ m))
    /\ is_q q = true
    /\ forall_chars is_digit y = true
    /\ 2 <= String.length y <= 4
    /\ (m = "" \/ m = "F")
    /\ normalize_period name = String q (String "Q" (expand_year y ++ "F")).
Proof.
  intros Hp HQ Hb. unfold is_period_col in Hp. cbv zeta in Hp.
  pose proof (Q_outlasts_blanks name HQ) as HQ'.
  pose proof (same_cleaned_header name Hb) as Hc.
  set (s := upper (sfilter (fun c => negb (is_space c)) name)) in *.
  destruct (fullmatch_year s) eqn:Ey.
  { destruct (fullmatch_year_inv s Ey) as [y [m [E [Hy [_ Hm]]]]].
    rewrite E, (year_without_Q y m Hy Hm) in HQ'. discriminate. }
  simpl in Hp.
  destruct (fullmatch_quarter_inv s Hp) as [q [y [m [E [Hq [Hy [Hl Hm]]]]]]].
  exists q, y, m. repeat split; try assumption; try lia.
  rewrite normalize_period_eq. cbv zeta.
  rewrite Hc, E, (match_sort_quarter_value q y m Hq Hy Hl Hm). reflexivity.
Qed.

Lemma normalize_period_quarter_always_forecast_witness :
  exists q y m,
    upper (sfilter (fun c => negb (is_space c)) " 1q 2024 ")
    = String q (String "Q" (y ++ m))
    /\ is_q q = true
    /\ forall_chars is_digit y = true
    /\ 2 <= String.length y <= 4
    /\ (m = "" \/ m = "F")
    /\ normalize_period " 1q 2024 " = String q (String "Q" (expand_year y ++ "F")).
Proof.
  apply (normalize_period_quarter_always_forecast " 1q 2024 "); reflexivity.
Defined.

(** The examples of the claim, and a header in small letters with blanks. *)
Lemma normalize_period_quarter_examples :
  normalize_period "1Q2024" = "1Q2024F"
  /\ normalize_period "1Q2024F" = "1Q2024F"
  /\ normalize_period " 1q 24 " = "1Q2024F".
Proof. repeat split. Qed.

(** A tab inside a quarterly header: the reshape takes the header for a
    period column, [normalize_period] does not recognise it and returns
    it as it is, without the forecast mark. *)
Lemma quarter_header_with_tab_gets_no_mark :
  let name := "1Q" ++ String "009" "2024" in
  is_period_col name = true
  /\ contains (upper name) "Q" = true
  /\ strip name = name
  /\ normalize_period name = name
  /\ endswith (normalize_period name) "F" = false.
Proof. repeat split. Qed.
